(** * Warhammer40K-The-Librarian: the crawl and normalisation scripts

    A shallow embedding of the Python scripts

      - [src/KnowledgeGraph/fetch_warhammer_pages_for_lightrag.py]     (module [Fetch])
      - [src/KnowledgeGraph/fetch_warhammer_pages_for_lightrag_v3.py]  (module [FetchV3])
      - [src/KnowledgeGraph/url_split.py]                       (module [UrlSplit])
      - [src/get_urls.py]                                       (module [GetUrls])

    and the properties of them that the specification states.

    Conventions of the embedding.
      - A Python [str] is a Rocq [string]; a character is a code point below
        256, and the classifications of characters ([isspace], [lower],
        [isprintable], the regular-expression classes) follow Python 3 on
        that range.
      - A JSON-like Python value is a [pyval]; a dict is an association list
        read at its first binding of a key.
      - A Python exception is a value of [exn]; code that may raise returns
        [result A = exn + A].
      - The network and the random generator are an explicit environment the
        functions read; what a run does to the outside is the list of events
        it returns.
      - A regular expression of the scripts is a scanning function of its
        own, named after what the [re.sub] or [re.search] call does.
      - Functions of libraries whose tables or input/output lie outside the
        scripts ([json.loads], [unicodedata], BeautifulSoup's parser and
        [get_text], the writing of files) are parameters of the sections
        that use them.

    The modules [FetchFacts], [UrlSplitFacts] and [GetUrlsFacts] hold the
    properties. *)

From Stdlib Require Import ZArith QArith Bool Ascii String List Lia.
From stdpp Require Import base option list gmap strings pretty.

#[local] Open Scope Z_scope.

(* ===================================================================== *)
(** * Python values and exceptions *)
(* ===================================================================== *)

Set Warnings "-register-all".

Module Py.

(** JSON-like values: what [r.json()] and [json.loads] return. Floats
    never reach the modelled code and are left out. *)
Inductive pyval : Type :=
| PNone
| PBool (b : bool)
| PInt (z : Z)
| PStr (s : string)
| PList (l : list pyval)
| PDict (kvs : list (string * pyval)).

(** Exceptions, as far as the scripts tell them apart. *)
Inductive exn : Type :=
| RequestException (detail : string)  (* requests.RequestException and its subclasses *)
| TypeError
| AttributeError
| KeyError
| IndexError
| ValueError
| LibraryError (name : string)        (* any other Exception raised by a library *)
| MaxRetriesExceeded                  (* RuntimeError("Max retries exceeded") *)
| ApiError (err : pyval)              (* RuntimeError(f"API error: {data['error']}") *)
| EmptyHtmlContent                    (* RuntimeError("Empty HTML content") *)
| NoRevisionsFound                    (* RuntimeError("No revisions/content found") *)
| HttpJsonFailure (attempt : nat) (cause : exn).
                                      (* RuntimeError(f"HTTP/JSON failure on attempt ...") *)

Definition result (A : Type) : Type := (exn + A)%type.
Definition Return {A} (a : A) : result A := inr a.
Definition Raise {A} (e : exn) : result A := inl e.

Definition bind {A B} (m : result A) (k : A -> result B) : result B :=
  match m with
  | inl e => inl e
  | inr a => k a
  end.

Notation "'let*' x := m 'in' k" := (bind m (fun x => k))
  (at level 10, x name, m at level 100, k at level 200, only parsing).

(** [isinstance(e, requests.RequestException)] *)
Definition is_request_exception (e : exn) : bool :=
  match e with
  | RequestException _ => true
  | _ => false
  end.

(** [bool(v)] *)
Definition truthy (v : pyval) : bool :=
  match v with
  | PNone => false
  | PBool b => b
  | PInt z => negb (z =? 0)
  | PStr s => negb (String.eqb s "")
  | PList l => match l with [] => false | _ => true end
  | PDict kvs => match kvs with [] => false | _ => true end
  end.

(** [a or b] *)
Definition py_or (a b : pyval) : pyval := if truthy a then a else b.

Fixpoint assoc (k : string) (kvs : list (string * pyval)) : option pyval :=
  match kvs with
  | [] => None
  | (k', v) :: rest => if String.eqb k k' then Some v else assoc k rest
  end.

Definition is_str (s : string) (v : pyval) : bool :=
  match v with
  | PStr s' => String.eqb s s'
  | _ => false
  end.

(** [needle in hay] for two strings: substring test. *)
Fixpoint substring_of (needle hay : string) : bool :=
  if String.prefix needle hay then true
  else match hay with
       | EmptyString => false
       | String _ hay' => substring_of needle hay'
       end.

(** [k in v] for a string [k]: key of a dict, element of a list, substring
    of a string; [TypeError] for a value that is not a container. *)
Definition contains (k : string) (v : pyval) : result bool :=
  match v with
  | PDict kvs => Return (bool_decide (is_Some (assoc k kvs)))
  | PList l => Return (existsb (is_str k) l)
  | PStr s => Return (substring_of k s)
  | PNone | PBool _ | PInt _ => Raise TypeError
  end.

(** [v.get(k)] *)
Definition get (v : pyval) (k : string) : result pyval :=
  match v with
  | PDict kvs => Return (default PNone (assoc k kvs))
  | _ => Raise AttributeError
  end.

(** [v.get(k, d)] *)
Definition get_default (v : pyval) (k : string) (d : pyval) : result pyval :=
  match v with
  | PDict kvs => Return (default d (assoc k kvs))
  | _ => Raise AttributeError
  end.

(** [v[k]] for a string [k] *)
Definition getitem (v : pyval) (k : string) : result pyval :=
  match v with
  | PDict kvs => match assoc k kvs with Some x => Return x | None => Raise KeyError end
  | _ => Raise TypeError
  end.

(** [v[0]] *)
Definition getitem0 (v : pyval) : result pyval :=
  match v with
  | PList (x :: _) => Return x
  | PList [] => Raise IndexError
  | PStr (String c _) => Return (PStr (String c EmptyString))
  | PStr EmptyString => Raise IndexError
  | PDict kvs => Raise KeyError
  | _ => Raise TypeError
  end.

Definition is_dict (v : pyval) : bool :=
  match v with PDict _ => true | _ => false end.

Definition is_list (v : pyval) : bool :=
  match v with PList _ => true | _ => false end.

End Py.
Import Py.


(* ===================================================================== *)
(** * Python string operations *)
(* ===================================================================== *)

Module Str.

Definition code (c : ascii) : N := N_of_ascii c.
Definition chr (n : N) : ascii := ascii_of_N n.

(** The characters the scripts write with an escape. *)
Definition nl : string := String (chr 10) "".
Definition dquote : string := String (chr 34) "".

(** [c.isspace()], also the class [\s] of [re] on [str] patterns: on the
    code points below 256 these are TAB..CR, FS..US, space, NEL and NBSP. *)
Definition isspace (c : ascii) : bool :=
  let n := code c in
  ((9 <=? n) && (n <=? 13) || (28 <=? n) && (n <=? 32) || (n =? 133) || (n =? 160))%N.

(** [c.lower()]: the upper-case letters below 256 are A..Z and the Latin-1
    letters 192..222 without the multiplication sign 215. *)
Definition lower_char (c : ascii) : ascii :=
  let n := code c in
  if ((65 <=? n) && (n <=? 90) || (192 <=? n) && (n <=? 214) || (216 <=? n) && (n <=? 222))%N
  then chr (n + 32) else c.

(** The class [\w] of [re] on [str] patterns: alphanumeric or underscore. *)
Definition is_word (c : ascii) : bool :=
  let n := code c in
  ((48 <=? n) && (n <=? 57) || (65 <=? n) && (n <=? 90) || (n =? 95)
   || (97 <=? n) && (n <=? 122)
   || (n =? 170) || (n =? 178) || (n =? 179) || (n =? 181) || (n =? 185) || (n =? 186)
   || (188 <=? n) && (n <=? 190)
   || (192 <=? n) && (n <=? 214) || (216 <=? n) && (n <=? 246) || (248 <=? n))%N.

(** The class [[A-Za-z0-9]]. *)
Definition is_ascii_alnum (c : ascii) : bool :=
  let n := code c in
  ((48 <=? n) && (n <=? 57) || (65 <=? n) && (n <=? 90) || (97 <=? n) && (n <=? 122))%N.

Definition is_empty (s : string) : bool :=
  match s with EmptyString => true | _ => false end.

Fixpoint map (f : ascii -> ascii) (s : string) : string :=
  match s with
  | EmptyString => EmptyString
  | String c s' => String (f c) (map f s')
  end.

(** [s.lower()] *)
Definition lower (s : string) : string := map lower_char s.

Fixpoint drop (n : nat) (s : string) : string :=
  match n, s with
  | O, _ => s
  | S _, EmptyString => EmptyString
  | S n', String _ s' => drop n' s'
  end.

Fixpoint take (n : nat) (s : string) : string :=
  match n, s with
  | O, _ => EmptyString
  | S _, EmptyString => EmptyString
  | S n', String c s' => String c (take n' s')
  end.

(** [s[i:j]] for [0 <= i], [0 <= j] *)
Definition slice (i j : nat) (s : string) : string := take (j - i) (drop i s).

(** [s.lstrip()], [s.rstrip()], [s.strip()] over a class of characters. *)
Fixpoint lstrip_by (p : ascii -> bool) (s : string) : string :=
  match s with
  | EmptyString => EmptyString
  | String c s' => if p c then lstrip_by p s' else s
  end.

Fixpoint rstrip_by (p : ascii -> bool) (s : string) : string :=
  match s with
  | EmptyString => EmptyString
  | String c s' =>
      let r := rstrip_by p s' in
      if is_empty r && p c then EmptyString else String c r
  end.

Definition strip_by (p : ascii -> bool) (s : string) : string :=
  rstrip_by p (lstrip_by p s).

Definition strip (s : string) : string := strip_by isspace s.
Definition rstrip (s : string) : string := rstrip_by isspace s.

(** [s.startswith(p)] up to case, as [re.I] compares characters. *)
Fixpoint prefix_ci (p s : string) : bool :=
  match p, s with
  | EmptyString, _ => true
  | String _ _, EmptyString => false
  | String a p', String b s' =>
      Ascii.eqb (lower_char a) (lower_char b) && prefix_ci p' s'
  end.

(** Index of the first occurrence, [None] when there is none. *)
Fixpoint find_from (test : string -> bool) (i : nat) (s : string) : option nat :=
  if test s then Some i
  else match s with
       | EmptyString => None
       | String _ s' => find_from test (S i) s'
       end.

Definition find (pat s : string) : option nat := find_from (String.prefix pat) 0 s.
Definition find_ci (pat s : string) : option nat := find_from (prefix_ci pat) 0 s.

Definition starts_with_char (c : ascii) (s : string) : bool :=
  match s with
  | String c' _ => Ascii.eqb c c'
  | EmptyString => false
  end.

Definition find_char (c : ascii) (s : string) : option nat :=
  find_from (starts_with_char c) 0 s.

(** [s.replace(old, new)] for a non-empty [old]: occurrences are replaced
    from the left, without overlap. [skip] counts the characters of an
    occurrence still to pass over. *)
Fixpoint replace_go (old new : string) (skip : nat) (s : string) : string :=
  match s with
  | EmptyString => EmptyString
  | String c s' =>
      match skip with
      | S k => replace_go old new k s'
      | O =>
          if String.prefix old s
          then new +:+ replace_go old new (String.length old - 1) s'
          else String c (replace_go old new 0 s')
      end
  end.

Definition replace (old new s : string) : string := replace_go old new 0 s.

(** The same with [old] compared up to case ([re.sub] of a literal pattern
    with [re.I]). *)
Fixpoint replace_ci_go (old new : string) (skip : nat) (s : string) : string :=
  match s with
  | EmptyString => EmptyString
  | String c s' =>
      match skip with
      | S k => replace_ci_go old new k s'
      | O =>
          if prefix_ci old s
          then new +:+ replace_ci_go old new (String.length old - 1) s'
          else String c (replace_ci_go old new 0 s')
      end
  end.

Definition replace_ci (old new s : string) : string := replace_ci_go old new 0 s.

(** [s.split(sep)] for a one-character separator: the pieces between the
    separators, empty ones included; [[""]] for the empty string. *)
Fixpoint split_char (sep : ascii) (s : string) : list string :=
  match s with
  | EmptyString => [EmptyString]
  | String c s' =>
      if Ascii.eqb c sep then EmptyString :: split_char sep s'
      else match split_char sep s' with
           | piece :: pieces => String c piece :: pieces
           | [] => [String c EmptyString]
           end
  end.

(** [s.split()]: the maximal runs of characters that are not white space. *)
Fixpoint words_go (cur : option string) (s : string) : list string :=
  match s with
  | EmptyString => option_list cur
  | String c s' =>
      if isspace c then option_list cur ++ words_go None s'
      else words_go (Some (default EmptyString cur +:+ String c EmptyString)) s'
  end.

Definition words (s : string) : list string := words_go None s.

(** [sep.join(l)] *)
Fixpoint join (sep : string) (l : list string) : string :=
  match l with
  | [] => EmptyString
  | [x] => x
  | x :: rest => x +:+ sep +:+ join sep rest
  end.

(** ["".join(l)] *)
Definition concat (l : list string) : string := join EmptyString l.

(** [s * n] *)
Fixpoint repeat (s : string) (n : nat) : string :=
  match n with
  | O => EmptyString
  | S n' => s +:+ repeat s n'
  end.

(** A line boundary of [str.splitlines] below 256: LF, VT, FF, CR, FS, GS,
    RS and NEL; CR LF counts as one. *)
Definition is_linebreak (c : ascii) : bool :=
  let n := code c in
  ((10 <=? n) && (n <=? 13) || (28 <=? n) && (n <=? 30) || (n =? 133))%N.

(** [s.splitlines()]. [cur] is the line read so far, [after_cr] tells that
    the previous character was a CR, which a LF then completes. *)
Fixpoint splitlines_go (cur : string) (open after_cr : bool) (s : string) : list string :=
  match s with
  | EmptyString => if open then [cur] else []
  | String c s' =>
      if after_cr && (code c =? 10)%N then splitlines_go EmptyString false false s'
      else if is_linebreak c
      then cur :: splitlines_go EmptyString false (code c =? 13)%N s'
      else splitlines_go (cur +:+ String c EmptyString) true false s'
  end.

Definition splitlines (s : string) : list string :=
  splitlines_go EmptyString false false s.

(** Decimal numeral of a natural number, as [str(n)] and f-strings print it. *)
Definition of_nat (n : nat) : string := pretty n.

Definition of_Z (z : Z) : string := pretty z.

End Str.

(* ===================================================================== *)
(** * [str()] and [repr()] of a value *)
(* ===================================================================== *)

Module Repr.

Definition hex_digit (n : N) : ascii :=
  if (n <? 10)%N then Str.chr (48 + n) else Str.chr (87 + n).

(** [\xhh] *)
Definition hex_escape (c : ascii) : string :=
  let n := Str.code c in
  String "\" (String "x" (String (hex_digit (n / 16)) (String (hex_digit (n mod 16)) ""))).

(** [c.isprintable()] below 256: the controls, DEL..NBSP and the soft
    hyphen are not. *)
Definition isprintable (c : ascii) : bool :=
  let n := Str.code c in
  negb ((n <? 32) || (127 <=? n) && (n <=? 160) || (n =? 173))%N.

Definition has_char (c : ascii) (s : string) : bool :=
  bool_decide (is_Some (Str.find_char c s)).

Definition squote : ascii := "'"%char.
Definition dquote : ascii := Str.chr 34.

Fixpoint repr_chars (quote : ascii) (s : string) : string :=
  match s with
  | EmptyString => EmptyString
  | String c s' =>
      let n := Str.code c in
      (if Ascii.eqb c quote || Ascii.eqb c "\" then String "\" (String c "")
       else if (n =? 9)%N then "\t"
       else if (n =? 10)%N then "\n"
       else if (n =? 13)%N then "\r"
       else if isprintable c then String c ""
       else hex_escape c) +:+ repr_chars quote s'
  end.

(** [repr(s)] of a string: single quotes, unless the string holds a single
    quote and no double quote. *)
Definition repr_str (s : string) : string :=
  let quote := if has_char squote s && negb (has_char dquote s) then dquote else squote in
  String quote "" +:+ repr_chars quote s +:+ String quote "".

Fixpoint repr (v : pyval) : string :=
  match v with
  | PNone => "None"
  | PBool true => "True"
  | PBool false => "False"
  | PInt z => Str.of_Z z
  | PStr s => repr_str s
  | PList l => "[" +:+ Str.join ", " (List.map repr l) +:+ "]"
  | PDict kvs =>
      "{" +:+ Str.join ", " (List.map (fun kv => repr_str (fst kv) +:+ ": " +:+ repr (snd kv)) kvs)
          +:+ "}"
  end.

(** [str(v)] *)
Definition str (v : pyval) : string :=
  match v with
  | PStr s => s
  | _ => repr v
  end.

(** The values [for c in v] runs through: the elements of a list, the keys
    of a dict, the characters of a string; [TypeError] otherwise. *)
Fixpoint chars (s : string) : list pyval :=
  match s with
  | EmptyString => []
  | String c s' => PStr (String c "") :: chars s'
  end.

Definition iterate (v : pyval) : result (list pyval) :=
  match v with
  | PList l => Return l
  | PDict kvs => Return (List.map (fun kv => PStr (fst kv)) kvs)
  | PStr s => Return (chars s)
  | PNone | PBool _ | PInt _ => Raise TypeError
  end.

End Repr.

(* ===================================================================== *)
(** * The fetch client of [fetch_warhammer_pages_for_lightrag.py] *)
(* ===================================================================== *)

Module Fetch.

(** Configuration constants of the script. [INITIAL_BACKOFF] is the float
    [2.0]; every value the backoff takes in a call (2, 4, ..., 128, or 60)
    is an integer that floats represent exactly, so it is an integer here. *)
Definition MAX_RETRIES : nat := 6.
Definition INITIAL_BACKOFF : Z := 2.
Definition USE_PARSE : bool := true.

(** What one [session.get(...)] followed by [r.json()] can do: the call
    raises, or a response arrives with a status code and a body that
    [r.json()] decodes or fails to decode. *)
Inductive attempt_outcome : Type :=
| GetRaises (e : exn)
| Response (status_code : Z) (json : result pyval).

(** The environment of one call of [fetch_with_backoff]: the outcome of
    the attempt numbered [n] and the value [random.uniform(0, 1.0)] returns
    when it is drawn during that attempt. *)
Record net : Type := {
  outcome : nat -> attempt_outcome;
  uniform : nat -> Q
}.

(** The observable actions of a call. [Sleep b None] is [time.sleep(b)];
    [Sleep b (Some u)] is [time.sleep(b + u)] with [u] the random addend
    (the two summands are kept apart: their float sum is not computed). *)
Inductive event : Type :=
| Get (attempt : nat)
| Sleep (backoff : Z) (jitter : option Q).

(** [r.status_code == 429 or 500 <= r.status_code < 600] *)
Definition status_retry (status_code : Z) : bool :=
  (status_code =? 429) || ((500 <=? status_code) && (status_code <? 600)).

(** [isinstance(data, dict) and "error" in data
     and data["error"].get("code") == "maxlag"]; the [.get] raises
    [AttributeError] when [data["error"]] is not a dict. *)
Definition is_maxlag (data : pyval) : result bool :=
  match data with
  | PDict kvs =>
      match assoc "error" kvs with
      | None => Return false
      | Some err =>
          let* code := get err "code" in
          Return (is_str "maxlag" code)
      end
  | _ => Return false
  end.

(** The body of the [for attempt in range(1, MAX_RETRIES + 1)] loop, over
    the attempts still to make, with the current [backoff]. *)
Fixpoint attempts (w : net) (todo : list nat) (backoff : Z)
  : list event * result pyval :=
  match todo with
  | [] => ([], Raise MaxRetriesExceeded)
  | attempt :: rest =>
      (* the two [except] clauses *)
      let handler (e : exn) : list event * result pyval :=
        if is_request_exception e then
          let '(tr, r) := attempts w rest (Z.min (backoff * 2) 60) in
          (Sleep backoff None :: tr, r)
        else if Nat.eqb attempt MAX_RETRIES then
          ([Sleep backoff None], Raise e)
        else
          let '(tr, r) := attempts w rest (Z.min (backoff * 2) 60) in
          (Sleep backoff None :: tr, r)
      in
      let '(tr, r) :=
        match outcome w attempt with
        | GetRaises e => handler e
        | Response status_code json =>
            if status_retry status_code then
              let '(tr, r) := attempts w rest (backoff * 2) in
              (Sleep backoff None :: tr, r)
            else
              match json with
              | inl e => handler e
              | inr data =>
                  match is_maxlag data with
                  | inl e => handler e
                  | inr true =>
                      let '(tr, r) := attempts w rest (Z.min (backoff * 2) 60) in
                      (Sleep backoff (Some (uniform w attempt)) :: tr, r)
                  | inr false => ([], Return data)
                  end
              end
        end
      in (Get attempt :: tr, r)
  end.

Definition fetch_with_backoff (w : net) : list event * result pyval :=
  attempts w (seq 1 MAX_RETRIES) INITIAL_BACKOFF.

(** [main()] of this script is [Fetch.main fetch_with_backoff ...], see
    the section [Driver] below. *)

(** Projections of a trace. *)
Definition backoffs (tr : list event) : list Z :=
  omap (fun ev => match ev with Sleep b _ => Some b | _ => None end) tr.

Definition gets (tr : list event) : list nat :=
  omap (fun ev => match ev with Get a => Some a | _ => None end) tr.

(** ** The markup-to-text converter *)

(** A node of the tree BeautifulSoup builds: a [NavigableString] (text,
    and its subclasses such as comments), a [Tag] with its name, its
    attributes and its children in order, or another page element.
    Attribute values are strings: the converter reads [alt] only, which
    BeautifulSoup never holds as a list. *)
Inductive node : Type :=
| NavigableString (s : string)
| Tag (name : string) (attrs : list (string * string)) (children : list node)
| OtherElement.

(** [int(name[1])] for [name in ["h1", ..., "h6"]] *)
Definition heading_level (name : string) : option nat :=
  if String.eqb name "h1" then Some 1%nat
  else if String.eqb name "h2" then Some 2%nat
  else if String.eqb name "h3" then Some 3%nat
  else if String.eqb name "h4" then Some 4%nat
  else if String.eqb name "h5" then Some 5%nat
  else if String.eqb name "h6" then Some 6%nat
  else None.

(** [node.get(k, "")] *)
Fixpoint attr (k : string) (attrs : list (string * string)) : string :=
  match attrs with
  | [] => ""
  | (k', v) :: rest => if String.eqb k k' then v else attr k rest
  end.

(** [node.find_all(names, recursive=False)]: the children that are tags
    with one of the names. *)
Definition is_tag_named (names : list string) (n : node) : bool :=
  match n with
  | Tag name _ _ => existsb (String.eqb name) names
  | _ => false
  end.

Definition children_of (n : node) : list node :=
  match n with
  | Tag _ _ children => children
  | _ => []
  end.

(** One list item of [ul]/[ol]: the number [i] counts every [li], the
    items without text are left out. *)
Definition list_item (ordered : bool) (numbered : nat * string) : option string :=
  let '(i, item_md) := numbered in
  if Str.is_empty item_md then None
  else if ordered then Some (Str.of_nat i +:+ ". " +:+ item_md)
  else Some ("- " +:+ item_md).

Definition enumerate_from {A} (start : nat) (l : list A) : list (nat * A) :=
  zip (seq start (length l)) l.

(** [f"> {line}" if line.strip() else ">"] *)
Definition quote_line (line : string) : string :=
  if Str.is_empty (Str.strip line) then ">" else "> " +:+ line.

(** The names [node_to_markdown] has a rule for. *)
Definition handled (name : string) : bool :=
  bool_decide (is_Some (heading_level name))
  || existsb (String.eqb name) ["p"; "br"; "ul"; "ol"; "li"; "table"; "blockquote"; "img"].

Section Converter.

(** [c.get_text(" ", strip=True)] of BeautifulSoup, for a table cell. *)
Variable get_text : node -> string.

Fixpoint node_to_markdown (n : node) : string :=
  match n with
  | NavigableString s => s
  | OtherElement => ""
  | Tag tag_name attrs children =>
      let name := Str.lower tag_name in
      let inner := Str.concat (List.map node_to_markdown children) in
      match heading_level name with
      | Some level =>
          let text := Str.strip inner in
          if Str.is_empty text then ""
          else Str.repeat "#" level +:+ " " +:+ text +:+ Str.nl +:+ Str.nl
      | None =>
          if String.eqb name "p" then
            let text := Str.strip inner in
            if Str.is_empty text then "" else text +:+ Str.nl +:+ Str.nl
          else if String.eqb name "br" then Str.nl
          else if String.eqb name "ul" || String.eqb name "ol" then
            (* node.find_all("li", recursive=False), each with its text *)
            let lis :=
              omap
                (fun li => match li with
                           | Tag li_name _ li_children =>
                               if String.eqb li_name "li"
                               then Some (Str.strip
                                            (Str.concat (List.map node_to_markdown li_children)))
                               else None
                           | _ => None
                           end)
                children in
            let items := omap (list_item (String.eqb name "ol")) (enumerate_from 1 lis) in
            match items with
            | [] => ""
            | _ => Str.join Str.nl items +:+ Str.nl +:+ Str.nl
            end
          else if String.eqb name "li" then inner
          else if String.eqb name "table" then
            let rows :=
              omap
                (fun tr =>
                   let cols :=
                     List.map get_text (List.filter (is_tag_named ["th"; "td"]) (children_of tr)) in
                   match cols with
                   | [] => None
                   | _ => Some (Str.join " | " cols)
                   end)
                (List.filter (is_tag_named ["tr"]) children) in
            match rows with
            | [] => ""
            | _ => Str.join Str.nl rows +:+ Str.nl +:+ Str.nl
            end
          else if String.eqb name "blockquote" then
            let text := Str.strip inner in
            if Str.is_empty text then ""
            else Str.join Str.nl (List.map quote_line (Str.splitlines text)) +:+ Str.nl +:+ Str.nl
          else if String.eqb name "img" then Str.strip (attr "alt" attrs)
          else inner
      end
  end.

End Converter.

(** ** Categories in [write_markdown] *)


(** [cats = categories or []], replaced by [cats["categories"]] when it is
    a dict with that key. *)
Definition cats_of (categories : pyval) : pyval :=
  let cats := py_or categories (PList []) in
  match cats with
  | PDict kvs => default cats (assoc "categories" kvs)
  | _ => cats
  end.


(** [(c.get('*') if isinstance(c, dict) and '*' in c else str(c)).strip()] *)
Definition category_text (c : pyval) : result string :=
  let stripped (v : pyval) : result string :=
    match v with
    | PStr s => Return (Str.strip s)
    | _ => Raise AttributeError
    end in
  match c with
  | PDict kvs =>
      match assoc "*" kvs with
      | Some v => stripped v
      | None => Return (Str.strip (Repr.str c))
      end
  | _ => Return (Str.strip (Repr.str c))
  end.

(** [sorted({...})]: the strings in increasing order, each once. *)
Fixpoint insert_sorted (x : string) (l : list string) : list string :=
  match l with
  | [] => [x]
  | y :: l' =>
      if String.eqb x y then l
      else if String.ltb x y then x :: l
      else y :: insert_sorted x l'
  end.

Definition sorted_set (l : list string) : list string :=
  fold_right insert_sorted [] l.

Fixpoint category_texts (cs : list pyval) : result (list string) :=
  match cs with
  | [] => Return []
  | c :: rest =>
      if truthy c then
        let* s := category_text c in
        let* ss := category_texts rest in
        Return (s :: ss)
      else category_texts rest
  end.

(** [cats_text], the line written after "**Categories:**". *)
Definition cats_text (categories : pyval) : result string :=
  let cats := cats_of categories in
  match cats with
  | PList cs =>
      let* texts := category_texts cs in
      Return (Str.join ", " (sorted_set texts))
  | _ => Return (if truthy cats then Str.strip (Repr.str cats) else "")
  end.

(** ** The driver *)

(** One row of the input table, after [coerce_int] and
    [drop_duplicates]. *)
Record row : Type := {
  page_id : Z;
  title : string;
  url : string
}.

(** One entry of [fail_rows]; [error] stands for [str(e)] (and, in the v3
    script, for the traceback text as well). *)
Record failure : Type := {
  fail_page_id : Z;
  fail_title : string;
  fail_url : string;
  error : exn
}.

(** What a run of [main] does, in order. *)
Inductive action : Type :=
| Throttle                                   (* sleep_politely(...) *)
| Network (evs : list event)                 (* the requests and sleeps of one fetch *)
| Wrote (idx : nat) (path : string)          (* print(f"[{idx+1}/{len(df)}] wrote {out_path}") *)
| Failed (idx : nat) (page : Z) (e : exn)    (* print(f"[{idx+1}/{len(df)}] FAIL page_id=...") *)
| WriteFailLog (rows : list failure).        (* pd.DataFrame(fail_rows).to_csv(FAIL_LOG) *)

Section Driver.

(** The fetch function of the script, in the environment of one call. *)
Variable fetch : net -> list event * result pyval.
(** [html_to_markdown(html)]: BeautifulSoup parses, the converter runs. *)
Variable html_to_markdown : pyval -> result string.
(** [write_markdown(page_id, title, url, categories, sections, body_md)]:
    writes the file and returns its path, or raises. *)
Variable write_markdown : row -> pyval -> pyval -> string -> result string.
(** The network as the page at position [idx] meets it. *)
Variable world : nat -> net.

(** [if "error" in data: raise RuntimeError(f"API error: {data['error']}")] *)
Definition check_error (data : pyval) : result unit :=
  let* has_error := contains "error" data in
  if (has_error : bool) then
    let* err := getitem data "error" in
    Raise (ApiError err)
  else Return tt.

(** The [if USE_PARSE:] branch after the fetch. *)
Definition handle_parse (r : row) (data : pyval) : result string :=
  let* _ := check_error data in
  let* p := get data "parse" in
  let parsed := py_or p (PDict []) in
  let* t := get parsed "text" in
  let html := py_or t (PStr "") in
  let* s := get parsed "sections" in
  let sections := py_or s (PList []) in
  let* c := get parsed "categories" in
  let categories := py_or c (PList []) in
  if negb (truthy html) then Raise EmptyHtmlContent
  else
    let* body_md := html_to_markdown html in
    write_markdown r categories sections body_md.

(** [(wikitext or "").strip() + "\n"] *)
Definition wikitext_body (wikitext : pyval) : result string :=
  match py_or wikitext (PStr "") with
  | PStr s => Return (Str.strip s +:+ Str.nl)
  | _ => Raise AttributeError
  end.

(** The [else:] branch (wikitext through [action=query]) after the fetch. *)
Definition handle_query (r : row) (data : pyval) : result string :=
  let* _ := check_error data in
  let* q := get data "query" in
  let* ps := get (py_or q (PDict [])) "pages" in
  let pages := py_or ps (PList []) in
  if negb (truthy pages) then Raise NoRevisionsFound
  else
    let* page0 := getitem0 pages in
    let* has_revisions := contains "revisions" page0 in
    if negb has_revisions then Raise NoRevisionsFound
    else
      let* revisions := getitem page0 "revisions" in
      let* rev := getitem0 revisions in
      let* slots := get_default rev "slots" (PDict []) in
      let* main_slot := get_default slots "main" (PDict []) in
      let* wikitext := get_default main_slot "content" (PStr "") in
      let* categories := get_default page0 "categories" (PList []) in
      let* body_md := wikitext_body wikitext in
      write_markdown r categories (PList []) body_md.

(** The body of the [try:] for the page at position [idx]. *)
Definition process_page (idx : nat) (r : row) : list event * result string :=
  let '(evs, fetched) := fetch (world idx) in
  (evs,
   let* data := fetched in
   if USE_PARSE then handle_parse r data else handle_query r data).

(** [for idx, row in df.iterrows(): ...], with [fail_rows] as it stands. *)
Fixpoint main_loop (idx : nat) (rows : list row) (fail_rows : list failure)
  : list action * list failure :=
  match rows with
  | [] => ([], fail_rows)
  | r :: rest =>
      let '(evs, outcome) := process_page idx r in
      match outcome with
      | inr out_path =>
          let '(acts, fails) := main_loop (S idx) rest fail_rows in
          (Throttle :: Network evs :: Wrote idx out_path :: acts, fails)
      | inl e =>
          (* except Exception as e: *)
          let entry := {| fail_page_id := page_id r; fail_title := title r;
                          fail_url := url r; error := e |} in
          let '(acts, fails) := main_loop (S idx) rest (fail_rows ++ [entry]) in
          (Throttle :: Network evs :: Failed idx (page_id r) e :: acts, fails)
      end
  end.

(** [main()], from the de-duplicated table on. *)
Definition main (rows : list row) : list action :=
  let '(acts, fail_rows) := main_loop 0 rows [] in
  match fail_rows with
  | [] => acts
  | _ => acts ++ [WriteFailLog fail_rows]
  end.

End Driver.

End Fetch.

(* ===================================================================== *)
(** * The fetch client of [fetch_warhammer_pages_for_lightrag_v3.py] *)
(* ===================================================================== *)

Module FetchV3.

Import Fetch.

Definition MAX_RETRIES : nat := 6.

(** The loop body returns or raises in its first round, whatever happens:
    [return r.json()], or, for any exception,
    [raise RuntimeError(f"HTTP/JSON failure on attempt {attempt}: ...")]. *)
Definition attempts (w : net) (todo : list nat) : list event * result pyval :=
  match todo with
  | [] => ([], Raise MaxRetriesExceeded)
  | attempt :: _ =>
      (Get attempt :: [],
       match outcome w attempt with
       | GetRaises e => Raise (HttpJsonFailure attempt e)
       | Response _ (inl e) => Raise (HttpJsonFailure attempt e)
       | Response _ (inr data) => Return data
       end)
  end.

Definition fetch_with_backoff (w : net) : list event * result pyval :=
  attempts w (seq 1 MAX_RETRIES).

(** [node_to_markdown] of this script: the rules of the other one without
    those for [br] and [li]. *)
Definition handled (name : string) : bool :=
  bool_decide (is_Some (heading_level name))
  || existsb (String.eqb name) ["p"; "ul"; "ol"; "table"; "blockquote"; "img"].

Section Converter.

Variable get_text : node -> string.

Fixpoint node_to_markdown (n : node) : string :=
  match n with
  | NavigableString s => s
  | OtherElement => ""
  | Tag tag_name attrs children =>
      let name := Str.lower tag_name in
      let inner := Str.concat (List.map node_to_markdown children) in
      match heading_level name with
      | Some level =>
          let text := Str.strip inner in
          if Str.is_empty text then ""
          else Str.repeat "#" level +:+ " " +:+ text +:+ Str.nl +:+ Str.nl
      | None =>
          if String.eqb name "p" then
            let text := Str.strip inner in
            if Str.is_empty text then "" else text +:+ Str.nl +:+ Str.nl
          else if String.eqb name "ul" || String.eqb name "ol" then
            let lis :=
              omap
                (fun li => match li with
                           | Tag li_name _ li_children =>
                               if String.eqb li_name "li"
                               then Some (Str.strip
                                            (Str.concat (List.map node_to_markdown li_children)))
                               else None
                           | _ => None
                           end)
                children in
            let items := omap (list_item (String.eqb name "ol")) (enumerate_from 1 lis) in
            match items with
            | [] => ""
            | _ => Str.join Str.nl items +:+ Str.nl +:+ Str.nl
            end
          else if String.eqb name "table" then
            let rows :=
              omap
                (fun tr =>
                   let cols :=
                     List.map get_text (List.filter (is_tag_named ["th"; "td"]) (children_of tr)) in
                   match cols with
                   | [] => None
                   | _ => Some (Str.join " | " cols)
                   end)
                (List.filter (is_tag_named ["tr"]) children) in
            match rows with
            | [] => ""
            | _ => Str.join Str.nl rows +:+ Str.nl +:+ Str.nl
            end
          else if String.eqb name "blockquote" then
            let text := Str.strip inner in
            if Str.is_empty text then ""
            else Str.join Str.nl (List.map quote_line (Str.splitlines text)) +:+ Str.nl +:+ Str.nl
          else if String.eqb name "img" then Str.strip (attr "alt" attrs)
          else inner
      end
  end.

End Converter.

(** [main()] with [--head N]: [df.head(N)] when [N > 0]. *)
Definition main html_to_markdown write_markdown world (head : Z) (rows : list row)
  : list action :=
  Fetch.main fetch_with_backoff html_to_markdown write_markdown world
    (if 0 <? head then take (Z.to_nat head) rows else rows).

End FetchV3.

(* ===================================================================== *)
(** * [url_split.py]: file names, categories, sections *)
(* ===================================================================== *)

Module UrlSplit.

(** ** [safe_filename] *)

(** [re.sub(r"[^A-Za-z0-9]+", "_", txt)]: every maximal run of characters
    outside the class becomes one underscore. *)
Fixpoint sub_non_alnum (in_run : bool) (s : string) : string :=
  match s with
  | EmptyString => EmptyString
  | String c s' =>
      if Str.is_ascii_alnum c then String c (sub_non_alnum false s')
      else if in_run then sub_non_alnum true s'
      else String "_" (sub_non_alnum true s')
  end.

(** [f"{base}_{idx}"] *)
Definition suffixed (base : string) (idx : nat) : string :=
  base +:+ "_" +:+ Str.of_nat idx.

(** The [while candidate in taken:] loop, for at most [fuel] tests of the
    condition; [None] when they do not suffice. *)
Fixpoint resolve (fuel : nat) (taken : gset string) (base : string)
    (idx : nat) (candidate : string) : option string :=
  match fuel with
  | O => None
  | S fuel' =>
      if decide (candidate ∈ taken)
      then resolve fuel' taken base (S idx) (suffixed base (S idx))
      else Some candidate
  end.

Section SafeFilename.

(** The two [unicodedata] lines: [normalize("NFKD", title)] with the
    combining characters removed. The result is read through the class
    [[A-Za-z0-9]] only. *)
Variable nfkd_no_combining : string -> string.

(** [re.sub(...).strip("_") or "page"] *)
Definition slug_base (title : string) : string :=
  let txt := Str.strip_by (Ascii.eqb "_") (sub_non_alnum false (nfkd_no_combining title)) in
  if Str.is_empty txt then "page" else txt.

(** [safe_filename(title, taken, ext)] with the loop bounded by [fuel]:
    the file name returned and the set [taken] as the call leaves it. *)
Definition safe_filename_fuel (fuel : nat) (title : string) (taken : gset string)
    (ext : string) : option (string * gset string) :=
  let base := slug_base title in
  match resolve fuel taken base 1 base with
  | Some candidate => Some (candidate +:+ ext, {[candidate]} ∪ taken)
  | None => None
  end.

(** One test more than [taken] has names always suffices, see
    [resolve_terminates]. *)
Definition safe_filename (title : string) (taken : gset string) (ext : string)
  : option (string * gset string) :=
  safe_filename_fuel (S (size taken)) title taken ext.

End SafeFilename.

(** ** [normalize_categories] *)

(** [list(dict.fromkeys(l))]: a key already in the dict keeps its place. *)
Definition setdefault_key (d : list string) (k : string) : list string :=
  if bool_decide (k ∈ d) then d else d ++ [k].

Definition fromkeys (l : list string) : list string :=
  fold_left setdefault_key l [].

(** [str(c).replace("Category:", "").strip()] *)
Definition clean_category (c : pyval) : string :=
  Str.strip (Str.replace "Category:" "" (Repr.str c)).

Section Categories.

(** [json.loads]; [None] when it raises. *)
Variable json_loads : string -> option pyval.

(** The [if isinstance(raw, str):] block. *)
Definition decode_raw (raw : pyval) : pyval :=
  match raw with
  | PStr s =>
      match json_loads s with
      | Some v => v
      | None => PList (List.map PStr (Str.split_char "," s))
      end
  | _ => raw
  end.

Definition normalize_categories (raw : pyval) : result (list string) :=
  let* items := Repr.iterate (decode_raw raw) in
  let cleaned :=
    omap (fun c => let s := clean_category c in
                   if Str.is_empty s then None else Some s) items in
  Return (fromkeys cleaned).

End Categories.

(** ** [clean_pagecontent] *)

Definition BANNED_SECTIONS : list string :=
  ["contents"; "videos"; "sources"; "gallery"; "bibliography"].
Definition INCLUDE_HEADINGS : bool := true.

Definition lt : ascii := "<"%char.
Definition gt : ascii := ">"%char.
Definition is_nl (c : ascii) : bool := (Str.code c =? 10)%N.

(** [re.sub(r"<tag[\s\S]*?</tag>", "", html, flags=re.I)], with
    [open = "<tag"] and [close = "</tag>"]: from an opening to the first
    closing after it; an opening with no closing after it stays. *)
Fixpoint remove_blocks_go (open close : string) (skip : nat) (s : string) : string :=
  match s with
  | EmptyString => EmptyString
  | String c s' =>
      match skip with
      | S k => remove_blocks_go open close k s'
      | O =>
          if Str.prefix_ci open s then
            match Str.find_ci close (Str.drop (String.length open) s) with
            | Some k =>
                remove_blocks_go open close
                  (String.length open + k + String.length close - 1) s'
            | None => String c (remove_blocks_go open close 0 s')
            end
          else String c (remove_blocks_go open close 0 s')
      end
  end.

Definition remove_blocks (tag : string) (html : string) : string :=
  remove_blocks_go ("<" +:+ tag) ("</" +:+ tag +:+ ">") 0 html.

(** The position after a word character is a boundary [\b] when no word
    character follows. *)
Definition boundary (s : string) : bool :=
  match s with
  | EmptyString => true
  | String c _ => negb (Str.is_word c)
  end.

(** [h2\b] up to case *)
Definition h2_word (s : string) : bool :=
  Str.prefix_ci "h2" s && boundary (Str.drop 2 s).

(** The lookahead [/?h2\b] *)
Definition h2_ahead (s : string) : bool :=
  match s with
  | String "/" s' => h2_word s' || h2_word s
  | _ => h2_word s
  end.

(** [re.sub(r"<(?!/?h2\b)[^>]*>", "", html, flags=re.I)] *)
Fixpoint keep_h2_only_go (skip : nat) (s : string) : string :=
  match s with
  | EmptyString => EmptyString
  | String c s' =>
      match skip with
      | S k => keep_h2_only_go k s'
      | O =>
          if Ascii.eqb c lt && negb (h2_ahead s') then
            match Str.find_char gt s' with
            | Some j => keep_h2_only_go (S j) s'
            | None => String c (keep_h2_only_go 0 s')
            end
          else String c (keep_h2_only_go 0 s')
      end
  end.

Definition keep_h2_only (html : string) : string := keep_h2_only_go 0 html.

(** [re.sub(r"<[^>]+>", "", s)] *)
Fixpoint strip_tags_go (skip : nat) (s : string) : string :=
  match s with
  | EmptyString => EmptyString
  | String c s' =>
      match skip with
      | S k => strip_tags_go k s'
      | O =>
          if Ascii.eqb c lt then
            match Str.find_char gt s' with
            | Some (S j) => strip_tags_go (S (S j)) s'
            | _ => String c (strip_tags_go 0 s')
            end
          else String c (strip_tags_go 0 s')
      end
  end.

Definition strip_tags (s : string) : string := strip_tags_go 0 s.

(** [re.sub(r"[ \t]+", " ", s)] *)
Definition is_blank (c : ascii) : bool :=
  (Str.code c =? 32)%N || (Str.code c =? 9)%N.

Fixpoint collapse_blanks (in_run : bool) (s : string) : string :=
  match s with
  | EmptyString => EmptyString
  | String c s' =>
      if is_blank c then
        if in_run then collapse_blanks true s' else String " " (collapse_blanks true s')
      else String c (collapse_blanks false s')
  end.

(** The white space a string starts with. *)
Fixpoint space_run (s : string) : string :=
  match s with
  | EmptyString => EmptyString
  | String c s' => if Str.isspace c then String c (space_run s') else EmptyString
  end.

Fixpoint count_nl (s : string) : nat :=
  match s with
  | EmptyString => O
  | String c s' => (if is_nl c then 1 else 0) + count_nl s'
  end.

(** Length of the prefix that ends with the last newline; 0 without one. *)
Fixpoint through_last_nl (s : string) : nat :=
  match s with
  | EmptyString => O
  | String c s' =>
      match through_last_nl s' with
      | O => if is_nl c then 1 else 0
      | S n => S (S n)
      end
  end.

(** [re.sub(r"\n\s*\n\s*\n+", "\n\n", s)]: a match starts at a newline and
    runs through the last newline of the white space around it, which has
    to hold three newlines at least. *)
Fixpoint squash_blank_lines_go (skip : nat) (s : string) : string :=
  match s with
  | EmptyString => EmptyString
  | String c s' =>
      match skip with
      | S k => squash_blank_lines_go k s'
      | O =>
          if is_nl c && (3 <=? count_nl (space_run s))%nat then
            Str.nl +:+ Str.nl +:+ squash_blank_lines_go (through_last_nl (space_run s) - 1) s'
          else String c (squash_blank_lines_go 0 s')
      end
  end.

Definition squash_blank_lines (s : string) : string := squash_blank_lines_go 0 s.

(** The inner [clean_text(s)] of [clean_pagecontent]. *)
Definition clean_text (s : string) : string :=
  let s := strip_tags s in
  let s := Str.replace_ci "&nbsp;" " " s in
  let s := collapse_blanks false s in
  let s := squash_blank_lines s in
  Str.strip s.

(** [re.sub(r"\n{3,}", "\n\n", s)] *)
Fixpoint nl_run (s : string) : nat :=
  match s with
  | EmptyString => O
  | String c s' => if is_nl c then S (nl_run s') else O
  end.

Fixpoint collapse_newlines_go (skip : nat) (s : string) : string :=
  match s with
  | EmptyString => EmptyString
  | String c s' =>
      match skip with
      | S k => collapse_newlines_go k s'
      | O =>
          if (3 <=? nl_run s)%nat
          then Str.nl +:+ Str.nl +:+ collapse_newlines_go (nl_run s - 1) s'
          else String c (collapse_newlines_go 0 s')
      end
  end.

Definition collapse_newlines (s : string) : string := collapse_newlines_go 0 s.

(** [<h2\b] up to case, at the start of [s] *)
Definition at_h2 (s : string) : bool :=
  Str.prefix_ci "<h2" s && boundary (Str.drop 3 s).

(** [re.search(r"<h2\b", s, flags=re.I)] *)
Definition search_h2 (s : string) : bool :=
  bool_decide (is_Some (Str.find_from at_h2 0 s)).

(** One match of [header_re]. *)
Record header : Type := {
  title_html : string;
  h_start : nat;
  h_end : nat
}.

(** [header_re = <h2[^>]*>(.*?)</h2>] with [re.I | re.S] at the start of
    [s]: the inner text (group 1) and the length of the match. The tag ends
    at the first [>], the match at the first [</h2>] after that. *)
Definition match_header (s : string) : option (string * nat) :=
  if Str.prefix_ci "<h2" s then
    let after := Str.drop 3 s in
    match Str.find_char gt after with
    | Some j =>
        let rest := Str.drop (S j) after in
        match Str.find_ci "</h2>" rest with
        | Some k => Some (Str.take k rest, (3 + S j + k + 5)%nat)
        | None => None
        end
    | None => None
    end
  else None.

(** [header_re.finditer(h_only)]; [pos] is the position of [s] in the
    whole string. *)
Fixpoint finditer_go (pos skip : nat) (s : string) : list header :=
  match s with
  | EmptyString => []
  | String c s' =>
      match skip with
      | S k => finditer_go (S pos) k s'
      | O =>
          match match_header s with
          | Some (inner, len) =>
              {| title_html := inner; h_start := pos; h_end := (pos + len)%nat |}
                :: finditer_go (S pos) (len - 1) s'
          | None => finditer_go (S pos) 0 s'
          end
      end
  end.

Definition finditer (h_only : string) : list header := finditer_go 0 0 h_only.

(** [re.sub(r"\[\]$", "", title)]: [$] is the end of the string or the
    place before a newline that ends it. *)
Fixpoint drop_trailing_brackets (s : string) : string :=
  if String.eqb s "[]" then EmptyString
  else if String.eqb s ("[]" +:+ Str.nl) then Str.nl
  else match s with
       | EmptyString => EmptyString
       | String c s' => String c (drop_trailing_brackets s')
       end.

(** The title of a section as the loop cleans it, and its key. *)
Definition section_title (title_html : string) : string :=
  Str.strip (drop_trailing_brackets (strip_tags title_html)).

Definition section_key (title_html : string) : string :=
  Str.lower (section_title title_html).

(** [key.split()[0] if key else ""] *)
Definition first_word (key : string) : result string :=
  if Str.is_empty key then Return ""
  else match Str.words key with
       | w :: _ => Return w
       | [] => Raise IndexError
       end.

Definition banned (name : string) : bool :=
  existsb (String.eqb name) BANNED_SECTIONS.

(** One round of [for i, h in enumerate(headers):] for a header with its
    inner title text and the markup up to the next header: what the round
    appends to [parts], [None] when it ends in [continue]. *)
Definition section_part (title_html body_html : string) : result (option string) :=
  let title := section_title title_html in
  let key := Str.lower title in
  let body := clean_text body_html in
  if Str.is_empty body then Return None
  else
    let* first := first_word key in
    if banned key || banned first then Return None
    else if INCLUDE_HEADINGS && negb (Str.is_empty title) && negb (String.eqb key "intro")
    then Return (Some ("## " +:+ title +:+ Str.nl +:+ Str.nl +:+ body))
    else Return (Some body).

(** The loop over the headers, each with the start of the next one. *)
Fixpoint section_parts (h_only : string) (headers : list header) : result (list string) :=
  match headers with
  | [] => Return []
  | h :: rest =>
      let next_start :=
        match rest with
        | h' :: _ => h_start h'
        | [] => String.length h_only
        end in
      let* part := section_part (title_html h) (Str.slice (h_end h) next_start h_only) in
      let* parts := section_parts h_only rest in
      Return (option_list part ++ parts)
  end.

(** The three [replace] calls that undo the escaping. *)
Definition unescape (html : string) : string :=
  Str.replace ("\n") Str.nl
    (Str.replace ("\" +:+ Str.dquote) Str.dquote
       (Str.replace "\\" "\" html)).

(** [clean_pagecontent] from the markup on. *)
Definition clean_html (html : string) : result string :=
  let html := unescape html in
  let html := remove_blocks "script" html in
  let html := remove_blocks "noscript" html in
  let html := remove_blocks "style" html in
  let html := remove_blocks "figure" html in
  let h_only := keep_h2_only html in
  if negb (search_h2 h_only) then Return (clean_text h_only)
  else
    let h_only :=
      if negb (at_h2 h_only) && negb (Str.is_empty (Str.strip h_only))
      then "<h2>Intro</h2>" +:+ h_only else h_only in
    let* parts := section_parts h_only (finditer h_only) in
    Return (Str.strip (collapse_newlines (Str.join (Str.nl +:+ Str.nl) parts))).

(** [clean_pagecontent(parse)]: [html = str(parse.get("text") or "")]. *)
Definition clean_pagecontent (parse : pyval) : result string :=
  let* text := get parse "text" in
  clean_html (Repr.str (py_or text (PStr ""))).

(** ** [write_doc] *)

Record PageOutput : Type := {
  title : string;
  fullurl : string;
  categories : list string;
  pagecontent : string
}.

(** The front matter lines of [write_doc]. *)
Definition doc_header (page : PageOutput) : list string :=
  ["---"; "title: " +:+ Str.dquote +:+ title page +:+ Str.dquote; "categories:"]
    ++ List.map (fun c => "  - " +:+ c) (categories page) ++ ["---"].

(** The body [write_doc] puts after the front matter. *)
Definition doc_body (page : PageOutput) : string := pagecontent page +:+ Str.nl.

(** What [write_doc] writes: [content]. *)
Definition doc_content (page : PageOutput) : string :=
  Str.join Str.nl (doc_header page) +:+ Str.nl +:+ Str.nl +:+ doc_body page.

Section WriteDoc.

Variable nfkd_no_combining : string -> string.

(** [write_doc(out_dir, page, taken)]: the file name, what is written to
    it, and [taken] afterwards. *)
Definition write_doc (page : PageOutput) (taken : gset string)
  : option (string * string * gset string) :=
  match safe_filename nfkd_no_combining (title page) taken ".md" with
  | Some (fname, taken') => Some (fname, doc_content page, taken')
  | None => None
  end.

End WriteDoc.

End UrlSplit.

(* ===================================================================== *)
(** * [get_urls.py]: the pagination crawler *)
(* ===================================================================== *)

Module GetUrls.

(** The parameters of a request: a dict with string keys. *)
Definition base_params (gaplimit namespace : Z) : gmap string pyval :=
  list_to_map
    [("action", PStr "query"); ("format", PStr "json"); ("formatversion", PStr "2");
     ("generator", PStr "allpages"); ("gaplimit", PInt gaplimit); ("prop", PStr "info");
     ("inprop", PStr "url"); ("gapnamespace", PInt namespace)].

(** [{**params, **cont}]: the keys of [cont] win. [TypeError] when [cont]
    is not a mapping. *)
Definition merge (params : gmap string pyval) (cont : pyval)
  : result (gmap string pyval) :=
  match cont with
  | PDict kvs => Return (list_to_map kvs ∪ params)
  | _ => Raise TypeError
  end.

(** What the generator does, in order. *)
Inductive gen_event : Type :=
| Request (params : gmap string pyval)   (* session.get(api, params=..., timeout=30) *)
| SleepAfterFailure                      (* time.sleep(1.5) *)
| Yield (p : pyval)                      (* yield p *)
| SleepGentle.                           (* time.sleep(0.1) *)

(** How the run over a list of responses ends: the loop reached [break];
    an exception left the generator; the loop asks for a response the list
    does not hold, with [cont] as it stands; or [cont] is not a mapping,
    so that every further round fails before a request is made and the
    loop goes on for ever. *)
Inductive ending : Type :=
| Finished
| Crashed (e : exn)
| Pending (cont : pyval)
| Stalled.

(** The pages [if "query" in data and "pages" in data["query"]:] lets the
    [for] loop run through; no pages when the condition is false. *)
Definition pages_of (data : pyval) : result (list pyval) :=
  let* has_query := contains "query" data in
  if (has_query : bool) then
    let* query := getitem data "query" in
    let* has_pages := contains "pages" query in
    if (has_pages : bool) then
      let* pages := getitem query "pages" in
      Repr.iterate pages
    else Return []
  else Return [].

(** The [while True:] loop over the responses still to come; a response is
    what the [try] block leaves in [data], or the exception it raised. *)
Fixpoint page_generator_go (params : gmap string pyval) (cont : pyval)
    (responses : list (result pyval)) : list gen_event * ending :=
  match merge params cont with
  | inl _ => ([], Stalled)
  | inr request =>
      match responses with
      | [] => ([], Pending cont)
      | inl _ :: rest =>
          let '(evs, e) := page_generator_go params cont rest in
          (Request request :: SleepAfterFailure :: evs, e)
      | inr data :: rest =>
          match pages_of data with
          | inl e => ([Request request], Crashed e)
          | inr pages =>
              match contains "continue" data with
              | inl e => (Request request :: List.map Yield pages, Crashed e)
              | inr true =>
                  match getitem data "continue" with
                  | inl e => (Request request :: List.map Yield pages, Crashed e)
                  | inr cont' =>
                      let '(evs, e) := page_generator_go params cont' rest in
                      (Request request :: List.map Yield pages ++ SleepGentle :: evs, e)
                  end
              | inr false => (Request request :: List.map Yield pages, Finished)
              end
          end
      end
  end.

Definition page_generator (gaplimit namespace : Z) (responses : list (result pyval))
  : list gen_event * ending :=
  page_generator_go (base_params gaplimit namespace) (PDict []) responses.


Definition yields (evs : list gen_event) : list pyval :=
  omap (fun ev => match ev with Yield p => Some p | _ => None end) evs.

End GetUrls.

(* ===================================================================== *)
(** * More of the fetch scripts: identifiers, paths, the final tidying *)
(* ===================================================================== *)

Module FetchIO.

Import Fetch.

(** ** [coerce_int] *)

Definition is_digit (c : ascii) : bool :=
  let n := Str.code c in ((48 <=? n) && (n <=? 57))%N.

Definition digit_value (c : ascii) : Z := Z.of_N (Str.code c) - 48.

(** The white space [int()] skips around a number: the blanks of C and,
    beyond ASCII, NEL and NBSP. *)
Definition int_space (c : ascii) : bool :=
  let n := Str.code c in
  ((9 <=? n) && (n <=? 13) || (n =? 32) || (n =? 133) || (n =? 160))%N.

Fixpoint all_chars (p : ascii -> bool) (s : string) : bool :=
  match s with
  | EmptyString => true
  | String c s' => p c && all_chars p s'
  end.

(** The digits of a decimal literal after its first digit, with the value
    read so far: digits, single underscores between digits, then white
    space to the end. [None] for anything else. *)
Fixpoint int_digits (acc : Z) (s : string) : option Z :=
  match s with
  | EmptyString => Some acc
  | String c s' =>
      if is_digit c then int_digits (acc * 10 + digit_value c) s'
      else if Ascii.eqb c "_" then
        match s' with
        | String d _ => if is_digit d then int_digits acc s' else None
        | EmptyString => None
        end
      else if all_chars int_space s then Some acc
      else None
  end.

(** The longest decimal literal [int] converts (the default of
    [sys.set_int_max_str_digits]); a longer one is a [ValueError]. *)
Definition max_str_digits : nat := 4300.

Fixpoint count_digits (s : string) : nat :=
  match s with
  | EmptyString => O
  | String c s' => (if is_digit c then 1 else 0) + count_digits s'
  end.

(** An unsigned literal: it starts with a digit. *)
Definition int_unsigned (s : string) : option Z :=
  match s with
  | String c _ =>
      if is_digit c && (count_digits s <=? max_str_digits)%nat
      then int_digits 0 s else None
  | EmptyString => None
  end.

(** [int(s)] for a string [s]; [None] for [ValueError]. *)
Definition py_int (s : string) : option Z :=
  match Str.lstrip_by int_space s with
  | String "-" s' => Z.opp <$> int_unsigned s'
  | String "+" s' => int_unsigned s'
  | s' => int_unsigned s'
  end.

(** [re.search(r'\d+', s)] and [m.group(0)]: the first run of digits. *)
Fixpoint leading_digits (s : string) : string :=
  match s with
  | String c s' => if is_digit c then String c (leading_digits s') else EmptyString
  | EmptyString => EmptyString
  end.

Fixpoint first_digits (s : string) : option string :=
  match s with
  | EmptyString => None
  | String c s' => if is_digit c then Some (leading_digits s) else first_digits s'
  end.

(** [coerce_int(s)], on the text [str(s)]. The [int] of the handler is
    outside the [try]: its [ValueError] leaves the function as well. *)
Definition coerce_int (s : string) : result Z :=
  let unquoted :=
    Str.strip_by (Ascii.eqb "'") (Str.strip_by (Ascii.eqb (Str.chr 34)) (Str.strip s)) in
  match py_int unquoted with
  | Some z => Return z
  | None =>
      match first_digits s with
      | Some run =>
          match py_int run with
          | Some z => Return z
          | None => Raise ValueError
          end
      | None => Raise ValueError
      end
  end.

(** ** The path of [write_markdown] *)

Definition OUT_DIR : string := "out/pages".

Section Path.

(** [slugify] of the python-slugify package. *)
Variable slugify : string -> string.

(** [slugify(title or f"page-{page_id}")[:100]] *)
Definition slug (page_id : Z) (title : string) : string :=
  Str.take 100
    (slugify (if Str.is_empty title then "page-" +:+ Str.of_Z page_id else title)).

(** [os.path.join(OUT_DIR, f"{page_id}--{slug}.md")] *)
Definition markdown_path (page_id : Z) (title : string) : string :=
  OUT_DIR +:+ "/" +:+ Str.of_Z page_id +:+ "--" +:+ slug page_id title +:+ ".md".

End Path.

(** ** [html_to_markdown] *)

(** The last three lines of [html_to_markdown]: every line without its
    trailing white space, the lines joined by newlines, the whole stripped
    and ended by one newline. *)
Definition tidy (md : string) : string :=
  Str.strip (Str.join Str.nl (List.map Str.rstrip (Str.splitlines md))) +:+ Str.nl.

Section HtmlToMarkdown.

(** The children of the document body as BeautifulSoup parses them and
    [remove_noise] and [flatten_links] leave them. *)
Variable body_children : string -> list node.
Variable get_text : node -> string.

Definition html_to_markdown (html : string) : string :=
  tidy (Str.concat (List.map (node_to_markdown get_text) (body_children html))).

End HtmlToMarkdown.

End FetchIO.

(* ===================================================================== *)
(** * More of [url_split.py]: reading the table, fetching, the driver *)
(* ===================================================================== *)

Module UrlSplitDriver.

Import UrlSplit.

(** What the [try] block of [process] can end with: an exception of a
    library or of the interpreter, or [RuntimeError(data["error"])]. *)
Inductive page_error : Type :=
| Raised (e : exn)
| ApiReported (err : pyval).

Definition outcome (A : Type) : Type := (page_error + A)%type.

Definition lift {A} (r : result A) : outcome A :=
  match r with
  | inl e => inl (Raised e)
  | inr a => inr a
  end.

(** [fetch_parse], from what the request, [raise_for_status] and
    [r.json()] leave: the decoded body or the exception they raise. *)
Definition fetch_parse (response : result pyval) : outcome pyval :=
  match response with
  | inl e => inl (Raised e)
  | inr data =>
      match contains "error" data with
      | inl e => inl (Raised e)
      | inr true =>
          match getitem data "error" with
          | inl e => inl (Raised e)
          | inr err => inl (ApiReported err)
          end
      | inr false => lift (getitem data "parse")
      end
  end.

Record PageInput : Type := {
  page_id : string;
  in_title : string;
  in_fullurl : string;
  in_categories : list string
}.

(** A Python dict as the list of its items, in the order the keys were
    first set. [dict_get] is [d.get(k)], [dict_set] is [d[k] = v]: the value
    of a key already there is replaced where it stands. *)
Fixpoint dict_get {K V} (eqb : K -> K -> bool) (k : K) (d : list (K * V)) : option V :=
  match d with
  | [] => None
  | (k', v) :: rest => if eqb k k' then Some v else dict_get eqb k rest
  end.

Fixpoint dict_set {K V} (eqb : K -> K -> bool) (k : K) (v : V) (d : list (K * V))
  : list (K * V) :=
  match d with
  | [] => [(k, v)]
  | (k', v') :: rest =>
      if eqb k k' then (k', v) :: rest else (k', v') :: dict_set eqb k v rest
  end.

(** A value of a row of [csv.DictReader]: the text of a field, [None] for
    a field the record is short of, or the list of the fields the record
    has beyond the header, which the reader files under the key [None]. *)
Inductive field : Type :=
| Text (s : string)
| Missing
| Surplus (l : list string).

Definition key_eqb (a b : option string) : bool :=
  match a, b with
  | Some x, Some y => String.eqb x y
  | None, None => true
  | _, _ => false
  end.

(** The row [csv.DictReader] makes of a record ([restkey] and [restval]
    are [None]): every field name, in order, is set to the field at its
    place, or to [None] where the record is short; fields beyond the
    names go, as a list, under the key [None]. *)
Definition dict_row (fieldnames row : list string) : list (option string * field) :=
  let fields := List.map Text row ++ List.repeat Missing (length fieldnames - length row) in
  let d :=
    fold_left (fun d kv => dict_set key_eqb (Some (fst kv)) (snd kv) d)
      (combine fieldnames fields) [] in
  if (length fieldnames <? length row)%nat
  then dict_set key_eqb None (Surplus (List.skipn (length fieldnames) row)) d
  else d.

(** [k.strip().lower() if k else ""] *)
Definition clean_key (k : option string) : string :=
  match k with
  | Some k => if Str.is_empty k then "" else Str.lower (Str.strip k)
  | None => ""
  end.

(** [v.strip() if v else ""]: a list has no [strip]. *)
Definition clean_value (v : field) : result string :=
  match v with
  | Text s => Return (if Str.is_empty s then "" else Str.strip s)
  | Missing => Return ""
  | Surplus [] => Return ""
  | Surplus (_ :: _) => Raise AttributeError
  end.

(** The dict comprehension [clean_row], over [row.items()], with the dict
    built so far. *)
Fixpoint clean_row_go (items : list (option string * field)) (d : list (string * string))
  : result (list (string * string)) :=
  match items with
  | [] => Return d
  | (k, v) :: rest =>
      let* v' := clean_value v in
      clean_row_go rest (dict_set String.eqb (clean_key k) v' d)
  end.

Definition clean_row (row : list (option string * field)) : result (list (string * string)) :=
  clean_row_go row [].

(** [clean_row.get(k, "")] *)
Definition cell (k : string) (d : list (string * string)) : string :=
  default "" (dict_get String.eqb k d).

Section Reader.

Variable json_loads : string -> option pyval.

(** One round of the loop of [read_pages], for a row as [csv.DictReader]
    gives it. *)
Definition read_page (row : list (option string * field)) : result PageInput :=
  let* items := clean_row row in
  let* categories := normalize_categories json_loads (PStr (cell "categories" items)) in
  Return {| page_id := cell "page_id" items; in_title := cell "title" items;
            in_fullurl := cell "fullurl" items; in_categories := categories |}.

(** The [for row in reader:] loop: an exception in one row leaves the
    function. *)
Fixpoint read_rows (fieldnames : list string) (rows : list (list string))
  : result (list PageInput) :=
  match rows with
  | [] => Return []
  | row :: rest =>
      let* page := read_page (dict_row fieldnames row) in
      let* pages := read_rows fieldnames rest in
      Return (page :: pages)
  end.

Definition is_blank_record (record : list string) : bool :=
  match record with [] => true | _ => false end.

(** [read_pages], from the records [csv.reader] reads off the file, a
    blank line being the empty record. The first record holds the field
    names; in an empty file there is none, [reader.fieldnames] is [None]
    and the comprehension over it raises [TypeError]. The reader passes
    over the blank records that follow. *)
Definition read_pages (records : list (list string)) : result (list PageInput) :=
  match records with
  | [] => Raise TypeError
  | header :: rest =>
      let fieldnames := List.map (fun fn => Str.lower (Str.strip fn)) header in
      read_rows fieldnames (List.filter (fun r => negb (is_blank_record r)) rest)
  end.

End Reader.

(** What [process] does for a page. *)
Inductive report : Type :=
| WroteFile (fname content : string)      (* path.write_text(content), "wrote" *)
| PageError (fullurl : string) (e : page_error).   (* print(f"  ! ERROR {p.fullurl}: {e}") *)

(** The environment of a run: what the request for the page at a position
    gives, and whether making the directory or writing the file raises
    for it. *)
Record site : Type := {
  response : nat -> result pyval;
  mkdir_error : nat -> option exn;
  write_error : nat -> option exn
}.

Section Process.

Variable json_loads : string -> option pyval.
Variable nfkd_no_combining : string -> string.

Variable w : site.

(** The body of the [try:] for the page at position [idx], with [taken]
    as the call of [safe_filename] leaves it. *)
Definition process_page (idx : nat) (p : PageInput) (taken : gset string)
  : outcome (string * string) * gset string :=
  match fetch_parse (response w idx) with
  | inl e => (inl e, taken)
  | inr parsed =>
      match clean_pagecontent parsed with
      | inl e => (inl (Raised e), taken)
      | inr cleaned =>
          let out := {| title := Str.strip (in_title p); fullurl := Str.strip (in_fullurl p);
                        categories := in_categories p; pagecontent := cleaned |} in
          match mkdir_error w idx with
          | Some e => (inl (Raised e), taken)
          | None =>
              match write_doc nfkd_no_combining out taken with
              | None => (inl (Raised (LibraryError "safe_filename")), taken)
                  (* does not occur: the loop of [safe_filename] ends *)
              | Some (fname, content, taken') =>
                  match write_error w idx with
                  | Some e => (inl (Raised e), taken')
                  | None => (inr (fname, content), taken')
                  end
              end
          end
      end
  end.

(** [for i, p in enumerate(pages, start=1): ...] *)
Fixpoint process_loop (idx : nat) (pages : list PageInput) (taken : gset string)
  : list report * gset string :=
  match pages with
  | [] => ([], taken)
  | p :: rest =>
      let '(r, taken') := process_page idx p taken in
      let '(reports, final) := process_loop (S idx) rest taken' in
      (match r with
       | inr (fname, content) => WroteFile fname content
       | inl e => PageError (in_fullurl p) e
       end :: reports, final)
  end.

(** [process]: the pages are read first, [taken] starts empty. *)
Definition process (records : list (list string)) : result (list report) :=
  let* pages := read_pages json_loads records in
  Return (fst (process_loop 1 pages ∅)).

End Process.

Definition written (reports : list report) : list string :=
  omap (fun r => match r with WroteFile fname _ => Some fname | _ => None end) reports.

End UrlSplitDriver.

(* ===================================================================== *)
(** * Properties of the fetch client *)
(* ===================================================================== *)

Module FetchFacts.

Import Fetch.

(** ** Backoff *)

(** Each sleep is the double of the one before, with or without the cap. *)
Fixpoint doubling (b : Z) (l : list Z) : Prop :=
  match l with
  | [] => True
  | x :: l' => x = b /\ (doubling (b * 2) l' \/ doubling (Z.min (b * 2) 60) l')
  end.

Lemma backoffs_cons_get a tr : backoffs (Get a :: tr) = backoffs tr.
Proof. reflexivity. Qed.

Lemma backoffs_cons_sleep b j tr : backoffs (Sleep b j :: tr) = b :: backoffs tr.
Proof. reflexivity. Qed.

Lemma gets_cons_get a tr : gets (Get a :: tr) = a :: gets tr.
Proof. reflexivity. Qed.

Lemma gets_cons_sleep b j tr : gets (Sleep b j :: tr) = gets tr.
Proof. reflexivity. Qed.

Lemma attempts_cons w a rest b :
  attempts w (a :: rest) b =
  let handler (e : exn) : list event * result pyval :=
    if is_request_exception e then
      (Sleep b None :: fst (attempts w rest (Z.min (b * 2) 60)),
       snd (attempts w rest (Z.min (b * 2) 60)))
    else if Nat.eqb a MAX_RETRIES then ([Sleep b None], Raise e)
    else (Sleep b None :: fst (attempts w rest (Z.min (b * 2) 60)),
          snd (attempts w rest (Z.min (b * 2) 60))) in
  let step :=
    match outcome w a with
    | GetRaises e => handler e
    | Response status_code json =>
        if status_retry status_code then
          (Sleep b None :: fst (attempts w rest (b * 2)), snd (attempts w rest (b * 2)))
        else
          match json with
          | inl e => handler e
          | inr data =>
              match is_maxlag data with
              | inl e => handler e
              | inr true =>
                  (Sleep b (Some (uniform w a)) :: fst (attempts w rest (Z.min (b * 2) 60)),
                   snd (attempts w rest (Z.min (b * 2) 60)))
              | inr false => ([], Return data)
              end
          end
    end in
  (Get a :: fst step, snd step).
Proof.
  cbn [attempts]. cbv zeta.
  destruct (attempts w rest (Z.min (b * 2) 60)) as [tr1 r1].
  destruct (attempts w rest (b * 2)) as [tr2 r2].
  destruct (outcome w a) as [e | st [e | data]]; cbn [fst snd].
  - destruct (is_request_exception e), (Nat.eqb a MAX_RETRIES); reflexivity.
  - destruct (status_retry st); [reflexivity |].
    destruct (is_request_exception e), (Nat.eqb a MAX_RETRIES); reflexivity.
  - destruct (status_retry st); [reflexivity |].
    destruct (is_maxlag data) as [e | [|]]; [| reflexivity | reflexivity].
    destruct (is_request_exception e), (Nat.eqb a MAX_RETRIES); reflexivity.
Qed.

(** The classes of an attempt's outcome the loop tells apart. *)
Inductive verdict : Type :=
| Final (data : pyval)          (* return data *)
| HttpRetry                     (* 429 or 5xx *)
| MaxlagRetry                   (* error code maxlag *)
| RequestFailure                (* except requests.RequestException *)
| OtherFailure (e : exn).       (* except Exception *)

Definition failure_verdict (e : exn) : verdict :=
  if is_request_exception e then RequestFailure else OtherFailure e.

Definition classify (o : attempt_outcome) : verdict :=
  match o with
  | GetRaises e => failure_verdict e
  | Response status_code json =>
      if status_retry status_code then HttpRetry
      else match json with
           | inl e => failure_verdict e
           | inr data =>
               match is_maxlag data with
               | inl e => failure_verdict e
               | inr true => MaxlagRetry
               | inr false => Final data
               end
           end
  end.

(** The loop, read through [classify]. *)
Lemma attempts_classify w a rest b :
  attempts w (a :: rest) b =
  match classify (outcome w a) with
  | Final data => ([Get a], Return data)
  | HttpRetry =>
      (Get a :: Sleep b None :: fst (attempts w rest (b * 2)),
       snd (attempts w rest (b * 2)))
  | MaxlagRetry =>
      (Get a :: Sleep b (Some (uniform w a)) :: fst (attempts w rest (Z.min (b * 2) 60)),
       snd (attempts w rest (Z.min (b * 2) 60)))
  | RequestFailure =>
      (Get a :: Sleep b None :: fst (attempts w rest (Z.min (b * 2) 60)),
       snd (attempts w rest (Z.min (b * 2) 60)))
  | OtherFailure e =>
      if Nat.eqb a MAX_RETRIES then ([Get a; Sleep b None], Raise e)
      else (Get a :: Sleep b None :: fst (attempts w rest (Z.min (b * 2) 60)),
            snd (attempts w rest (Z.min (b * 2) 60)))
  end.
Proof.
  rewrite attempts_cons. cbv zeta. unfold classify, failure_verdict.
  destruct (outcome w a) as [e | st [e | data]].
  - destruct (is_request_exception e); [reflexivity |].
    destruct (Nat.eqb a MAX_RETRIES); reflexivity.
  - destruct (status_retry st); [reflexivity |].
    destruct (is_request_exception e); [reflexivity |].
    destruct (Nat.eqb a MAX_RETRIES); reflexivity.
  - destruct (status_retry st); [reflexivity |].
    destruct (is_maxlag data) as [e | [|]]; [| reflexivity | reflexivity].
    destruct (is_request_exception e); [reflexivity |].
    destruct (Nat.eqb a MAX_RETRIES); reflexivity.
Qed.

Lemma attempts_doubling w todo : forall b, doubling b (backoffs (fst (attempts w todo b))).
Proof.
  induction todo as [| a rest IH]; intros b; [exact I |].
  rewrite attempts_classify.
  destruct (classify (outcome w a)) as [data | | | | e]; cbn [fst];
    rewrite ?backoffs_cons_get, ?backoffs_cons_sleep.
  - exact I.
  - split; [reflexivity | left; apply IH].
  - split; [reflexivity | right; apply IH].
  - split; [reflexivity | right; apply IH].
  - destruct (Nat.eqb a MAX_RETRIES); cbn [fst];
      rewrite ?backoffs_cons_get, ?backoffs_cons_sleep.
    + split; [reflexivity | left; exact I].
    + split; [reflexivity | right; apply IH].
Qed.

Lemma backoffs_length w todo : forall b,
  (length (backoffs (fst (attempts w todo b))) <= length todo)%nat.
Proof.
  induction todo as [| a rest IH]; intros b; [reflexivity |].
  rewrite attempts_classify.
  destruct (classify (outcome w a)) as [data | | | | e]; cbn [fst];
    rewrite ?backoffs_cons_get, ?backoffs_cons_sleep; cbn [length];
    try (specialize (IH (b * 2)); lia);
    try (specialize (IH (Z.min (b * 2) 60)); lia).
  - cbn. lia.
  - destruct (Nat.eqb a MAX_RETRIES); cbn [fst];
      rewrite ?backoffs_cons_get, ?backoffs_cons_sleep; cbn [length].
    + cbn. lia.
    + specialize (IH (Z.min (b * 2) 60)); lia.
Qed.

Ltac split_doubling :=
  repeat match goal with
         | H : doubling _ (_ :: _) |- _ => destruct H as [-> H]
         | H : doubling _ _ \/ doubling _ _ |- _ => destruct H as [H | H]
         | H : doubling _ [] |- _ => clear H
         end.

Lemma doubling_shape l :
  doubling 2 l -> (length l <= 6)%nat ->
  exists sixth, (sixth = 60 \/ sixth = 64) /\ l `prefix_of` [2; 4; 8; 16; 32; sixth].
Proof.
  intros D L.
  do 6 (destruct l as [| ? l];
        [ exists 60; split; [by left |]; split_doubling; by eexists |]).
  destruct l; [| cbn in L; lia].
  split_doubling.
  all: first [ exists 60; split; [by left |]; exists []; reflexivity
             | exists 64; split; [by right |]; exists []; reflexivity ].
Qed.

(** X1: whatever the outcomes are, the backoffs a call sleeps are an
    initial part of 2, 4, 8, 16, 32 and then 60 or 64. *)
Lemma fetch_backoffs_shape w :
  exists sixth, (sixth = 60 \/ sixth = 64) /\
    backoffs (fst (fetch_with_backoff w)) `prefix_of` [2; 4; 8; 16; 32; sixth].
Proof.
  apply doubling_shape.
  - apply attempts_doubling.
  - apply (backoffs_length w (seq 1 MAX_RETRIES) INITIAL_BACKOFF).
Qed.

(** A run of six answers that are all HTTP 429 or 5xx. *)
Definition all_http_retry (w : net) : Prop :=
  forall a, (1 <= a <= 6)%nat ->
    exists status_code json,
      outcome w a = Response status_code json /\ status_retry status_code = true.

(** A run of six answers that all report the error code maxlag. *)
Definition all_maxlag (w : net) : Prop :=
  forall a, (1 <= a <= 6)%nat -> classify (outcome w a) = MaxlagRetry.

Lemma all_http_retry_classify w a :
  all_http_retry w -> (1 <= a <= 6)%nat -> classify (outcome w a) = HttpRetry.
Proof.
  intros H Ha. destruct (H a Ha) as (st & json & -> & Hst).
  unfold classify. by rewrite Hst.
Qed.

(** C1: the backoff slept after consecutive retryable failures starts at
    2 seconds and doubles; on six consecutive answers with status 429 or
    5xx the call sleeps 2, 4, 8, 16, 32 and then 64 seconds and raises.
    This branch doubles the backoff without the cap of 60 seconds that
    its sibling branches apply, so the sixth sleep is not the 60 seconds
    of the sequence 2, 4, 8, 16, 32, 60. *)
Theorem fetch_with_backoff_http_retry_sleeps w :
  all_http_retry w ->
  fetch_with_backoff w =
    ([Get 1; Sleep 2 None; Get 2; Sleep 4 None; Get 3; Sleep 8 None;
      Get 4; Sleep 16 None; Get 5; Sleep 32 None; Get 6; Sleep 64 None],
     Raise MaxRetriesExceeded).
Proof.
  intros H. unfold fetch_with_backoff, MAX_RETRIES, INITIAL_BACKOFF. cbn [seq].
  repeat (rewrite attempts_classify, (all_http_retry_classify w) by (assumption || lia);
          cbn [fst snd]).
  reflexivity.
Qed.

(** Every attempt is answered 429. *)
Definition always_429 : net :=
  {| outcome := fun _ => Response 429 (Raise ValueError); uniform := fun _ => 0%Q |}.

Lemma fetch_with_backoff_http_retry_sleeps_witness :
  all_http_retry always_429 /\
  backoffs (fst (fetch_with_backoff always_429)) = [2; 4; 8; 16; 32; 64].
Proof.
  assert (H : all_http_retry always_429).
  { intros a _. exists 429, (Raise ValueError). split; reflexivity. }
  split; [exact H |].
  rewrite (fetch_with_backoff_http_retry_sleeps always_429 H). reflexivity.
Defined.

(** X2: on six consecutive maxlag answers the call sleeps 2, 4, 8, 16, 32
    and 60 seconds, each with the random addend drawn for the attempt, and
    then raises: this branch applies the cap. *)
Lemma fetch_with_backoff_maxlag_sleeps w :
  all_maxlag w ->
  fetch_with_backoff w =
    ([Get 1; Sleep 2 (Some (uniform w 1)); Get 2; Sleep 4 (Some (uniform w 2));
      Get 3; Sleep 8 (Some (uniform w 3)); Get 4; Sleep 16 (Some (uniform w 4));
      Get 5; Sleep 32 (Some (uniform w 5)); Get 6; Sleep 60 (Some (uniform w 6))],
     Raise MaxRetriesExceeded).
Proof.
  intros H. unfold fetch_with_backoff, MAX_RETRIES, INITIAL_BACKOFF. cbn [seq].
  repeat (rewrite attempts_classify, H by lia; cbn [fst snd]).
  reflexivity.
Qed.

(** Every attempt is answered 200 with the error code maxlag. *)
Definition always_maxlag : net :=
  {| outcome := fun _ =>
       Response 200 (Return (PDict [("error", PDict [("code", PStr "maxlag")])]));
     uniform := fun a => (1 # Pos.of_nat (S a))%Q |}.

Lemma fetch_with_backoff_maxlag_sleeps_witness :
  backoffs (fst (fetch_with_backoff always_maxlag)) = [2; 4; 8; 16; 32; 60] /\
  snd (fetch_with_backoff always_maxlag) = Raise MaxRetriesExceeded.
Proof.
  assert (H : all_maxlag always_maxlag) by (intros a _; reflexivity).
  rewrite (fetch_with_backoff_maxlag_sleeps always_maxlag H). split; reflexivity.
Defined.

(** ** Retry policy *)

(** The outcomes after which the loop goes on to another attempt (or, on
    the last attempt, fails): a 429 or 5xx answer, the error code maxlag,
    and any exception raised by the request, by the decoding of the body or
    by the test for maxlag. *)
Definition retried (o : attempt_outcome) : bool :=
  match classify o with
  | Final _ => false
  | _ => true
  end.

(** The outcomes the specification names for a retry: a 429 or 5xx answer,
    or a decoded body whose error object has the code maxlag. *)
Definition retried_as_specified (o : attempt_outcome) : bool :=
  match o with
  | GetRaises _ => false
  | Response status_code json =>
      status_retry status_code
      || match json with
         | inr data => match is_maxlag data with inr true => true | _ => false end
         | inl _ => false
         end
  end.

(** The attempt numbered [MAX_RETRIES] comes last, if at all. *)
Fixpoint last_comes_last (todo : list nat) : Prop :=
  match todo with
  | [] => True
  | a :: rest => (a = MAX_RETRIES -> rest = []) /\ last_comes_last rest
  end.

Lemma classify_final w a data :
  classify (outcome w a) = Final data ->
  exists status_code, outcome w a = Response status_code (inr data).
Proof.
  unfold classify, failure_verdict.
  destruct (outcome w a) as [e | st [e | d]].
  - destruct (is_request_exception e); discriminate.
  - destruct (status_retry st); [discriminate |].
    destruct (is_request_exception e); discriminate.
  - destruct (status_retry st); [discriminate |].
    destruct (is_maxlag d) as [e | [|]]; try discriminate.
    + destruct (is_request_exception e); discriminate.
    + intros [= ->]. by exists st.
Qed.

Lemma attempts_policy w todo : forall b,
  last_comes_last todo ->
  match List.find (fun a => negb (retried (outcome w a))) todo with
  | Some a =>
      (exists before after,
          todo = before ++ a :: after /\
          gets (fst (attempts w todo b)) = before ++ [a]) /\
      (exists status_code data,
          outcome w a = Response status_code (inr data) /\
          snd (attempts w todo b) = Return data)
  | None =>
      gets (fst (attempts w todo b)) = todo /\
      exists e, snd (attempts w todo b) = Raise e
  end.
Proof.
  induction todo as [| a rest IH]; intros b Hlast.
  { split; [reflexivity | by eexists]. }
  destruct Hlast as [Ha Hrest].
  pose proof (classify_final w a) as Hfinal.
  cbn [List.find]. unfold retried at 1. rewrite attempts_classify.
  destruct (classify (outcome w a)) as [data | | | | e] eqn:Hc; cbn [negb fst snd].
  - split.
    + exists [], rest. split; reflexivity.
    + destruct (Hfinal data eq_refl) as [st Hst]. by exists st, data.
  - specialize (IH (b * 2) Hrest).
    destruct (List.find _ rest) as [a' |].
    + destruct IH as [(before & after & -> & Hg) Hr]. split; [| exact Hr].
      exists (a :: before), after. split; [reflexivity |].
      rewrite gets_cons_get, gets_cons_sleep, Hg. reflexivity.
    + destruct IH as [Hg Hr]. split; [| exact Hr].
      by rewrite gets_cons_get, gets_cons_sleep, Hg.
  - specialize (IH (Z.min (b * 2) 60) Hrest).
    destruct (List.find _ rest) as [a' |].
    + destruct IH as [(before & after & -> & Hg) Hr]. split; [| exact Hr].
      exists (a :: before), after. split; [reflexivity |].
      rewrite gets_cons_get, gets_cons_sleep, Hg. reflexivity.
    + destruct IH as [Hg Hr]. split; [| exact Hr].
      by rewrite gets_cons_get, gets_cons_sleep, Hg.
  - specialize (IH (Z.min (b * 2) 60) Hrest).
    destruct (List.find _ rest) as [a' |].
    + destruct IH as [(before & after & -> & Hg) Hr]. split; [| exact Hr].
      exists (a :: before), after. split; [reflexivity |].
      rewrite gets_cons_get, gets_cons_sleep, Hg. reflexivity.
    + destruct IH as [Hg Hr]. split; [| exact Hr].
      by rewrite gets_cons_get, gets_cons_sleep, Hg.
  - destruct (Nat.eqb_spec a MAX_RETRIES) as [Heq | Hne]; cbn [fst snd].
    + rewrite (Ha Heq). cbn [List.find]. split; [reflexivity | by eexists].
    + specialize (IH (Z.min (b * 2) 60) Hrest).
      destruct (List.find _ rest) as [a' |].
      * destruct IH as [(before & after & -> & Hg) Hr]. split; [| exact Hr].
        exists (a :: before), after. split; [reflexivity |].
        rewrite gets_cons_get, gets_cons_sleep, Hg. reflexivity.
      * destruct IH as [Hg Hr]. split; [| exact Hr].
        by rewrite gets_cons_get, gets_cons_sleep, Hg.
Qed.

Lemma seq_through before a after :
  seq 1 MAX_RETRIES = before ++ a :: after -> before ++ [a] = seq 1 a.
Proof.
  unfold MAX_RETRIES. cbn [seq].
  do 6 (destruct before as [| ? before]; [intros [= <- _]; reflexivity |];
        intros [= <- H]; revert H).
  destruct before; discriminate.
Qed.

Lemma last_comes_last_seq : last_comes_last (seq 1 MAX_RETRIES).
Proof. unfold MAX_RETRIES. cbn. repeat split; discriminate. Qed.

Lemma retried_as_specified_retried o :
  retried_as_specified o = true -> retried o = true.
Proof.
  unfold retried_as_specified, retried, classify, failure_verdict.
  destruct o as [e | st [e | data]]; [discriminate | |].
  - destruct (status_retry st); [reflexivity | discriminate].
  - destruct (status_retry st); [reflexivity |].
    destruct (is_maxlag data) as [e | [|]]; [discriminate | reflexivity | discriminate].
Qed.

(** C2, as the code has it. In [fetch_warhammer_pages_for_lightrag.py] an
    attempt is followed by another one exactly when its outcome is
    [retried]: an answer with status 429 or 5xx, a decoded body whose
    error object has the code maxlag, or an exception of the request, of
    the decoding or of the maxlag test; these include every outcome the
    specification names. The call stops at the first attempt, of six at
    most, whose outcome is not of this kind and returns its decoded body;
    when all six are, it raises. A body with any other error object is
    returned by the first attempt, and the driver's [check_error] raises
    the API error for the page. The v3 script makes one attempt and never
    retries. *)
Theorem fetch_with_backoff_retry_policy w :
  (forall o, retried_as_specified o = true -> retried o = true) /\
  match List.find (fun a => negb (retried (outcome w a))) (seq 1 MAX_RETRIES) with
  | Some a =>
      gets (fst (fetch_with_backoff w)) = seq 1 a /\
      exists status_code data,
        outcome w a = Response status_code (inr data) /\
        snd (fetch_with_backoff w) = Return data
  | None =>
      gets (fst (fetch_with_backoff w)) = seq 1 MAX_RETRIES /\
      exists e, snd (fetch_with_backoff w) = Raise e
  end /\
  (forall status_code kvs err,
      outcome w 1%nat = Response status_code (inr (PDict kvs)) ->
      status_retry status_code = false ->
      assoc "error" kvs = Some err ->
      is_maxlag (PDict kvs) = Return false ->
      fetch_with_backoff w = ([Get 1], Return (PDict kvs)) /\
      check_error (PDict kvs) = Raise (ApiError err)) /\
  gets (fst (FetchV3.fetch_with_backoff w)) = [1%nat].
Proof.
  split; [exact retried_as_specified_retried |].
  split; [| split].
  - pose proof (attempts_policy w (seq 1 MAX_RETRIES) INITIAL_BACKOFF last_comes_last_seq) as H.
    unfold fetch_with_backoff.
    destruct (List.find _ (seq 1 MAX_RETRIES)) as [a |]; [| exact H].
    destruct H as [(before & after & Hsplit & Hg) Hr]. split; [| exact Hr].
    rewrite Hg. by apply seq_through with after.
  - intros st kvs err Ho Hst Herr Hlag.
    split.
    + unfold fetch_with_backoff, MAX_RETRIES. cbn [seq].
      rewrite attempts_classify. unfold classify. by rewrite Ho, Hst, Hlag.
    + unfold check_error. cbn. destruct (assoc "error" kvs); [| discriminate].
      injection Herr as ->. by rewrite bool_decide_eq_true_2.
  - reflexivity.
Qed.

(** An answer with an error object of another code. *)
Definition answers_nosuchpage : net :=
  {| outcome := fun _ =>
       Response 200 (Return (PDict [("error", PDict [("code", PStr "nosuchpageid")])]));
     uniform := fun _ => 0%Q |}.

Lemma fetch_with_backoff_retry_policy_witness :
  fetch_with_backoff answers_nosuchpage =
    ([Get 1], Return (PDict [("error", PDict [("code", PStr "nosuchpageid")])])) /\
  check_error (PDict [("error", PDict [("code", PStr "nosuchpageid")])]) =
    Raise (ApiError (PDict [("code", PStr "nosuchpageid")])).
Proof.
  apply (proj1 (proj2 (proj2 (fetch_with_backoff_retry_policy answers_nosuchpage))))
    with (status_code := 200); reflexivity.
Defined.

(** A first answer with status 200 and a body that does not decode, then a
    page. *)
Definition garbled_then_page : net :=
  {| outcome := fun a =>
       match a with
       | 1%nat => Response 200 (Raise ValueError)
       | _ => Response 200 (Return (PDict [("parse", PDict [("text", PStr "<p>x</p>")])]))
       end;
     uniform := fun _ => 0%Q |}.

(** Every answer has status 429 and a body that decodes. *)
Definition throttled : net :=
  {| outcome := fun _ => Response 429 (Return (PDict []));
     uniform := fun _ => 0%Q |}.

(** C2 as stated fails in both directions: the first script retries after
    an answer that is neither 429, 5xx nor maxlag; the v3 script does not
    retry after an answer with status 429. *)
Lemma fetch_retries_not_as_specified :
  (retried_as_specified (outcome garbled_then_page 1) = false /\
   gets (fst (fetch_with_backoff garbled_then_page)) = [1; 2]%nat) /\
  (retried_as_specified (outcome throttled 1) = true /\
   FetchV3.fetch_with_backoff throttled = ([Get 1], Return (PDict []))).
Proof. repeat split. Qed.

(** ** The driver *)

(** The positions of the pages a run reports on, written or failed. *)
Definition reported (acts : list action) : list nat :=
  omap (fun a => match a with
                 | Wrote idx _ => Some idx
                 | Failed idx _ _ => Some idx
                 | _ => None
                 end) acts.

(** The failure logs a run writes. *)
Definition fail_logs (acts : list action) : list (list failure) :=
  omap (fun a => match a with WriteFailLog rows => Some rows | _ => None end) acts.

Section DriverFacts.

Variable fetch : net -> list event * result pyval.
Variable html_to_markdown : pyval -> result string.
Variable write_markdown : row -> pyval -> pyval -> string -> result string.
Variable world : nat -> net.

#[local] Abbreviation process_page := (process_page fetch html_to_markdown write_markdown world).
#[local] Abbreviation main_loop := (main_loop fetch html_to_markdown write_markdown world).
#[local] Abbreviation main := (main fetch html_to_markdown write_markdown world).

(** What the page at position [idx] contributes on its own. *)
Definition page_actions (idx : nat) (r : row) : list action :=
  [Throttle; Network (fst (process_page idx r));
   match snd (process_page idx r) with
   | inr out_path => Wrote idx out_path
   | inl e => Failed idx (page_id r) e
   end].

Definition page_failure (idx : nat) (r : row) : option failure :=
  match snd (process_page idx r) with
  | inr _ => None
  | inl e => Some {| fail_page_id := page_id r; fail_title := title r;
                     fail_url := url r; error := e |}
  end.

Fixpoint all_actions (idx : nat) (rows : list row) : list action :=
  match rows with
  | [] => []
  | r :: rest => page_actions idx r ++ all_actions (S idx) rest
  end.

Fixpoint all_failures (idx : nat) (rows : list row) : list failure :=
  match rows with
  | [] => []
  | r :: rest => option_list (page_failure idx r) ++ all_failures (S idx) rest
  end.

Lemma main_loop_spec rows : forall idx fail_rows,
  main_loop idx rows fail_rows = (all_actions idx rows, fail_rows ++ all_failures idx rows).
Proof.
  induction rows as [| r rest IH]; intros idx fail_rows.
  { cbn. by rewrite app_nil_r. }
  cbn [Fetch.main_loop all_actions all_failures]. unfold page_actions, page_failure.
  destruct (process_page idx r) as [evs [e | out_path]]; cbn [fst snd].
  - rewrite IH. cbn. by rewrite <- app_assoc.
  - rewrite IH. reflexivity.
Qed.

Lemma reported_all_actions rows : forall idx,
  reported (all_actions idx rows) = seq idx (length rows).
Proof.
  induction rows as [| r rest IH]; intros idx; [reflexivity |].
  cbn [all_actions length seq]. unfold page_actions.
  destruct (snd (process_page idx r)); cbn; by rewrite IH.
Qed.

Lemma fail_logs_all_actions rows : forall idx, fail_logs (all_actions idx rows) = [].
Proof.
  induction rows as [| r rest IH]; intros idx; [reflexivity |].
  cbn [all_actions]. unfold page_actions.
  destruct (snd (process_page idx r)); cbn; by rewrite IH.
Qed.

Lemma reported_app a b : reported (a ++ b) = reported a ++ reported b.
Proof. apply omap_app. Qed.

Lemma fail_logs_app a b : fail_logs (a ++ b) = fail_logs a ++ fail_logs b.
Proof. apply omap_app. Qed.

Lemma main_spec rows :
  main rows =
  all_actions 0 rows ++
  match all_failures 0 rows with
  | [] => []
  | fails => [WriteFailLog fails]
  end.
Proof.
  unfold Fetch.main. rewrite main_loop_spec. cbn [app].
  destruct (all_failures 0 rows); [by rewrite app_nil_r | reflexivity].
Qed.

(** C7: a page whose processing raises gets one entry in [fail_rows],
    with its identifier, title, URL and the exception, and the loop goes on
    with the next page: the run is the pages' own actions one after the
    other, every position is reported once and in order, and the entries
    are written once, after the last page, when there are any. The three
    causes the specification names raise in the [try] block: an exception
    of the fetch (the exhausted retries among them), an error object in
    the answer, and an answer without markup. *)
Theorem main_isolates_page_failures rows :
  main rows =
    all_actions 0 rows ++
    match all_failures 0 rows with
    | [] => []
    | fails => [WriteFailLog fails]
    end /\
  reported (main rows) = seq 0 (length rows) /\
  fail_logs (main rows) =
    match all_failures 0 rows with
    | [] => []
    | fails => [fails]
    end /\
  (forall idx r e,
      snd (fetch (world idx)) = Raise e ->
      page_failure idx r =
        Some {| fail_page_id := page_id r; fail_title := title r;
                fail_url := url r; error := e |}) /\
  (forall idx r kvs err,
      snd (fetch (world idx)) = Return (PDict kvs) ->
      assoc "error" kvs = Some err ->
      page_failure idx r =
        Some {| fail_page_id := page_id r; fail_title := title r;
                fail_url := url r; error := ApiError err |}) /\
  (forall idx r kvs parsed,
      snd (fetch (world idx)) = Return (PDict kvs) ->
      assoc "error" kvs = None ->
      py_or (default PNone (assoc "parse" kvs)) (PDict []) = PDict parsed ->
      truthy (default PNone (assoc "text" parsed)) = false ->
      page_failure idx r =
        Some {| fail_page_id := page_id r; fail_title := title r;
                fail_url := url r; error := EmptyHtmlContent |}).
Proof.
  split; [apply main_spec |].
  split; [| split; [| split; [| split]]].
  - rewrite main_spec, reported_app, reported_all_actions.
    destruct (all_failures 0 rows); cbn; by rewrite app_nil_r.
  - rewrite main_spec, fail_logs_app, fail_logs_all_actions.
    by destruct (all_failures 0 rows).
  - intros idx r e H. unfold page_failure, Fetch.process_page.
    destruct (fetch (world idx)) as [evs fetched]. cbn in H. by subst.
  - intros idx r kvs err H Herr. unfold page_failure, Fetch.process_page.
    destruct (fetch (world idx)) as [evs fetched]. cbn in H. subst.
    cbn. unfold handle_parse, check_error. cbn. rewrite Herr.
    by rewrite bool_decide_eq_true_2.
  - intros idx r kvs parsed H Herr Hparse Htext. unfold page_failure, Fetch.process_page.
    destruct (fetch (world idx)) as [evs fetched]. cbn in H. subst.
    cbn. unfold handle_parse, check_error. cbn. rewrite Herr.
    rewrite bool_decide_eq_false_2 by (by intros [? ?]).
    cbn. rewrite Hparse. cbn.
    unfold py_or at 1. rewrite Htext. reflexivity.
Qed.

End DriverFacts.

(** A run over four pages with the first script: a page with markup, an
    answer with an error object, an answer without markup, and a page
    that is answered 429 six times. *)
Definition four_pages : list row :=
  [ {| page_id := 11; title := "Abaddon"; url := "https://w/Abaddon" |};
    {| page_id := 12; title := "Badab War"; url := "https://w/Badab_War" |};
    {| page_id := 13; title := "Cadia"; url := "https://w/Cadia" |};
    {| page_id := 14; title := "Dorn"; url := "https://w/Dorn" |} ].

Definition four_answers (idx : nat) : net :=
  match idx with
  | 0%nat =>
      {| outcome := fun _ =>
           Response 200 (Return (PDict [("parse", PDict [("text", PStr "<p>Warmaster</p>")])]));
         uniform := fun _ => 0%Q |}
  | 1%nat => answers_nosuchpage
  | 2%nat =>
      {| outcome := fun _ => Response 200 (Return (PDict [("parse", PDict [("text", PStr "")])]));
         uniform := fun _ => 0%Q |}
  | _ => always_429
  end.

Definition echo_markup (html : pyval) : result string := Return (Repr.str html).

Definition path_of_row (r : row) (categories sections : pyval) (body_md : string)
  : result string :=
  Return ("out/pages/" +:+ Str.of_Z (page_id r) +:+ ".md").

Lemma main_isolates_page_failures_witness :
  reported (Fetch.main fetch_with_backoff echo_markup path_of_row four_answers four_pages)
    = [0; 1; 2; 3]%nat /\
  fail_logs (Fetch.main fetch_with_backoff echo_markup path_of_row four_answers four_pages)
    = [[ {| fail_page_id := 12; fail_title := "Badab War"; fail_url := "https://w/Badab_War";
            error := ApiError (PDict [("code", PStr "nosuchpageid")]) |};
         {| fail_page_id := 13; fail_title := "Cadia"; fail_url := "https://w/Cadia";
            error := EmptyHtmlContent |};
         {| fail_page_id := 14; fail_title := "Dorn"; fail_url := "https://w/Dorn";
            error := MaxRetriesExceeded |} ]].
Proof.
  destruct (main_isolates_page_failures
              fetch_with_backoff echo_markup path_of_row four_answers four_pages)
    as (_ & Hreported & Hlogs & _).
  rewrite Hreported, Hlogs. split; reflexivity.
Defined.

(** ** The converter *)

Lemma not_handled name :
  handled name = false ->
  heading_level name = None /\
  String.eqb name "p" = false /\ String.eqb name "br" = false /\
  String.eqb name "ul" = false /\ String.eqb name "ol" = false /\
  String.eqb name "li" = false /\ String.eqb name "table" = false /\
  String.eqb name "blockquote" = false /\ String.eqb name "img" = false.
Proof.
  unfold handled. cbn [existsb]. intros H.
  apply orb_false_elim in H as [Hh H].
  repeat (apply orb_false_elim in H as [? H]).
  split; [| by repeat split].
  destruct (heading_level name); [| reflexivity].
  by rewrite bool_decide_eq_true_2 in Hh.
Qed.

(** C9: the converter is a total function of the tree, and an element
    whose lower-cased tag has no rule of its own is converted to the
    concatenation of its children's conversions, in both scripts. *)
Theorem node_to_markdown_passes_unknown_tags
    (get_text : node -> string) name attrs children :
  handled (Str.lower name) = false ->
  node_to_markdown get_text (Tag name attrs children)
    = Str.concat (List.map (node_to_markdown get_text) children) /\
  FetchV3.node_to_markdown get_text (Tag name attrs children)
    = Str.concat (List.map (FetchV3.node_to_markdown get_text) children).
Proof.
  intros H. apply not_handled in H as (Hh & Hp & Hbr & Hul & Hol & Hli & Htable & Hbq & Himg).
  split.
  - cbn [node_to_markdown].
    by rewrite Hh, Hp, Hbr, Hul, Hol, Hli, Htable, Hbq, Himg.
  - cbn [FetchV3.node_to_markdown].
    by rewrite Hh, Hp, Hul, Hol, Htable, Hbq, Himg.
Qed.

Lemma node_to_markdown_passes_unknown_tags_witness :
  node_to_markdown (fun _ => "")
      (Tag "DIV" [("class", "lead")]
         [NavigableString "a"; Tag "x-unknown" [] [NavigableString "b"]; OtherElement])
    = "ab".
Proof.
  destruct (node_to_markdown_passes_unknown_tags (fun _ => "") "DIV" [("class", "lead")]
              [NavigableString "a"; Tag "x-unknown" [] [NavigableString "b"]; OtherElement]
              eq_refl) as [H _].
  rewrite H. reflexivity.
Defined.

(** The two tags the v3 script has no rule for pass through as well. *)
Lemma node_to_markdown_v3_br_li (get_text : node -> string) name attrs children :
  Str.lower name = "br" \/ Str.lower name = "li" ->
  FetchV3.node_to_markdown get_text (Tag name attrs children)
    = Str.concat (List.map (FetchV3.node_to_markdown get_text) children).
Proof.
  intros [H | H]; cbn [FetchV3.node_to_markdown]; rewrite H; reflexivity.
Qed.

End FetchFacts.

(* ===================================================================== *)
(** * Properties of [url_split.py] *)
(* ===================================================================== *)

Module UrlSplitFacts.

Import UrlSplit.

(** ** Sections *)

(** The markup of the end-to-end example of the specification. *)
Definition example_markup : string :=
  "<h2>Intro</h2><p>Hello</p><h2>Sources</h2><p>x</p><h2>History</h2><p>Old.</p>".

Definition example_body : string :=
  "Hello" +:+ Str.nl +:+ Str.nl +:+ "## History" +:+ Str.nl +:+ Str.nl +:+ "Old.".

(** C3: for the example markup the banned set holds "sources", the three
    sections found are Intro, Sources and History; the first is emitted
    without a heading marker, the second is dropped, the third is emitted
    under a level-2 marker; [clean_pagecontent] returns
    [Hello\n\n## History\n\nOld.] and [write_doc] writes this with a final
    newline after the front matter. *)
Theorem clean_pagecontent_example (title fullurl : string) (categories : list string) :
  banned "sources" = true /\
  List.map title_html (finditer (keep_h2_only example_markup))
    = ["Intro"; "Sources"; "History"] /\
  section_part "Intro" "Hello" = Return (Some "Hello") /\
  section_part "Sources" "x" = Return None /\
  section_part "History" "Old."
    = Return (Some ("## History" +:+ Str.nl +:+ Str.nl +:+ "Old.")) /\
  clean_pagecontent (PDict [("text", PStr example_markup)]) = Return example_body /\
  doc_body {| title := title; fullurl := fullurl; categories := categories;
              pagecontent := example_body |}
    = "Hello" +:+ Str.nl +:+ Str.nl +:+ "## History" +:+ Str.nl +:+ Str.nl +:+ "Old." +:+ Str.nl.
Proof. repeat split. Qed.

(** Characters and white space. *)
Lemma isspace_lower_char c : Str.isspace (Str.lower_char c) = Str.isspace c.
Proof. destruct c as [[] [] [] [] [] [] [] []]; reflexivity. Qed.

Lemma lstrip_by_head p s c r : Str.lstrip_by p s = String c r -> p c = false.
Proof.
  induction s as [| a s IH]; [discriminate |].
  cbn. destruct (p a) eqn:Hp; [exact IH |]. by intros [= <- _].
Qed.

Lemma rstrip_by_head p s c r :
  Str.rstrip_by p s = String c r -> exists s', s = String c s'.
Proof.
  destruct s as [| a s]; [discriminate |].
  cbn. destruct (Str.is_empty (Str.rstrip_by p s) && p a); [discriminate |].
  intros [= <- _]. by eexists.
Qed.

Lemma strip_head s c r : Str.strip s = String c r -> Str.isspace c = false.
Proof.
  unfold Str.strip, Str.strip_by. intros H.
  apply rstrip_by_head in H as [s' H]. by apply lstrip_by_head in H.
Qed.

Lemma words_go_some cur s : Str.words_go (Some cur) s <> [].
Proof.
  revert cur. induction s as [| c s IH]; intros cur; cbn; [discriminate |].
  destruct (Str.isspace c); [discriminate | apply IH].
Qed.

Lemma words_head c s : Str.isspace c = false -> Str.words (String c s) <> [].
Proof. intros H. unfold Str.words. cbn. rewrite H. apply words_go_some. Qed.

(** [key.split()[0]] never raises for the key of a section: a key that is
    not empty starts with a character that is not white space. *)
Lemma first_word_total title_html :
  exists w, first_word (section_key title_html) = Return w.
Proof.
  unfold first_word, section_key, section_title.
  destruct (Str.strip _) as [| c r] eqn:Hs; [by eexists |].
  apply strip_head in Hs. cbn [Str.lower Str.map Str.is_empty].
  pose proof (words_head (Str.lower_char c) (Str.map Str.lower_char r)) as Hw.
  rewrite isspace_lower_char in Hw. specialize (Hw Hs).
  destruct (Str.words _); [done | by eexists].
Qed.

Lemma banned_spec name :
  banned name = true <->
  name = "contents" \/ name = "videos" \/ name = "sources" \/ name = "gallery"
  \/ name = "bibliography".
Proof.
  unfold banned, BANNED_SECTIONS. cbn [existsb].
  rewrite !orb_true_iff, !String.eqb_eq. intuition discriminate.
Qed.

Lemma first_word_banned key : banned key = true -> first_word key = Return key.
Proof.
  intros H. apply banned_spec in H as [-> | [-> | [-> | [-> | ->]]]]; reflexivity.
Qed.

(** When a round of the loop ends in [continue]. *)
Lemma section_part_dropped title_html body_html :
  section_part title_html body_html = Return None <->
  clean_text body_html = ""
  \/ banned (section_key title_html) = true
  \/ exists w, first_word (section_key title_html) = Return w /\ banned w = true.
Proof.
  unfold section_part. fold (section_key title_html).
  destruct (clean_text body_html) as [| c body] eqn:Hbody; cbn [Str.is_empty].
  { split; [by left | reflexivity]. }
  destruct (first_word_total title_html) as [w Hw]. rewrite Hw.
  unfold Return, bind.
  destruct (banned (section_key title_html)) eqn:Hk; cbn [orb].
  { split; [by right; left | reflexivity]. }
  destruct (banned w) eqn:Hb.
  { split; [| reflexivity]. intros _. right; right. by exists w. }
  split.
  - by destruct (_ && _ && _).
  - intros [H | [H | (w' & [= <-] & H)]]; congruence.
Qed.

(** C4: the banned names are contents, videos, sources, gallery and
    bibliography; a round of the loop appends nothing for a section whose
    key is a banned name or starts with a banned name as its first word.
    "Sources and Notes" is dropped through its first word, whatever its
    body; "History of the Chapter" with a body that is not empty is kept,
    under its heading. *)
Theorem banned_sections_are_dropped :
  (forall name,
      banned name = true <->
      name = "contents" \/ name = "videos" \/ name = "sources" \/ name = "gallery"
      \/ name = "bibliography") /\
  (forall title_html body_html,
      banned (section_key title_html) = true
      \/ (exists w, first_word (section_key title_html) = Return w /\ banned w = true) ->
      section_part title_html body_html = Return None) /\
  (banned (section_key "Sources and Notes") = false /\
   first_word (section_key "Sources and Notes") = Return "sources" /\
   forall body_html, section_part "Sources and Notes" body_html = Return None) /\
  (forall body_html,
      clean_text body_html <> "" ->
      section_part "History of the Chapter" body_html
        = Return (Some ("## History of the Chapter" +:+ Str.nl +:+ Str.nl
                        +:+ clean_text body_html))) /\
  clean_html
    "<h2>Sources and Notes</h2><p>x</p><h2>History of the Chapter</h2><p>Old.</p>"
    = Return ("## History of the Chapter" +:+ Str.nl +:+ Str.nl +:+ "Old.").
Proof.
  split; [exact banned_spec |].
  split; [| split; [| split]].
  - intros title_html body_html H. apply section_part_dropped. by right.
  - split; [reflexivity |]. split; [reflexivity |].
    intros body_html. apply section_part_dropped. right; right.
    by exists "sources".
  - intros body_html Hbody. unfold section_part.
    destruct (clean_text body_html); [done | reflexivity].
  - reflexivity.
Qed.

Lemma banned_sections_are_dropped_witness :
  section_part "<b>GALLERY</b>[]" "<p>picture</p>" = Return None /\
  section_part "Videos and <i>more</i>" "<p>clip</p>" = Return None.
Proof.
  destruct banned_sections_are_dropped as (_ & Hdrop & _).
  split; apply Hdrop.
  - left. reflexivity.
  - right. exists "videos". split; reflexivity.
Defined.

(** C10: a section whose key is "intro" and whose body is not empty is
    appended as its body alone. This holds for the section the function
    makes up for the text before the first heading and for a heading
    "Intro" of the markup itself, in any case of letters: such a heading
    does not reach the output. *)
Theorem intro_sections_lose_their_heading :
  (forall title_html body_html,
      section_key title_html = "intro" ->
      clean_text body_html <> "" ->
      section_part title_html body_html = Return (Some (clean_text body_html))) /\
  clean_html "<h2>Intro</h2><p>Hello</p><h2>History</h2><p>Old.</p>"
    = Return example_body /\
  clean_html "<p>Hello</p><h2>History</h2><p>Old.</p>" = Return example_body /\
  clean_html "<h2 id=1><i>INTRO</i>[]</h2><p>Hello</p><h2>History</h2><p>Old.</p>"
    = Return example_body.
Proof.
  split; [| repeat split].
  intros title_html body_html Hkey Hbody. unfold section_part.
  fold (section_key title_html). rewrite Hkey.
  destruct (clean_text body_html); [done |].
  cbn. by rewrite andb_false_r.
Qed.

Lemma intro_sections_lose_their_heading_witness :
  section_part "<span>Intro</span>" "<p>Hello</p>" = Return (Some "Hello").
Proof.
  destruct intro_sections_lose_their_heading as (H & _).
  apply (H "<span>Intro</span>" "<p>Hello</p>"); [reflexivity | discriminate].
Defined.

(** ** File names *)

(** The candidate the loop holds while [idx] has a given value. *)
Definition candidate_at (base : string) (idx : nat) : string :=
  if Nat.eqb idx 1 then base else suffixed base idx.

Lemma length_app s1 s2 :
  String.length (s1 +:+ s2) = (String.length s1 + String.length s2)%nat.
Proof.
  induction s1 as [| c s1 IH]; [reflexivity |].
  change (String c s1 +:+ s2) with (String c (s1 +:+ s2)).
  cbn [String.length]. by rewrite IH.
Qed.

Lemma app_inv_tail a b ext : a +:+ ext = b +:+ ext -> a = b.
Proof.
  revert b. induction a as [| c a IH]; intros [| d b] H.
  - reflexivity.
  - apply (f_equal String.length) in H. rewrite !length_app in H.
    cbn [String.length] in H. lia.
  - apply (f_equal String.length) in H. rewrite !length_app in H.
    cbn [String.length] in H. lia.
  - change (String c (a +:+ ext) = String d (b +:+ ext)) in H.
    injection H as -> H. f_equal. by apply IH.
Qed.

Lemma suffixed_inj base i j : suffixed base i = suffixed base j -> i = j.
Proof.
  unfold suffixed, Str.of_nat. intros H.
  apply (inj (String.app base)) in H. apply (inj (String.app "_")) in H.
  by apply (inj pretty) in H.
Qed.

Lemma suffixed_neq_base base i : suffixed base i <> base.
Proof.
  unfold suffixed. intros H. apply (f_equal String.length) in H.
  rewrite !length_app in H. cbn [String.length] in H. lia.
Qed.

Lemma candidate_at_inj base i j :
  (1 <= i)%nat -> (1 <= j)%nat -> candidate_at base i = candidate_at base j -> i = j.
Proof.
  unfold candidate_at. intros Hi Hj.
  destruct (Nat.eqb_spec i 1) as [-> | Hi1], (Nat.eqb_spec j 1) as [-> | Hj1];
    [reflexivity | | |].
  - intros H. symmetry in H. by apply suffixed_neq_base in H.
  - intros H. by apply suffixed_neq_base in H.
  - apply suffixed_inj.
Qed.

(** The loop ends within [fuel] tests when fewer than [fuel] names of
    [taken] are candidates still to come ([rest] holds them all); it ends
    on the first candidate from [idx] on that is not in [taken]. *)
Lemma resolve_terminates taken base : forall fuel idx (rest : gset string),
  (1 <= idx)%nat ->
  (forall k, (idx <= k)%nat -> candidate_at base k ∈ taken -> candidate_at base k ∈ rest) ->
  (size rest < fuel)%nat ->
  exists k,
    (idx <= k)%nat /\
    resolve fuel taken base idx (candidate_at base idx) = Some (candidate_at base k) /\
    (candidate_at base k ∉ taken) /\
    (forall j, (idx <= j < k)%nat -> candidate_at base j ∈ taken).
Proof.
  induction fuel as [| fuel IH]; intros idx rest Hidx Hrest Hsize; [lia |].
  cbn [resolve]. destruct (decide (candidate_at base idx ∈ taken)) as [Hin | Hout].
  - assert (Hnext : suffixed base (S idx) = candidate_at base (S idx)).
    { unfold candidate_at. destruct (Nat.eqb_spec (S idx) 1); [lia | reflexivity]. }
    rewrite Hnext.
    destruct (IH (S idx) (rest ∖ {[candidate_at base idx]})) as (k & Hk & Hres & Hfree & Hbusy).
    + lia.
    + intros k Hk Hkin. apply elem_of_difference. split; [apply Hrest; [lia | done] |].
      rewrite elem_of_singleton. intros Heq. apply candidate_at_inj in Heq; lia.
    + assert (Hsub : ({[candidate_at base idx]} : gset string) ⊆ rest).
      { apply singleton_subseteq_l. apply Hrest; [lia | done]. }
      rewrite (size_difference _ _ Hsub), size_singleton.
      assert (0 < size rest)%nat; [| lia].
      apply (subseteq_size _ _) in Hsub. rewrite size_singleton in Hsub. lia.
    + exists k. split; [lia |]. split; [exact Hres |]. split; [exact Hfree |].
      intros j Hj. destruct (decide (j = idx)) as [-> | Hne]; [done |].
      apply Hbusy. lia.
  - exists idx. split; [lia |]. split; [reflexivity |]. split; [exact Hout |].
    intros j Hj. lia.
Qed.

Section SafeFilenameFacts.

Variable nfkd_no_combining : string -> string.

#[local] Abbreviation slug_base := (slug_base nfkd_no_combining).
#[local] Abbreviation safe_filename := (safe_filename nfkd_no_combining).

(** What a call returns: the first candidate that is free. *)
Lemma safe_filename_spec title taken ext :
  exists k,
    (1 <= k)%nat /\
    safe_filename title taken ext
      = Some (candidate_at (slug_base title) k +:+ ext,
              {[candidate_at (slug_base title) k]} ∪ taken) /\
    (candidate_at (slug_base title) k ∉ taken) /\
    (forall j, (1 <= j < k)%nat -> candidate_at (slug_base title) j ∈ taken).
Proof.
  unfold UrlSplit.safe_filename, safe_filename_fuel.
  destruct (resolve_terminates taken (slug_base title) (S (size taken)) 1 taken)
    as (k & Hk & Hres & Hfree & Hbusy); [lia | done | lia |].
  exists k. change (candidate_at (slug_base title) 1) with (slug_base title) in Hres.
  rewrite Hres. done.
Qed.

(** More fuel changes nothing. *)
Lemma safe_filename_fuel_enough title taken ext fuel :
  (size taken < fuel)%nat ->
  safe_filename_fuel nfkd_no_combining fuel title taken ext = safe_filename title taken ext.
Proof.
  intros Hfuel. unfold UrlSplit.safe_filename, safe_filename_fuel.
  destruct (resolve_terminates taken (slug_base title) fuel 1 taken)
    as (k & Hk & Hres & Hfree & Hbusy); [lia | done | lia |].
  destruct (resolve_terminates taken (slug_base title) (S (size taken)) 1 taken)
    as (k' & Hk' & Hres' & Hfree' & Hbusy'); [lia | done | lia |].
  change (candidate_at (slug_base title) 1) with (slug_base title) in Hres, Hres'.
  rewrite Hres, Hres'.
  assert (k = k') as ->; [| reflexivity].
  destruct (Nat.lt_trichotomy k k') as [H | [H | H]]; [| done |].
  - exfalso. apply Hfree, Hbusy'. lia.
  - exfalso. apply Hfree', Hbusy. lia.
Qed.

(** C6: with an empty set the call returns the slug of the title itself,
    the same for the same title; for every title and every set the call
    returns, and the name it returns (before the extension) is not in the
    set as the call finds it and is in the set as the call leaves it; of
    two calls in a row for one title the second returns another name, the
    slug with a numeric suffix, and after a first call on the empty set
    that suffix is 2. *)
Theorem safe_filename_resolves_collisions title taken ext :
  safe_filename title ∅ ext = Some (slug_base title +:+ ext, {[slug_base title]}) /\
  (exists name,
      safe_filename title taken ext = Some (name +:+ ext, {[name]} ∪ taken) /\
      (name ∉ taken) /\
      exists name' k,
        safe_filename title ({[name]} ∪ taken) ext
          = Some (name' +:+ ext, {[name']} ∪ ({[name]} ∪ taken)) /\
        name' <> name /\ name' +:+ ext <> name +:+ ext /\
        (2 <= k)%nat /\ name' = suffixed (slug_base title) k) /\
  safe_filename title {[slug_base title]} ext
    = Some (suffixed (slug_base title) 2 +:+ ext,
            {[suffixed (slug_base title) 2]} ∪ {[slug_base title]}).
Proof.
  split; [| split].
  - unfold UrlSplit.safe_filename, safe_filename_fuel. rewrite size_empty. cbn [resolve].
    rewrite decide_False by set_solver. by rewrite (right_id_L ∅ (∪)).
  - destruct (safe_filename_spec title taken ext) as (k & Hk & Hres & Hfree & Hbusy).
    exists (candidate_at (slug_base title) k). split; [exact Hres |]. split; [exact Hfree |].
    destruct (safe_filename_spec title ({[candidate_at (slug_base title) k]} ∪ taken) ext)
      as (k' & Hk' & Hres' & Hfree' & Hbusy').
    exists (candidate_at (slug_base title) k'), k'.
    split; [exact Hres' |].
    assert (Hne : candidate_at (slug_base title) k' <> candidate_at (slug_base title) k).
    { intros Heq. apply Hfree'. rewrite Heq. set_solver. }
    split; [exact Hne |]. split.
    { intros Heq. by apply app_inv_tail in Heq. }
    assert (Hk2 : (2 <= k')%nat).
    { destruct (decide (k' = 1%nat)) as [-> | ?]; [| lia]. exfalso.
      destruct (decide (k = 1%nat)) as [-> | Hk1]; [done |].
      apply Hfree'. apply elem_of_union_r. apply Hbusy. lia. }
    split; [exact Hk2 |].
    unfold candidate_at. destruct (Nat.eqb_spec k' 1); [lia | reflexivity].
  - unfold UrlSplit.safe_filename, safe_filename_fuel. rewrite size_singleton. cbn [resolve].
    rewrite decide_True by set_solver.
    rewrite decide_False; [reflexivity |].
    rewrite elem_of_singleton. apply suffixed_neq_base.
Qed.

End SafeFilenameFacts.

(** ** Categories *)

(** The keys of [l] that are not in [seen], each at its first place. *)
Fixpoint unseen (seen l : list string) : list string :=
  match l with
  | [] => []
  | x :: l' =>
      if bool_decide (x ∈ seen) then unseen seen l' else x :: unseen (seen ++ [x]) l'
  end.

Lemma fold_setdefault_key l : forall acc,
  fold_left setdefault_key l acc = acc ++ unseen acc l.
Proof.
  induction l as [| x l IH]; intros acc; cbn [fold_left unseen].
  { by rewrite app_nil_r. }
  unfold setdefault_key at 2. destruct (bool_decide (x ∈ acc)); [apply IH |].
  rewrite IH. by rewrite <- app_assoc.
Qed.

Lemma unseen_filter l : forall seen,
  unseen seen l = filter (fun y => y ∉ seen) (unseen [] l).
Proof.
  induction l as [| x l IH]; intros seen; [reflexivity |].
  assert (Hnil : unseen [] (x :: l) = x :: unseen [x] l).
  { cbn [unseen]. by rewrite bool_decide_eq_false_2 by apply not_elem_of_nil. }
  rewrite Hnil. cbn [unseen].
  rewrite filter_cons. rewrite (IH [x]). rewrite list_filter_filter.
  destruct (decide (x ∈ seen)) as [Hin | Hout].
  - rewrite bool_decide_eq_true_2 by done. rewrite decide_False by (intros H; by apply H).
    rewrite IH. apply list_filter_iff. intros y. split; [| tauto].
    intros Hy. split; [done |]. cbn. rewrite list_elem_of_singleton. by intros ->.
  - rewrite bool_decide_eq_false_2 by done. rewrite decide_True by done. f_equal.
    rewrite IH. apply list_filter_iff. intros y. cbn.
    rewrite elem_of_app, list_elem_of_singleton. tauto.
Qed.

(** [dict.fromkeys] keeps a key at its first place and drops it later. *)
Lemma fromkeys_cons x l :
  fromkeys (x :: l) = x :: filter (fun y => y <> x) (fromkeys l).
Proof.
  unfold fromkeys. cbn [fold_left]. unfold setdefault_key at 2.
  rewrite bool_decide_eq_false_2 by apply not_elem_of_nil.
  rewrite !fold_setdefault_key. cbn [app]. f_equal.
  rewrite unseen_filter. apply list_filter_iff. intros y.
  by rewrite list_elem_of_singleton.
Qed.

Lemma fromkeys_elem_of l x : x ∈ fromkeys l <-> x ∈ l.
Proof.
  induction l as [| y l IH]; [reflexivity |].
  rewrite fromkeys_cons, !elem_of_cons, list_elem_of_filter, IH.
  destruct (decide (x = y)); tauto.
Qed.

Lemma fromkeys_NoDup l : NoDup (fromkeys l).
Proof.
  induction l as [| y l IH]; [constructor |].
  rewrite fromkeys_cons. constructor.
  - rewrite list_elem_of_filter. tauto.
  - by apply NoDup_filter.
Qed.

(** A name as the loop cleans it, and the names it keeps. *)
Definition clean_name (name : string) : string :=
  Str.strip (Str.replace "Category:" "" name).

Definition cleaned (names : list string) : list string :=
  filter (fun s => s <> "") (clean_name <$> names).

Lemma cleaned_omap names :
  omap (fun c => let s := clean_category c in
                 if Str.is_empty s then None else Some s) (PStr <$> names)
  = cleaned names.
Proof.
  unfold cleaned. induction names as [| n names IH]; [reflexivity |].
  cbn [fmap list_fmap omap list_omap]. rewrite filter_cons.
  change (clean_category (PStr n)) with (clean_name n). cbv zeta.
  destruct (clean_name n) eqn:Hn; cbn [Str.is_empty].
  - rewrite decide_False by (intros H; by apply H). apply IH.
  - rewrite decide_True by discriminate. f_equal. apply IH.
Qed.

Section CategoriesFacts.

Variable json_loads : string -> option pyval.

#[local] Abbreviation normalize_categories := (normalize_categories json_loads).

Lemma normalize_categories_names raw names :
  decode_raw json_loads raw = PList (PStr <$> names) ->
  normalize_categories raw = Return (fromkeys (cleaned names)).
Proof.
  intros H. unfold UrlSplit.normalize_categories. rewrite H. cbn [Repr.iterate bind Return].
  unfold Return. by rewrite cleaned_omap.
Qed.


End CategoriesFacts.

(** The two inputs of the specification's example. *)
Definition example_json : string :=
  "[" +:+ Str.dquote +:+ "C" +:+ Str.dquote +:+ ","
      +:+ Str.dquote +:+ "Badab War" +:+ Str.dquote +:+ "]".

Definition example_csv : string := "Category:C, Category:Badab War".



(** The example of the specification, for any [json.loads] that decodes
    the first input to the two names and rejects the second. *)
Lemma normalize_categories_example json_loads :
  json_loads example_json = Some (PList [PStr "C"; PStr "Badab War"]) ->
  json_loads example_csv = None ->
  normalize_categories json_loads (PStr example_json) = Return ["C"; "Badab War"] /\
  normalize_categories json_loads (PStr example_csv) = Return ["C"; "Badab War"].
Proof.
  intros Hjson Hcsv. split.
  - apply (normalize_categories_names json_loads _ ["C"; "Badab War"]). cbn. by rewrite Hjson.
  - apply (normalize_categories_names json_loads _ ["Category:C"; " Category:Badab War"]).
    cbn. by rewrite Hcsv.
Qed.



End UrlSplitFacts.

(* ===================================================================== *)
(** * Properties of the pagination crawler *)
(* ===================================================================== *)

Module GetUrlsFacts.

Import GetUrls.

Section Crawl.

Variable params : gmap string pyval.

(** A round of the loop that fails in the [try] block asks again, with
    the same parameters. *)
Lemma page_generator_go_failure cont request e rest :
  merge params cont = Return request ->
  page_generator_go params cont (inl e :: rest) =
    (Request request :: SleepAfterFailure :: fst (page_generator_go params cont rest),
     snd (page_generator_go params cont rest)).
Proof.
  intros H.
  destruct cont; try discriminate.
  cbn in H. injection H as <-.
  cbn [page_generator_go merge Return].
  destruct (page_generator_go params (PDict kvs) rest); reflexivity.
Qed.










End Crawl.








End GetUrlsFacts.

(* ===================================================================== *)
(** * Further properties: strings *)
(* ===================================================================== *)

Module StrFacts.

Import FetchIO.

(** Stripping twice is stripping once. *)
Lemma rstrip_by_idem p s : Str.rstrip_by p (Str.rstrip_by p s) = Str.rstrip_by p s.
Proof.
  induction s as [| c s IH]; [reflexivity |].
  cbn [Str.rstrip_by]. cbv zeta.
  destruct (Str.is_empty (Str.rstrip_by p s) && p c) eqn:H; [reflexivity |].
  cbn [Str.rstrip_by]. cbv zeta. rewrite IH, H. reflexivity.
Qed.

Lemma lstrip_by_fixed p s :
  match s with String c _ => p c = false | EmptyString => True end ->
  Str.lstrip_by p s = s.
Proof. destruct s as [| c s]; [reflexivity |]. cbn. by intros ->. Qed.

Lemma lstrip_by_stops p s :
  match Str.lstrip_by p s with String c _ => p c = false | EmptyString => True end.
Proof.
  induction s as [| c s IH]; [exact I |].
  cbn. destruct (p c) eqn:H; [exact IH | exact H].
Qed.

Lemma rstrip_by_keeps_head p s :
  match s with String c _ => p c = false | EmptyString => True end ->
  match Str.rstrip_by p s with String c _ => p c = false | EmptyString => True end.
Proof.
  destruct s as [| c s]; [exact id |].
  cbn [Str.rstrip_by]. cbv zeta. intros H. rewrite H, andb_false_r. exact H.
Qed.

Lemma strip_by_idem p s : Str.strip_by p (Str.strip_by p s) = Str.strip_by p s.
Proof.
  unfold Str.strip_by.
  rewrite (lstrip_by_fixed p (Str.rstrip_by p (Str.lstrip_by p s))).
  - apply rstrip_by_idem.
  - apply rstrip_by_keeps_head, lstrip_by_stops.
Qed.

Lemma strip_idem s : Str.strip (Str.strip s) = Str.strip s.
Proof. apply strip_by_idem. Qed.

Lemma all_chars_app p s t : all_chars p (s +:+ t) = all_chars p s && all_chars p t.
Proof.
  induction s as [| c s IH]; [reflexivity |].
  change (String c s +:+ t) with (String c (s +:+ t)). cbn [all_chars].
  by rewrite IH, andb_assoc.
Qed.

Lemma all_chars_lstrip_by p q s :
  all_chars p s = true -> all_chars p (Str.lstrip_by q s) = true.
Proof.
  induction s as [| c s IH]; [done |].
  cbn [all_chars Str.lstrip_by]. intros [Hc Hs]%andb_true_iff.
  destruct (q c); [by apply IH |]. cbn [all_chars]. by rewrite Hc, Hs.
Qed.

Lemma all_chars_rstrip_by p q s :
  all_chars p s = true -> all_chars p (Str.rstrip_by q s) = true.
Proof.
  induction s as [| c s IH]; [done |].
  cbn [all_chars Str.rstrip_by]. cbv zeta. intros [Hc Hs]%andb_true_iff.
  destruct (_ && q c); [reflexivity |]. cbn [all_chars]. by rewrite Hc, IH.
Qed.

Lemma all_chars_strip_by p q s :
  all_chars p s = true -> all_chars p (Str.strip_by q s) = true.
Proof. intros H. by apply all_chars_rstrip_by, all_chars_lstrip_by. Qed.

Lemma all_chars_impl (p q : ascii -> bool) s :
  (forall c, p c = true -> q c = true) -> all_chars p s = true -> all_chars q s = true.
Proof.
  intros Hpq. induction s as [| c s IH]; [done |].
  cbn [all_chars]. intros [Hc Hs]%andb_true_iff. by rewrite (Hpq c Hc), IH.
Qed.

(** Nothing is stripped from a string without characters of the class. *)
Lemma rstrip_by_none p s :
  all_chars (fun c => negb (p c)) s = true -> Str.rstrip_by p s = s.
Proof.
  induction s as [| c s IH]; [done |].
  cbn [all_chars Str.rstrip_by]. cbv zeta. intros [Hc Hs]%andb_true_iff.
  rewrite (IH Hs). apply negb_true_iff in Hc. by rewrite Hc, andb_false_r.
Qed.

Lemma strip_by_none p s :
  all_chars (fun c => negb (p c)) s = true -> Str.strip_by p s = s.
Proof.
  intros H. unfold Str.strip_by. rewrite lstrip_by_fixed.
  - by apply rstrip_by_none.
  - destruct s as [| c s]; [exact I |]. cbn in H.
    apply andb_true_iff in H as [Hc _]. by apply negb_true_iff in Hc.
Qed.

(** A test that holds of the ten digits holds of every number below ten. *)
Lemma below_ten (p : N -> bool) :
  forallb p (List.map N.of_nat (seq 0 10)) = true ->
  forall n, (n < 10)%N -> p n = true.
Proof.
  intros Hall n Hn. rewrite forallb_forall in Hall. apply Hall.
  apply in_map_iff. exists (N.to_nat n). split; [apply N2Nat.id |].
  apply in_seq. lia.
Qed.

End StrFacts.

(* ===================================================================== *)
(** * Further properties of the fetch scripts *)
(* ===================================================================== *)

Module FetchMoreFacts.

Import Fetch FetchFacts.

(** ** Bounds of one call *)

Lemma attempts_counts w todo : forall b,
  (length (gets (fst (attempts w todo b))) <= length todo)%nat /\
  match snd (attempts w todo b) with
  | inr _ =>
      length (gets (fst (attempts w todo b)))
      = S (length (backoffs (fst (attempts w todo b))))
  | inl _ =>
      length (gets (fst (attempts w todo b)))
      = length (backoffs (fst (attempts w todo b)))
  end.
Proof.
  induction todo as [| a rest IH]; intros b; [split; reflexivity |].
  rewrite attempts_classify.
  destruct (classify (outcome w a)) as [data | | | | e]; cbn [fst snd];
    rewrite ?gets_cons_get, ?gets_cons_sleep, ?backoffs_cons_get, ?backoffs_cons_sleep;
    cbn [length].
  - split; [cbn; lia | reflexivity].
  - destruct (IH (b * 2)) as [H1 H2]. split; [lia |].
    destruct (snd (attempts w rest (b * 2))); lia.
  - destruct (IH (Z.min (b * 2) 60)) as [H1 H2]. split; [lia |].
    destruct (snd (attempts w rest (Z.min (b * 2) 60))); lia.
  - destruct (IH (Z.min (b * 2) 60)) as [H1 H2]. split; [lia |].
    destruct (snd (attempts w rest (Z.min (b * 2) 60))); lia.
  - destruct (Nat.eqb a MAX_RETRIES); cbn [fst snd];
      rewrite ?gets_cons_get, ?gets_cons_sleep, ?backoffs_cons_get, ?backoffs_cons_sleep;
      cbn [length].
    + split; [cbn; lia | reflexivity].
    + destruct (IH (Z.min (b * 2) 60)) as [H1 H2]. split; [lia |].
      destruct (snd (attempts w rest (Z.min (b * 2) 60))); lia.
Qed.

Definition total (l : list Z) : Z := fold_right Z.add 0 l.

Lemma total_prefix_shape l sixth :
  (sixth = 60 \/ sixth = 64) -> l `prefix_of` [2; 4; 8; 16; 32; sixth] -> 0 <= total l <= 126.
Proof.
  intros Hs [k Hk].
  do 7 (destruct l as [| ? l]; [cbn in Hk; simplify_eq; cbn; lia |]).
  discriminate.
Qed.

(** X3: one call of [fetch_with_backoff] makes at most six requests; it
    sleeps once after every attempt that did not return, the last one
    before a raise included, so a call that returns has slept one time
    less than it has asked and a call that raises as often as it has
    asked; the backoffs it sleeps add up to 126 seconds at most. *)
Theorem fetch_with_backoff_effort w :
  (1 <= length (gets (fst (fetch_with_backoff w))) <= 6)%nat /\
  match snd (fetch_with_backoff w) with
  | inr _ =>
      length (gets (fst (fetch_with_backoff w)))
      = S (length (backoffs (fst (fetch_with_backoff w))))
  | inl _ =>
      length (gets (fst (fetch_with_backoff w)))
      = length (backoffs (fst (fetch_with_backoff w)))
  end /\
  0 <= total (backoffs (fst (fetch_with_backoff w))) <= 126.
Proof.
  destruct (attempts_counts w (seq 1 MAX_RETRIES) INITIAL_BACKOFF) as [H1 H2].
  split; [| split].
  - split; [| exact H1].
    unfold fetch_with_backoff, MAX_RETRIES. cbn [seq]. rewrite attempts_classify.
    destruct (classify (outcome w 1)); cbn [fst]; try (cbn; lia).
  - exact H2.
  - destruct (doubling_shape (backoffs (fst (fetch_with_backoff w)))) as (sixth & Hs & Hp).
    + apply attempts_doubling.
    + apply (backoffs_length w (seq 1 MAX_RETRIES) INITIAL_BACKOFF).
    + by apply total_prefix_shape with sixth.
Qed.

End FetchMoreFacts.

(* ===================================================================== *)
(** * The two converters side by side *)
(* ===================================================================== *)

Module ConverterFacts.

Import Fetch.

(** Induction over a tree with the property for all children. *)
Lemma node_induction (P : node -> Prop) :
  (forall s, P (NavigableString s)) ->
  P OtherElement ->
  (forall name attrs children, Forall P children -> P (Tag name attrs children)) ->
  forall n, P n.
Proof.
  intros Hs Ho Ht. fix IH 1. intros [s | name attrs children |].
  - apply Hs.
  - apply Ht. induction children as [| c children IHc]; constructor; [apply IH | exact IHc].
  - apply Ho.
Qed.

(** A tree with a [br] element somewhere. *)
Fixpoint has_br (n : node) : bool :=
  match n with
  | Tag name _ children => String.eqb (Str.lower name) "br" || existsb has_br children
  | _ => false
  end.

(** The texts of the direct [li] children, as a converter [f] gives them. *)
Definition li_texts (f : node -> string) (children : list node) : list string :=
  omap (fun li => match li with
                  | Tag li_name _ li_children =>
                      if String.eqb li_name "li"
                      then Some (Str.strip (Str.concat (List.map f li_children)))
                      else None
                  | _ => None
                  end) children.

Section Agreement.

Variable get_text : node -> string.

#[local] Abbreviation v2 := (Fetch.node_to_markdown get_text).
#[local] Abbreviation v3 := (FetchV3.node_to_markdown get_text).

Lemma inner_agrees children :
  Forall (fun n => has_br n = false -> v3 n = v2 n) children ->
  existsb has_br children = false ->
  List.map v3 children = List.map v2 children.
Proof.
  induction 1 as [| c children Hc _ IH]; [reflexivity |].
  cbn [existsb List.map]. intros [Hbr Hrest]%orb_false_elim.
  by rewrite (Hc Hbr), (IH Hrest).
Qed.

Lemma li_texts_agree children :
  Forall (fun n => has_br n = false -> v3 n = v2 n) children ->
  existsb has_br children = false ->
  li_texts v3 children = li_texts v2 children.
Proof.
  induction 1 as [| c children Hc _ IH]; [reflexivity |].
  cbn [existsb]. intros [Hbr Hrest]%orb_false_elim.
  unfold li_texts in *. cbn [omap list_omap]. rewrite (IH Hrest).
  destruct c as [s | name attrs grandchildren |]; [reflexivity | | reflexivity].
  destruct (String.eqb_spec name "li") as [-> | Hne]; [| reflexivity].
  specialize (Hc Hbr).
  change (v3 (Tag "li" attrs grandchildren)) with (Str.concat (List.map v3 grandchildren)) in Hc.
  change (v2 (Tag "li" attrs grandchildren)) with (Str.concat (List.map v2 grandchildren)) in Hc.
  by rewrite Hc.
Qed.

(** X4: the converters of the two scripts give the same text for every
    tree without a [br] element; they differ only in that the v3 script
    has no rule for [br] (its rule for [li] is the default one). *)
Theorem node_to_markdown_versions_agree n :
  has_br n = false -> v3 n = v2 n.
Proof.
  induction n as [s | | name attrs children IH] using node_induction;
    [reflexivity | reflexivity |].
  cbn [has_br]. intros [Hname Hbr]%orb_false_elim.
  pose proof (inner_agrees children IH Hbr) as Hinner.
  pose proof (li_texts_agree children IH Hbr) as Hli.
  unfold li_texts in Hli.
  cbn [Fetch.node_to_markdown FetchV3.node_to_markdown]. cbv zeta.
  rewrite Hinner, Hli, Hname.
  destruct (heading_level (Str.lower name)); [reflexivity |].
  destruct (String.eqb (Str.lower name) "p"); [reflexivity |].
  destruct (String.eqb (Str.lower name) "ul" || String.eqb (Str.lower name) "ol");
    [reflexivity |].
  destruct (String.eqb_spec (Str.lower name) "li") as [E | _]; [rewrite E |]; reflexivity.
Qed.

End Agreement.

(** An ordered list whose second item has no text. *)
Definition three_items : node :=
  Tag "ol" [] [Tag "li" [] [NavigableString "one"]; Tag "li" [] [Tag "b" [] []];
               Tag "li" [] [NavigableString "three"]].

Lemma node_to_markdown_versions_agree_witness :
  FetchV3.node_to_markdown (fun _ => "") three_items
  = "1. one" +:+ Str.nl +:+ "3. three" +:+ Str.nl +:+ Str.nl.
Proof.
  rewrite (node_to_markdown_versions_agree (fun _ => "") three_items eq_refl). reflexivity.
Defined.

(** The two converters on a [br] element. *)
Lemma node_to_markdown_br_differs get_text :
  Fetch.node_to_markdown get_text (Tag "br" [] []) = Str.nl /\
  FetchV3.node_to_markdown get_text (Tag "br" [] []) = "".
Proof. split; reflexivity. Qed.

End ConverterFacts.

(* ===================================================================== *)
(** * Identifiers and paths of the fetch scripts *)
(* ===================================================================== *)

Module FetchIOFacts.

Import FetchIO StrFacts.

(** ** [coerce_int] *)

Definition no_digit (s : string) : bool := all_chars (fun c => negb (is_digit c)) s.

Lemma first_digits_none s : first_digits s = None <-> no_digit s = true.
Proof.
  unfold no_digit. induction s as [| c s IH]; [done |].
  cbn [first_digits all_chars]. destruct (is_digit c); cbn [negb andb]; [done | exact IH].
Qed.

Lemma int_unsigned_digit s z :
  int_unsigned s = Some z -> no_digit s = false.
Proof.
  destruct s as [| c s]; [discriminate |].
  unfold int_unsigned, no_digit. cbn [all_chars].
  destruct (is_digit c); [reflexivity | discriminate].
Qed.

Lemma no_digit_cons c s : no_digit (String c s) = true -> no_digit s = true.
Proof. unfold no_digit. cbn [all_chars]. by intros [_ H]%andb_true_iff. Qed.

Lemma py_int_digit s z : py_int s = Some z -> no_digit s = false.
Proof.
  intros H. destruct (no_digit s) eqn:Hs; [| reflexivity]. exfalso.
  assert (Hl : no_digit (Str.lstrip_by int_space s) = true)
    by (by apply all_chars_lstrip_by).
  unfold py_int in H.
  assert (Hu : forall t, no_digit t = true -> int_unsigned t = None).
  { intros t Ht. destruct (int_unsigned t) eqn:E; [| reflexivity].
    apply int_unsigned_digit in E. congruence. }
  destruct (Str.lstrip_by int_space s) as [| c t] eqn:El; [discriminate |].
  pose proof (no_digit_cons _ _ Hl) as Ht.
  destruct (Ascii.eqb_spec c "-") as [-> | Hm].
  { rewrite (Hu t Ht) in H. discriminate. }
  destruct (Ascii.eqb_spec c "+") as [-> | Hp].
  { rewrite (Hu t Ht) in H. discriminate. }
  assert (py : int_unsigned (String c t) = Some z).
  { destruct c as [[] [] [] [] [] [] [] []]; try exact H; congruence. }
  rewrite (Hu _ Hl) in py. discriminate.
Qed.

(** A run of digits is a literal. *)
Lemma int_digits_run s : forall acc,
  all_chars is_digit s = true -> exists z, int_digits acc s = Some z.
Proof.
  induction s as [| c s IH]; intros acc; [by eexists |].
  cbn [all_chars int_digits]. intros [-> Hs]%andb_true_iff. by apply IH.
Qed.

Lemma digit_not_space_or_sign c :
  is_digit c = true ->
  int_space c = false /\ Ascii.eqb c "-" = false /\ Ascii.eqb c "+" = false.
Proof. destruct c as [[] [] [] [] [] [] [] []]; try discriminate; by intros _. Qed.

Lemma py_int_run c s :
  all_chars is_digit (String c s) = true ->
  (count_digits (String c s) <= max_str_digits)%nat ->
  exists z, py_int (String c s) = Some z.
Proof.
  intros Hall Hcount. pose proof Hall as Hc. cbn [all_chars] in Hc.
  apply andb_true_iff in Hc as [Hc _].
  destruct (digit_not_space_or_sign c Hc) as (Hsp & Hm & Hp).
  unfold py_int. rewrite lstrip_by_fixed by exact Hsp.
  assert (E : int_unsigned (String c s) = int_digits 0 (String c s)).
  { unfold int_unsigned. rewrite Hc. by rewrite (proj2 (Nat.leb_le _ _) Hcount). }
  destruct (int_digits_run (String c s) 0 Hall) as (z & Hz). exists z.
  rewrite <- Hz, <- E.
  destruct c as [[] [] [] [] [] [] [] []]; try discriminate Hm; try discriminate Hp;
    reflexivity.
Qed.

Lemma leading_digits_run s :
  all_chars is_digit (leading_digits s) = true /\
  (count_digits (leading_digits s) <= count_digits s)%nat.
Proof.
  induction s as [| c s [IH1 IH2]]; [done |].
  cbn [leading_digits count_digits]. destruct (is_digit c) eqn:Hc; [| split; [done | cbn; lia]].
  cbn [all_chars count_digits]. rewrite Hc, IH1. split; [done | lia].
Qed.

Lemma first_digits_run s run :
  first_digits s = Some run ->
  exists c r, run = String c r /\ all_chars is_digit run = true /\
              (count_digits run <= count_digits s)%nat.
Proof.
  induction s as [| c s IH]; [discriminate |].
  cbn [first_digits]. destruct (is_digit c) eqn:Hc.
  - intros [= <-]. pose proof (leading_digits_run (String c s)) as [H1 H2].
    revert H1 H2. cbn [leading_digits]. rewrite Hc. intros H1 H2. by eexists _, _.
  - intros H. destruct (IH H) as (c' & r & -> & Hall & Hcount).
    exists c', r. split; [done |]. split; [done |].
    cbn [count_digits] in *. rewrite Hc. lia.
Qed.

(** X5: for a text of at most 4300 digits, [coerce_int] raises exactly
    when the text holds no decimal digit, and then [ValueError];
    otherwise it returns an integer: the literal that [int] reads in the
    text without its white space and quotes around, or else the first
    run of digits. *)
Theorem coerce_int_raises_iff s :
  (count_digits s <= max_str_digits)%nat ->
  if no_digit s then coerce_int s = Raise ValueError
  else exists z, coerce_int s = Return z.
Proof.
  intros Hcount. unfold coerce_int.
  set (unquoted := Str.strip_by _ (Str.strip_by _ (Str.strip s))).
  destruct (no_digit s) eqn:Hs.
  - assert (Hu : no_digit unquoted = true).
    { unfold unquoted, Str.strip. by do 3 apply all_chars_strip_by. }
    destruct (py_int unquoted) as [z |] eqn:Hp.
    { apply py_int_digit in Hp. congruence. }
    apply first_digits_none in Hs. by rewrite Hs.
  - destruct (py_int unquoted) as [z |]; [by exists z |].
    destruct (first_digits s) as [run |] eqn:Hf.
    + destruct (first_digits_run s run Hf) as (c & r & -> & Hall & Hrun).
      destruct (py_int_run c r Hall) as (z & ->); [lia | by exists z].
    + apply first_digits_none in Hf. congruence.
Qed.

Lemma coerce_int_raises_iff_witness :
  coerce_int "page" = Raise ValueError /\ exists z, coerce_int "id 40_000 (old 7)" = Return z.
Proof.
  split.
  - apply (coerce_int_raises_iff "page"). apply Nat.leb_le. vm_compute. reflexivity.
  - apply (coerce_int_raises_iff "id 40_000 (old 7)"). apply Nat.leb_le. vm_compute.
    reflexivity.
Defined.

(** Decimal numerals, as [str] writes them and [int] reads them. *)
Lemma digit_char n :
  (n < 10)%N ->
  is_digit (pretty_N_char n) = true /\ digit_value (pretty_N_char n) = Z.of_N n.
Proof.
  intros H.
  pose proof (below_ten
    (fun d => is_digit (pretty_N_char d) && (digit_value (pretty_N_char d) =? Z.of_N d))
    eq_refl n H) as Hd.
  apply andb_true_iff in Hd as [Hd Hv]. split; [exact Hd | by apply Z.eqb_eq].
Qed.

Lemma int_digits_pretty x : forall s,
  int_digits 0 (pretty_N_go x s) = int_digits (Z.of_N x) s.
Proof.
  induction (N.lt_wf_0 x) as [x _ IH]; intros s.
  destruct (decide (x = 0%N)) as [-> | Hx]; [reflexivity |].
  rewrite pretty_N_go_step by lia.
  rewrite IH by (apply N.div_lt; lia).
  destruct (digit_char (x `mod` 10)) as [Hd Hv]; [by apply N.mod_lt |].
  cbn [int_digits]. rewrite Hd, Hv. f_equal.
  assert (E : x = (10 * (x `div` 10) + x `mod` 10)%N) by (by apply N.div_mod).
  revert E. generalize (x `div` 10)%N (x `mod` 10)%N. intros q r E. lia.
Qed.

Lemma pretty_N_go_head x : forall s,
  (0 < x)%N -> exists c r, pretty_N_go x s = String c r /\ is_digit c = true.
Proof.
  induction (N.lt_wf_0 x) as [x _ IH]; intros s Hx.
  rewrite pretty_N_go_step by done.
  destruct (digit_char (x `mod` 10)) as [Hd _]; [by apply N.mod_lt |].
  destruct (decide (x `div` 10 = 0)%N) as [-> | Hq].
  - rewrite pretty_N_go_0. by eexists _, _.
  - apply IH; [apply N.div_lt; lia | by apply N.neq_0_lt_0].
Qed.

Lemma pretty_N_head (x : N) : exists c r, pretty x = String c r /\ is_digit c = true.
Proof.
  unfold pretty, pretty_N. destruct (decide (x = 0%N)) as [-> | Hx].
  - by exists "0"%char, "".
  - apply pretty_N_go_head. lia.
Qed.

(** A number below [10 ^ n] is written with [n] digits at most. *)
Lemma count_digits_pretty_N_go : forall (n : nat) x s,
  (x < 10 ^ N.of_nat n)%N ->
  (count_digits (pretty_N_go x s) <= n + count_digits s)%nat.
Proof.
  induction n as [| n IH]; intros x s Hx.
  - assert (x = 0%N) as -> by (cbn in Hx; lia). rewrite pretty_N_go_0. lia.
  - destruct (decide (x = 0%N)) as [-> | Hne]; [rewrite pretty_N_go_0; lia |].
    rewrite pretty_N_go_step by lia.
    assert (Hq : (x `div` 10 < 10 ^ N.of_nat n)%N).
    { apply N.Div0.div_lt_upper_bound.
      rewrite Nat2N.inj_succ, N.pow_succ_r' in Hx. exact Hx. }
    specialize (IH _ (String (pretty_N_char (x `mod` 10)) s) Hq).
    cbn [count_digits] in IH.
    destruct (is_digit _) in IH; lia.
Qed.

Lemma count_digits_pretty (n : nat) (x : N) :
  (x < 10 ^ N.of_nat n)%N -> (1 <= n)%nat -> (count_digits (pretty x) <= n)%nat.
Proof.
  intros Hx Hn. unfold pretty, pretty_N.
  destruct (decide (x = 0%N)); [change (count_digits "0") with 1%nat; lia |].
  pose proof (count_digits_pretty_N_go n x "" Hx) as H. cbn [count_digits] in H. lia.
Qed.

Lemma int_unsigned_pretty (x : N) :
  (x < 10 ^ N.of_nat max_str_digits)%N -> int_unsigned (pretty x) = Some (Z.of_N x).
Proof.
  intros Hx. destruct (pretty_N_head x) as (c & r & E & Hc).
  assert (Hcount : (count_digits (pretty x) <= max_str_digits)%nat).
  { apply count_digits_pretty; [exact Hx | unfold max_str_digits; lia]. }
  unfold int_unsigned. rewrite E, Hc, <- E.
  rewrite (proj2 (Nat.leb_le _ _) Hcount). cbn [andb].
  unfold pretty, pretty_N. destruct (decide (x = 0%N)) as [-> | Hne]; [reflexivity |].
  by rewrite int_digits_pretty.
Qed.

Lemma pretty_N_go_chars (p : ascii -> bool) x : forall s,
  (forall n, (n < 10)%N -> p (pretty_N_char n) = true) ->
  all_chars p s = true -> all_chars p (pretty_N_go x s) = true.
Proof.
  induction (N.lt_wf_0 x) as [x _ IH]; intros s Hp Hs.
  destruct (decide (x = 0%N)) as [-> | Hx]; [exact Hs |].
  rewrite pretty_N_go_step by lia. apply IH; [apply N.div_lt; lia | exact Hp |].
  cbn [all_chars]. rewrite Hs, Hp; [reflexivity | by apply N.mod_lt].
Qed.

Definition numeral_char (c : ascii) : bool := is_digit c || Ascii.eqb c "-".

Lemma of_Z_chars z : all_chars numeral_char (Str.of_Z z) = true.
Proof.
  assert (HN : forall x : N, all_chars numeral_char (pretty x) = true).
  { intros x. unfold pretty, pretty_N. destruct (decide (x = 0%N)); [reflexivity |].
    apply pretty_N_go_chars; [| reflexivity].
    intros d Hd. unfold numeral_char. by rewrite (proj1 (digit_char d Hd)). }
  unfold Str.of_Z, pretty, pretty_Z. destruct z as [| p | p]; [reflexivity | apply HN |].
  change ("-" +:+ pretty p) with (String "-" (pretty (Npos p))).
  cbn [all_chars]. unfold pretty, pretty_positive. by rewrite HN.
Qed.

Lemma numeral_char_not (p : ascii -> bool) :
  (forall c, numeral_char c = true -> p c = false) ->
  forall z, Str.strip_by p (Str.of_Z z) = Str.of_Z z.
Proof.
  intros Hp z. apply strip_by_none.
  apply all_chars_impl with numeral_char; [| apply of_Z_chars].
  intros c Hc. by rewrite (Hp c Hc).
Qed.

Lemma numeral_char_cases (p : ascii -> bool) :
  p "0"%char = false -> p "1"%char = false -> p "2"%char = false -> p "3"%char = false ->
  p "4"%char = false -> p "5"%char = false -> p "6"%char = false -> p "7"%char = false ->
  p "8"%char = false -> p "9"%char = false -> p "-"%char = false ->
  forall c, numeral_char c = true -> p c = false.
Proof.
  intros ? ? ? ? ? ? ? ? ? ? ? c.
  destruct c as [[] [] [] [] [] [] [] []]; try discriminate; intros _; assumption.
Qed.

Lemma py_int_of_Z z :
  Z.abs z < 10 ^ Z.of_nat max_str_digits -> py_int (Str.of_Z z) = Some z.
Proof.
  intros Hz.
  assert (HN : forall p, Z.abs z = Z.pos p -> (Npos p < 10 ^ N.of_nat max_str_digits)%N).
  { intros p Hp. rewrite Hp in Hz. apply N2Z.inj_lt.
    rewrite N2Z.inj_pow, nat_N_Z. exact Hz. }
  unfold py_int. rewrite lstrip_by_fixed.
  2: { pose proof (of_Z_chars z) as H. destruct (Str.of_Z z) as [| c r]; [exact I |].
       cbn in H. apply andb_true_iff in H as [Hc _]. revert Hc.
       by apply numeral_char_cases. }
  unfold Str.of_Z, pretty, pretty_Z. destruct z as [| p | p]; [reflexivity | |].
  - pose proof (int_unsigned_pretty (Npos p) (HN p eq_refl)) as H.
    destruct (pretty_N_head (Npos p)) as (c & r & E & Hc).
    unfold pretty at 1, pretty_positive. rewrite E in *.
    destruct c as [[] [] [] [] [] [] [] []]; try discriminate Hc; exact H.
  - change ("-" +:+ pretty p) with (String "-" (pretty (Npos p))). cbv beta iota.
    by rewrite (int_unsigned_pretty (Npos p) (HN p eq_refl)).
Qed.

(** X6: [coerce_int] reads back every integer from its decimal text, as
    long as the text stays within the 4300 digits [int] converts. *)
Theorem coerce_int_of_Z z :
  Z.abs z < 10 ^ Z.of_nat max_str_digits -> coerce_int (Str.of_Z z) = Return z.
Proof.
  intros Hz. unfold coerce_int, Str.strip.
  rewrite !numeral_char_not by (by apply numeral_char_cases).
  by rewrite py_int_of_Z.
Qed.

Lemma coerce_int_of_Z_witness : coerce_int (Str.of_Z (-40000)) = Return (-40000).
Proof. apply coerce_int_of_Z. vm_compute. reflexivity. Defined.

(** ** Paths *)

(** The digits a string starts with. *)
Fixpoint digits_prefix (s : string) : string :=
  match s with
  | String c s' => if is_digit c then String c (digits_prefix s') else EmptyString
  | EmptyString => EmptyString
  end.

(** The numeral a string starts with: a minus sign, if any, and digits. *)
Definition numeral_prefix (s : string) : string :=
  match s with
  | String "-" s' => String "-" (digits_prefix s')
  | _ => digits_prefix s
  end.

Lemma pretty_N_go_app x : forall s t, pretty_N_go x s +:+ t = pretty_N_go x (s +:+ t).
Proof.
  induction (N.lt_wf_0 x) as [x _ IH]; intros s t.
  destruct (decide (x = 0%N)) as [-> | Hx]; [reflexivity |].
  rewrite (pretty_N_go_step x s), (pretty_N_go_step x (s +:+ t)) by lia.
  rewrite IH by (apply N.div_lt; lia). reflexivity.
Qed.

Lemma digits_prefix_pretty_N_go x : forall s,
  digits_prefix (pretty_N_go x s) = pretty_N_go x (digits_prefix s).
Proof.
  induction (N.lt_wf_0 x) as [x _ IH]; intros s.
  destruct (decide (x = 0%N)) as [-> | Hx]; [reflexivity |].
  rewrite (pretty_N_go_step x s), (pretty_N_go_step x (digits_prefix s)) by lia.
  rewrite IH by (apply N.div_lt; lia).
  cbn [digits_prefix]. assert (Hd : (x `mod` 10 < 10)%N) by (by apply N.mod_lt).
  by rewrite (proj1 (digit_char _ Hd)).
Qed.

Lemma digits_prefix_pretty (x : N) r :
  digits_prefix (pretty x +:+ "-" +:+ r) = pretty x.
Proof.
  unfold pretty, pretty_N. destruct (decide (x = 0%N)) as [-> | Hx]; [reflexivity |].
  rewrite pretty_N_go_app, digits_prefix_pretty_N_go. reflexivity.
Qed.

Lemma numeral_prefix_of_Z z r : numeral_prefix (Str.of_Z z +:+ "-" +:+ r) = Str.of_Z z.
Proof.
  destruct z as [| p | p]; [reflexivity | |].
  - change (Str.of_Z (Z.pos p)) with (pretty (Npos p)).
    pose proof (digits_prefix_pretty (Npos p) r) as H.
    destruct (pretty_N_head (Npos p)) as (c & t & E & Hc).
    rewrite E in *.
    change (String c t +:+ "-" +:+ r) with (String c (t +:+ "-" +:+ r)) in *.
    unfold numeral_prefix.
    destruct c as [[] [] [] [] [] [] [] []]; try discriminate Hc; exact H.
  - change (Str.of_Z (Z.neg p)) with (String "-" (pretty (Npos p))).
    change (String "-" (pretty (Npos p)) +:+ "-" +:+ r)
      with (String "-" (pretty (Npos p) +:+ "-" +:+ r)).
    unfold numeral_prefix. by rewrite digits_prefix_pretty.
Qed.

(** X7: the paths [write_markdown] writes to for two page identifiers
    that differ are different, whatever the titles and whatever
    [slugify] makes of them: pages do not overwrite each other. *)
Theorem markdown_path_distinct (slugify : string -> string) id1 title1 id2 title2 :
  id1 <> id2 ->
  markdown_path slugify id1 title1 <> markdown_path slugify id2 title2.
Proof.
  unfold markdown_path. intros Hid H. apply Hid.
  apply (inj (String.app OUT_DIR)), (inj (String.app "/")) in H.
  apply (f_equal numeral_prefix) in H.
  change ("--" +:+ ?x) with ("-" +:+ "-" +:+ x) in H.
  rewrite !numeral_prefix_of_Z in H.
  by apply (inj pretty) in H.
Qed.

Lemma markdown_path_distinct_witness :
  12 <> 1 /\ markdown_path (fun s => s) 12 "a" <> markdown_path (fun s => s) 1 "2--a".
Proof. split; [lia | apply markdown_path_distinct; lia]. Defined.

End FetchIOFacts.
(* ===================================================================== *)
(** * Facts about the driver of [url_split.py] *)
(* ===================================================================== *)

Module UrlSplitDriverFacts.

Import UrlSplit UrlSplitFacts UrlSplitDriver.

Section Files.

Variable nfkd_no_combining : string -> string.
Variable w : site.

#[local] Abbreviation process_page := (process_page nfkd_no_combining w).
#[local] Abbreviation process_loop := (process_loop nfkd_no_combining w).

(** A name [process] writes to is a candidate that [taken] did not hold
    before and holds afterwards. *)
Definition fresh_in (taken final : gset string) (fname : string) : Prop :=
  exists candidate, fname = candidate +:+ ".md" /\ (candidate ∉ taken) /\ candidate ∈ final.

Lemma process_page_taken idx p taken :
  taken ⊆ (process_page idx p taken).2 /\
  match (process_page idx p taken).1 with
  | inr (fname, _) => fresh_in taken (process_page idx p taken).2 fname
  | inl _ => True
  end.
Proof.
  unfold UrlSplitDriver.process_page.
  destruct (fetch_parse _); [done |].
  destruct (clean_pagecontent _); [done |].
  destruct (mkdir_error _ _); [done |].
  unfold write_doc.
  match goal with |- context [safe_filename _ ?t _ _] =>
    destruct (safe_filename_spec nfkd_no_combining t taken ".md")
      as (k & _ & -> & Hfree & _)
  end.
  destruct (write_error _ _); cbn [fst snd]; (split; [set_solver |]); [done |].
  eexists. split; [reflexivity |]. split; [done | set_solver].
Qed.

Lemma process_loop_written : forall pages idx taken,
  taken ⊆ (process_loop idx pages taken).2 /\
  NoDup (written (process_loop idx pages taken).1) /\
  forall fname, fname ∈ written (process_loop idx pages taken).1 ->
    fresh_in taken (process_loop idx pages taken).2 fname.
Proof.
  induction pages as [| p pages IH]; intros idx taken.
  { cbn. split; [done |]. split; [constructor |]. intros f Hf. by apply elem_of_nil in Hf. }
  cbn [UrlSplitDriver.process_loop].
  pose proof (process_page_taken idx p taken) as [Hsub Hr].
  destruct (process_page idx p taken) as [r taken'] eqn:Hp. cbn [fst snd] in Hsub, Hr.
  specialize (IH (S idx) taken') as (Hsub' & Hnd & Hfresh).
  destruct (process_loop (S idx) pages taken') as [reports final] eqn:Hl.
  cbn [fst snd] in *.
  split; [set_solver |].
  assert (Hrest : forall f, f ∈ written reports -> fresh_in taken final f).
  { intros f Hf. destruct (Hfresh f Hf) as (c & -> & Hc & Hc').
    exists c. split; [done |]. split; [set_solver | done]. }
  destruct r as [e | [fname content]]; cbn [written omap list_omap]; [by split |].
  destruct Hr as (c & -> & Hc & Hc').
  split.
  - constructor; [| done]. intros Hin.
    destruct (Hfresh _ Hin) as (c' & E & Hc'' & _).
    apply app_inv_tail in E. by subst c'.
  - intros f [-> | Hf]%elem_of_cons; [| by apply Hrest].
    exists c. split; [done |]. split; [done | set_solver].
Qed.

(** What [process] reports for a page, from how its round ends. *)
Definition report_of (p : PageInput) (r : outcome (string * string)) : report :=
  match r with
  | inr (fname, content) => WroteFile fname content
  | inl e => PageError (in_fullurl p) e
  end.

(** The report at a position is that of the round of the page there. *)
Lemma process_loop_lookup : forall pages idx taken i p,
  pages !! i = Some p ->
  exists taken_i,
    (process_loop idx pages taken).1 !! i
    = Some (report_of p (process_page (idx + i) p taken_i).1).
Proof.
  induction pages as [| q pages IH]; intros idx taken i p Hp; [done |].
  cbn [UrlSplitDriver.process_loop].
  destruct (process_page idx q taken) as [r taken'] eqn:Hq.
  specialize (IH (S idx) taken').
  destruct (process_loop (S idx) pages taken') as [reports final].
  destruct i as [| i]; cbn [fst] in *.
  - injection Hp as ->. exists taken. rewrite Nat.add_0_r, Hq. cbn. by destruct r as [| []].
  - destruct (IH i p Hp) as (taken_i & Hi). exists taken_i.
    rewrite Nat.add_succ_r. exact Hi.
Qed.

(** The front matter of the document of a page. *)
Definition front_matter (p : PageInput) : string :=
  Str.join Str.nl
    (doc_header {| title := Str.strip (in_title p); fullurl := Str.strip (in_fullurl p);
                   categories := in_categories p; pagecontent := "" |}).

Lemma process_page_no_text idx p taken data kvs :
  truthy (default PNone (assoc "text" kvs)) = false ->
  response w idx = Return (PDict data) ->
  assoc "error" data = None ->
  assoc "parse" data = Some (PDict kvs) ->
  mkdir_error w idx = None ->
  write_error w idx = None ->
  exists fname,
    (process_page idx p taken).1
    = inr (fname, front_matter p +:+ Str.nl +:+ Str.nl +:+ Str.nl).
Proof.
  intros Htext Hresp Herr Hparse Hmk Hwr.
  unfold UrlSplitDriver.process_page. rewrite Hresp.
  cbn [fetch_parse contains Return]. rewrite Herr.
  rewrite bool_decide_eq_false_2 by (by intros [? ?]).
  cbn [getitem lift]. rewrite Hparse. cbn [lift Return].
  unfold clean_pagecontent. cbn [get bind Return]. unfold py_or. rewrite Htext.
  change (clean_html (Repr.str (PStr ""))) with (Return (A := string) "").
  cbn [Return]. rewrite Hmk. unfold write_doc.
  match goal with |- context [safe_filename _ ?t _ _] =>
    destruct (safe_filename_spec nfkd_no_combining t taken ".md") as (k & _ & -> & _)
  end.
  rewrite Hwr. cbn [fst]. eexists. reflexivity.
Qed.

End Files.

(** X8: the files one run of [process] writes have pairwise different
    names, whatever the titles of the pages are, equal ones included,
    and whichever pages fail: no page overwrites the document of
    another. *)
Theorem process_writes_distinct_files json_loads nfkd_no_combining w rows reports :
  process json_loads nfkd_no_combining w rows = Return reports ->
  NoDup (written reports).
Proof.
  unfold process. destruct (read_pages json_loads rows) as [e | pages]; [discriminate |].
  cbn [bind]. intros [= <-]. apply process_loop_written.
Qed.

(** A table of two pages with the same title, on a site that serves one
    page. *)
Definition same_title_rows : list (list string) :=
  [[" Title"; "FullURL "]; ["Ork"; "u1"]; []; [" Ork"; "u2"]].

Definition one_page_site : site :=
  {| response := fun _ => Return (PDict [("parse", PDict [("text", PStr "<p>Waaagh</p>")])]);
     mkdir_error := fun _ => None;
     write_error := fun _ => None |}.

Definition same_title_reports : list report :=
  Eval vm_compute in
    match process (fun _ => None) (fun s => s) one_page_site same_title_rows with
    | inr reports => reports
    | inl _ => []
    end.

Lemma process_writes_distinct_files_witness :
  written same_title_reports = ["Ork.md"; "Ork_2.md"] /\ NoDup (written same_title_reports).
Proof.
  split; [reflexivity |].
  apply (process_writes_distinct_files (fun _ => None) (fun s => s) one_page_site
           same_title_rows).
  vm_compute. reflexivity.
Defined.

(** X12: a page whose ["text"] is missing, [None], empty or otherwise
    falsy has the empty string for its content, and no error: [process]
    writes a document for it that holds the front matter and the three
    newlines after it, nothing else. *)
Theorem no_text_page_is_written kvs :
  truthy (default PNone (assoc "text" kvs)) = false ->
  clean_pagecontent (PDict kvs) = Return "" /\
  forall json_loads nfkd_no_combining w records pages i p data,
    read_pages json_loads records = Return pages ->
    pages !! i = Some p ->
    response w (S i) = Return (PDict data) ->
    assoc "error" data = None ->
    assoc "parse" data = Some (PDict kvs) ->
    mkdir_error w (S i) = None ->
    write_error w (S i) = None ->
    exists reports fname,
      process json_loads nfkd_no_combining w records = Return reports /\
      reports !! i
      = Some (WroteFile fname (front_matter p +:+ Str.nl +:+ Str.nl +:+ Str.nl)).
Proof.
  intros Htext. split.
  { unfold clean_pagecontent. cbn [get bind Return]. unfold py_or. by rewrite Htext. }
  intros json_loads nfkd w records pages i p data Hread Hp Hresp Herr Hparse Hmk Hwr.
  unfold process. rewrite Hread. cbn [bind Return].
  destruct (process_loop_lookup nfkd w pages 1 ∅ i p Hp) as (taken_i & Hi).
  destruct (process_page_no_text nfkd w (1 + i) p taken_i data kvs
              Htext Hresp Herr Hparse Hmk Hwr) as (fname & Hpage).
  rewrite Hpage in Hi. eexists _, fname. split; [reflexivity | exact Hi].
Qed.

(** A table of one page, on a site whose answer has no text. *)
Definition one_title : list (list string) := [["title"]; ["Ork"]].

Definition textless_site : site :=
  {| response := fun _ => Return (PDict [("parse", PDict [("title", PStr "Ork")])]);
     mkdir_error := fun _ => None;
     write_error := fun _ => None |}.

Lemma no_text_page_is_written_witness :
  exists reports fname,
    process (fun _ => None) (fun s => s) textless_site one_title = Return reports /\
    reports !! 0%nat
    = Some (WroteFile fname
              ("---" +:+ Str.nl +:+ "title: " +:+ Str.dquote +:+ "Ork" +:+ Str.dquote +:+ Str.nl
               +:+ "categories:" +:+ Str.nl +:+ "---" +:+ Str.nl +:+ Str.nl +:+ Str.nl)).
Proof.
  destruct (no_text_page_is_written [("title", PStr "Ork")] eq_refl) as [_ H].
  exact (H (fun _ => None) (fun s => s) textless_site one_title
           [{| page_id := ""; in_title := "Ork"; in_fullurl := ""; in_categories := [] |}]
           0%nat _ [("parse", PDict [("title", PStr "Ork")])]
           eq_refl eq_refl eq_refl eq_refl eq_refl eq_refl eq_refl).
Defined.

End UrlSplitDriverFacts.
(* ===================================================================== *)
(** * More facts about [url_split.py] *)
(* ===================================================================== *)

Module UrlSplitMoreFacts.

Import UrlSplit UrlSplitFacts UrlSplitDriver StrFacts.

(** ** [normalize_categories] and [read_pages] *)

(** X9: whatever [normalize_categories] returns has no name twice, no
    empty name and no name with white space around it, for every input,
    also one that is no list of strings. *)
Theorem normalize_categories_output json_loads raw names :
  normalize_categories json_loads raw = Return names ->
  NoDup names /\ Forall (fun name => name <> "" /\ Str.strip name = name) names.
Proof.
  unfold normalize_categories.
  destruct (Repr.iterate _) as [e | items]; [discriminate |].
  cbn [bind]. intros [= <-]. split; [apply fromkeys_NoDup |].
  apply Forall_forall. intros x Hx. apply (proj1 (fromkeys_elem_of _ _)) in Hx.
  apply list_elem_of_omap in Hx as (c & _ & Hc). cbv zeta in Hc.
  destruct (clean_category c) as [| a r] eqn:E; [discriminate |].
  cbn [Str.is_empty] in Hc. injection Hc as <-.
  split; [discriminate |]. rewrite <- E. unfold clean_category. apply strip_idem.
Qed.

Lemma normalize_categories_output_witness :
  NoDup ["Orks"; "7"; "Eldar"] /\
  Forall (fun name => name <> "" /\ Str.strip name = name) ["Orks"; "7"; "Eldar"].
Proof.
  apply (normalize_categories_output (fun _ => None)
           (PList [PStr " Category:Orks"; PInt 7; PStr "  "; PStr "Orks "; PStr "Eldar"])).
  reflexivity.
Defined.

(** ** [clean_pagecontent] and [fetch_parse] *)

Lemma section_part_total title_html body_html :
  exists part, section_part title_html body_html = Return part.
Proof.
  unfold section_part. fold (section_key title_html).
  destruct (Str.is_empty (clean_text body_html)); [by eexists |].
  destruct (first_word_total title_html) as (first & ->). unfold Return, bind.
  destruct (banned _ || banned _); [by eexists |].
  destruct (_ && _); by eexists.
Qed.

Lemma section_parts_total h_only : forall headers,
  exists parts, section_parts h_only headers = Return parts.
Proof.
  induction headers as [| h rest IH]; [by eexists |].
  cbn [section_parts].
  destruct (section_part_total (title_html h)
              (Str.slice (h_end h)
                 match rest with h' :: _ => h_start h' | [] => String.length h_only end
                 h_only)) as (part & ->).
  destruct IH as (parts & ->). unfold Return, bind. by eexists.
Qed.

Lemma clean_html_total html :
  exists s, clean_html html = Return s /\ Str.strip s = s.
Proof.
  unfold clean_html. cbv zeta.
  destruct (negb (search_h2 _)).
  - eexists. split; [reflexivity |]. unfold clean_text. apply strip_idem.
  - match goal with |- context [section_parts ?h ?l] =>
      destruct (section_parts_total h l) as (parts & ->) end.
    unfold Return, bind. eexists. split; [reflexivity |]. apply strip_idem.
Qed.

(** X11: for a dict [clean_pagecontent] never raises, whatever its
    ["text"] holds, and what it returns has no white space at its start
    or end; for a value that is no dict it raises [AttributeError]. *)
Theorem clean_pagecontent_total parse :
  match parse with
  | PDict _ => exists s, clean_pagecontent parse = Return s /\ Str.strip s = s
  | _ => clean_pagecontent parse = Raise AttributeError
  end.
Proof.
  destruct parse; try reflexivity.
  unfold clean_pagecontent. cbn [get bind Return]. apply clean_html_total.
Qed.

(** X13: [fetch_parse] returns only for a response that is a dict with no
    ["error"] and with a ["parse"], and returns that; an ["error"] is
    reported also when the response holds a ["parse"]. *)
Theorem fetch_parse_returns response parsed :
  fetch_parse response = inr parsed <->
  exists kvs, response = Return (PDict kvs) /\ assoc "error" kvs = None
              /\ assoc "parse" kvs = Some parsed.
Proof.
  unfold fetch_parse. split.
  - destruct response as [e | data]; [discriminate |].
    destruct data as [| b | z | s | l | kvs]; cbn [contains Return Raise]; try discriminate.
    + destruct (substring_of _ _); discriminate.
    + destruct (existsb _ _); discriminate.
    + destruct (assoc "error" kvs) as [err |] eqn:He.
      * rewrite bool_decide_eq_true_2 by eauto. cbn [getitem]. rewrite He. discriminate.
      * rewrite bool_decide_eq_false_2 by (by intros [? ?]). cbn [getitem lift].
        destruct (assoc "parse" kvs) as [v |] eqn:Hp; [| discriminate].
        intros [= <-]. eauto.
  - intros (kvs & -> & He & Hp). cbn [contains Return]. rewrite He.
    rewrite bool_decide_eq_false_2 by (by intros [? ?]). cbn [getitem lift]. by rewrite Hp.
Qed.

(** ** The characters of a file name *)

(** A letter or digit of ASCII, or the underscore. *)
Definition name_char (c : ascii) : bool :=
  Str.is_ascii_alnum c || Ascii.eqb c "_".

Lemma sub_non_alnum_chars : forall s in_run,
  FetchIO.all_chars name_char (sub_non_alnum in_run s) = true.
Proof.
  induction s as [| c s IH]; intros in_run; [reflexivity |].
  cbn [sub_non_alnum]. destruct (Str.is_ascii_alnum c) eqn:Hc.
  - cbn [FetchIO.all_chars]. unfold name_char at 1. by rewrite Hc, IH.
  - destruct in_run; [apply IH |]. cbn [FetchIO.all_chars]. by rewrite IH.
Qed.

Lemma digit_name_char n : (n < 10)%N -> Str.is_ascii_alnum (pretty_N_char n) = true.
Proof. exact (below_ten (fun d => Str.is_ascii_alnum (pretty_N_char d)) eq_refl n). Qed.

Lemma of_nat_chars n : FetchIO.all_chars name_char (Str.of_nat n) = true.
Proof.
  unfold Str.of_nat, pretty, pretty_nat, pretty, pretty_N.
  destruct (decide (N.of_nat n = 0%N)); [reflexivity |].
  apply FetchIOFacts.pretty_N_go_chars; [| reflexivity].
  intros d Hd. unfold name_char. by rewrite digit_name_char.
Qed.

Section FileNames.

Variable nfkd_no_combining : string -> string.

#[local] Abbreviation slug_base := (slug_base nfkd_no_combining).

Lemma slug_base_chars title : FetchIO.all_chars name_char (slug_base title) = true.
Proof.
  unfold UrlSplit.slug_base. cbv zeta.
  destruct (Str.is_empty _); [reflexivity |].
  apply all_chars_strip_by, sub_non_alnum_chars.
Qed.

(** [base] starts with a letter or a digit. *)
Definition starts_alnum (s : string) : bool :=
  match s with
  | String c _ => Str.is_ascii_alnum c
  | EmptyString => false
  end.

Lemma slug_base_head title : starts_alnum (slug_base title) = true.
Proof.
  pose proof (slug_base_chars title) as Hall. revert Hall.
  unfold UrlSplit.slug_base. cbv zeta.
  set (raw := sub_non_alnum false (nfkd_no_combining title)).
  pose proof (rstrip_by_keeps_head (Ascii.eqb "_") _
                (lstrip_by_stops (Ascii.eqb "_") raw)) as Hhead.
  fold (Str.strip_by (Ascii.eqb "_") raw) in Hhead.
  destruct (Str.strip_by (Ascii.eqb "_") raw) as [| c r]; [reflexivity |].
  cbn [Str.is_empty FetchIO.all_chars starts_alnum]. unfold name_char at 1.
  rewrite Ascii.eqb_sym, Hhead, orb_false_r. by intros [-> _]%andb_true_iff.
Qed.

Lemma candidate_at_chars title k :
  FetchIO.all_chars name_char (candidate_at (slug_base title) k) = true /\
  starts_alnum (candidate_at (slug_base title) k) = true.
Proof.
  unfold candidate_at. destruct (Nat.eqb k 1);
    [split; [apply slug_base_chars | apply slug_base_head] |].
  unfold suffixed. split.
  - rewrite !all_chars_app, slug_base_chars, of_nat_chars. reflexivity.
  - pose proof (slug_base_head title) as H.
    destruct (slug_base title) as [| c r]; [discriminate |]. exact H.
Qed.

(** X14: [safe_filename] always returns, and the name it returns is the
    extension after a stem of ASCII letters, digits and underscores that
    starts with a letter or a digit, whatever the title holds: no
    separator of paths, no dot, no blank and no empty stem. *)
Theorem safe_filename_characters title taken ext :
  exists stem taken',
    safe_filename nfkd_no_combining title taken ext = Some (stem +:+ ext, taken') /\
    FetchIO.all_chars name_char stem = true /\
    starts_alnum stem = true.
Proof.
  destruct (safe_filename_spec nfkd_no_combining title taken ext) as (k & _ & Hk & _).
  destruct (candidate_at_chars title k) as [Hall Hhead].
  eauto 6.
Qed.

End FileNames.

End UrlSplitMoreFacts.

(* ===================================================================== *)
(** * Reading the table of pages *)
(* ===================================================================== *)

Module ReadPagesFacts.

Import UrlSplit UrlSplitFacts UrlSplitDriver StrFacts.

(** ** Dicts *)

Section Dict.

Context {K V : Type} `{EqDecision K}.
Variable eqb : K -> K -> bool.
Hypothesis eqb_eq : forall a b, eqb a b = true <-> a = b.

Lemma eqb_refl a : eqb a a = true.
Proof. by apply eqb_eq. Qed.

Lemma eqb_neq a b : a <> b -> eqb a b = false.
Proof. intros H. destruct (eqb a b) eqn:E; [| done]. by apply eqb_eq in E. Qed.

Lemma dict_get_set k k' (v : V) d :
  dict_get eqb k (dict_set eqb k' v d) = if eqb k k' then Some v else dict_get eqb k d.
Proof.
  induction d as [| [k0 v0] d IH]; cbn [dict_set dict_get]; [done |].
  destruct (eqb k' k0) eqn:E0; cbn [dict_get].
  - apply eqb_eq in E0 as ->. by destruct (eqb k k0).
  - rewrite IH. destruct (eqb k k0) eqn:E1, (eqb k k') eqn:E2; try done.
    apply eqb_eq in E1, E2. subst. by rewrite eqb_refl in E0.
Qed.

Lemma dict_get_absent k (d : list (K * V)) : k ∉ d.*1 -> dict_get eqb k d = None.
Proof.
  induction d as [| [k0 v0] d IH]; [done |].
  cbn [fmap list_fmap fst dict_get]. rewrite not_elem_of_cons. intros [Hne Hin].
  rewrite eqb_neq by done. by apply IH.
Qed.

Lemma dict_set_absent k (v : V) d : k ∉ d.*1 -> dict_set eqb k v d = d ++ [(k, v)].
Proof.
  induction d as [| [k0 v0] d IH]; [done |].
  cbn [fmap list_fmap fst dict_set app]. rewrite not_elem_of_cons. intros [Hne Hin].
  rewrite eqb_neq by done. by rewrite IH.
Qed.

Lemma dict_set_present k (v : V) d : k ∈ d.*1 -> (dict_set eqb k v d).*1 = d.*1.
Proof.
  induction d as [| [k0 v0] d IH]; [by intros ?%elem_of_nil |].
  cbn [fmap list_fmap fst dict_set]. destruct (eqb k k0) eqn:E; [done |].
  intros [-> | Hin]%elem_of_cons; [by rewrite eqb_refl in E |].
  cbn [fmap list_fmap fst]. f_equal. by apply IH.
Qed.

(** The keys of a dict stay different, and what holds of all its values
    and of the new one holds of all afterwards. *)
Lemma dict_set_NoDup k (v : V) d : NoDup d.*1 -> NoDup (dict_set eqb k v d).*1.
Proof.
  intros Hd. destruct (decide (k ∈ d.*1)) as [Hin | Hout].
  - by rewrite dict_set_present.
  - rewrite dict_set_absent by done. rewrite fmap_app. apply NoDup_app.
    split; [done |]. split; [| apply NoDup_singleton].
    intros x Hx Hk. apply list_elem_of_singleton in Hk. by subst.
Qed.

Lemma dict_set_Forall (P : K * V -> Prop) k (v : V) d :
  P (k, v) -> Forall P d -> Forall P (dict_set eqb k v d).
Proof.
  intros Hv. induction 1 as [| [k0 v0] d H0 Hd IH]; cbn [dict_set].
  - by repeat constructor.
  - destruct (eqb k k0) eqn:E; constructor; auto.
    apply eqb_eq in E. by subst.
Qed.

End Dict.

(** ** Field names *)

Lemma lower_char_idem c : Str.lower_char (Str.lower_char c) = Str.lower_char c.
Proof. destruct c as [[] [] [] [] [] [] [] []]; reflexivity. Qed.

Lemma lower_idem s : Str.lower (Str.lower s) = Str.lower s.
Proof.
  unfold Str.lower. induction s as [| c s IH]; [done |].
  cbn [Str.map]. by rewrite lower_char_idem, IH.
Qed.

Lemma lstrip_lower s :
  Str.lstrip_by Str.isspace (Str.lower s) = Str.lower (Str.lstrip_by Str.isspace s).
Proof.
  unfold Str.lower. induction s as [| c s IH]; [done |].
  cbn [Str.map Str.lstrip_by]. rewrite isspace_lower_char. by destruct (Str.isspace c).
Qed.

Lemma rstrip_lower s :
  Str.rstrip_by Str.isspace (Str.lower s) = Str.lower (Str.rstrip_by Str.isspace s).
Proof.
  unfold Str.lower. induction s as [| c s IH]; [done |].
  cbn [Str.map Str.rstrip_by]. cbv zeta. rewrite IH, isspace_lower_char.
  by destruct (Str.rstrip_by Str.isspace s), (Str.isspace c).
Qed.

Lemma strip_lower s : Str.strip (Str.lower s) = Str.lower (Str.strip s).
Proof. unfold Str.strip, Str.strip_by. by rewrite lstrip_lower, rstrip_lower. Qed.

(** A field name as line 208 leaves it is not changed by the cleaning of
    the keys. *)
Lemma clean_key_fieldname fn :
  clean_key (Some (Str.lower (Str.strip fn))) = Str.lower (Str.strip fn).
Proof.
  unfold clean_key. destruct (Str.lower (Str.strip fn)) eqn:E; [done |].
  cbn [Str.is_empty]. rewrite <- E. by rewrite strip_lower, strip_idem, lower_idem.
Qed.

Lemma strip_or_empty s : (if Str.is_empty s then "" else Str.strip s) = Str.strip s.
Proof. by destruct s. Qed.

(** ** The columns of a record *)

(** The field of a record under the last of the columns called [k],
    without the white space around it: empty where the record is short
    of the column, [None] when no column has the name. *)
Fixpoint column (k : string) (fieldnames row : list string) : option string :=
  match fieldnames with
  | [] => None
  | fn :: fieldnames' =>
      match column k fieldnames' (tail row) with
      | Some v => Some v
      | None =>
          if String.eqb k fn
          then Some (match row with v :: _ => Str.strip v | [] => "" end)
          else None
      end
  end.

(** [clean_row.get(k, "")], read off the record. *)
Definition cell_of (k : string) (fieldnames row : list string) : string :=
  default "" (column k fieldnames row).

(** What the cleaning makes of a value that is no list. *)
Definition cleaned_field (v : field) : string :=
  match v with
  | Text s => Str.strip s
  | _ => ""
  end.

Definition plain_value (v : field) : Prop := v = Missing \/ exists s, v = Text s.

Definition plain_item (kv : option string * field) : Prop :=
  (exists fn, kv.1 = Some fn /\ clean_key (Some fn) = fn) /\ plain_value kv.2.

Lemma key_eqb_eq a b : key_eqb a b = true <-> a = b.
Proof.
  destruct a as [x |], b as [y |]; cbn; try (split; congruence).
  rewrite String.eqb_eq. split; congruence.
Qed.

Lemma clean_value_plain v : plain_value v -> clean_value v = Return (cleaned_field v).
Proof. intros [-> | [s ->]]; [done |]. cbn. by rewrite strip_or_empty. Qed.

(** The last of the bindings of a key in a list of pairs. *)
Fixpoint last_binding {V} (k : string) (pairs : list (string * V)) : option V :=
  match pairs with
  | [] => None
  | (k', v) :: rest =>
      match last_binding k rest with
      | Some x => Some x
      | None => if String.eqb k k' then Some v else None
      end
  end.

Definition step (d : list (option string * field)) (kv : string * field) :=
  dict_set key_eqb (Some (fst kv)) (snd kv) d.

Lemma fold_step_spec : forall pairs d,
  Forall (fun kv => clean_key (Some kv.1) = kv.1 /\ plain_value kv.2) pairs ->
  NoDup d.*1 -> Forall plain_item d ->
  NoDup (fold_left step pairs d).*1 /\
  Forall plain_item (fold_left step pairs d) /\
  forall k, dict_get key_eqb (Some k) (fold_left step pairs d)
            = match last_binding k pairs with
              | Some v => Some v
              | None => dict_get key_eqb (Some k) d
              end.
Proof.
  induction pairs as [| [k0 v0] pairs IH]; intros d Hpairs Hnd Hd; [done |].
  apply Forall_cons in Hpairs as [[Hk0 Hv0] Hpairs]. cbn [fst snd] in Hk0, Hv0.
  cbn [fold_left].
  destruct (IH (step d (k0, v0)) Hpairs) as (H1 & H2 & H3).
  { by apply (dict_set_NoDup key_eqb key_eqb_eq). }
  { apply (dict_set_Forall key_eqb key_eqb_eq); [| done]. split; [| done].
    by exists k0. }
  split; [done |]. split; [done |]. intros k. rewrite H3. cbn [last_binding].
  destruct (last_binding k pairs); [done |].
  unfold step. cbn [fst snd]. rewrite (dict_get_set key_eqb key_eqb_eq). cbn [key_eqb].
  by destruct (String.eqb k k0).
Qed.

Lemma column_last_binding k : forall fieldnames row,
  cleaned_field <$> last_binding k
    (combine fieldnames
       (List.map Text row ++ List.repeat Missing (length fieldnames - length row)))
  = column k fieldnames row.
Proof.
  induction fieldnames as [| fn fieldnames IH]; intros row; [done |].
  destruct row as [| v row]; cbn [length Nat.sub List.map app List.repeat combine
                                   last_binding column tail].
  - specialize (IH []). cbn [length List.map app] in IH. rewrite Nat.sub_0_r in IH.
    rewrite <- IH. destruct (last_binding k _); [done |]. by destruct (String.eqb k fn).
  - rewrite <- IH. destruct (last_binding k _); [done |]. by destruct (String.eqb k fn).
Qed.

Lemma fields_plain (fieldnames row : list string) :
  Forall (fun fn => clean_key (Some fn) = fn) fieldnames ->
  Forall (fun kv : string * field => clean_key (Some kv.1) = kv.1 /\ plain_value kv.2)
    (combine fieldnames
       (List.map Text row ++ List.repeat Missing (length fieldnames - length row))).
Proof.
  intros Hnames. apply Forall_forall. intros [fn v] Hin%list_elem_of_In.
  split.
  - apply in_combine_l in Hin. rewrite Forall_forall in Hnames.
    by apply Hnames, list_elem_of_In.
  - apply in_combine_r, in_app_or in Hin as [Hin | Hin].
    + apply in_map_iff in Hin as (s & <- & _). right. by exists s.
    + apply repeat_spec in Hin. by left.
Qed.

(** ** The comprehension over the items *)

(** The cleaned value of the last item whose cleaned key is [k]. *)
Fixpoint last_clean (k : string) (items : list (option string * field)) : option string :=
  match items with
  | [] => None
  | (k', v) :: rest =>
      match last_clean k rest with
      | Some x => Some x
      | None => if String.eqb k (clean_key k') then Some (cleaned_field v) else None
      end
  end.

Lemma clean_row_go_plain : forall items d,
  Forall plain_item items ->
  exists d',
    clean_row_go items d = Return d' /\
    forall k, dict_get String.eqb k d'
              = match last_clean k items with
                | Some v => Some v
                | None => dict_get String.eqb k d
                end.
Proof.
  induction items as [| [k0 v0] items IH]; intros d Hitems; [by exists d |].
  apply Forall_cons in Hitems as [[_ Hv0] Hitems]. cbn [snd] in Hv0.
  cbn [clean_row_go]. rewrite (clean_value_plain v0 Hv0). unfold Return at 1, bind.
  destruct (IH (dict_set String.eqb (clean_key k0) (cleaned_field v0) d) Hitems)
    as (d' & -> & Hd').
  exists d'. split; [done |]. intros k. rewrite Hd'. cbn [last_clean].
  destruct (last_clean k items); [done |].
  rewrite (dict_get_set String.eqb String.eqb_eq).
  by destruct (String.eqb k (clean_key k0)).
Qed.

Lemma clean_row_go_surplus x l : forall items d,
  Forall plain_item items ->
  clean_row_go (items ++ [(None, Surplus (x :: l))]) d = Raise AttributeError.
Proof.
  induction items as [| [k0 v0] items IH]; intros d Hitems; [done |].
  apply Forall_cons in Hitems as [[_ Hv0] Hitems]. cbn [snd] in Hv0.
  cbn [app clean_row_go]. rewrite (clean_value_plain v0 Hv0). unfold Return at 1, bind.
  by apply IH.
Qed.

Lemma last_clean_dict_get k : forall items,
  NoDup items.*1 -> Forall plain_item items ->
  last_clean k items = cleaned_field <$> dict_get key_eqb (Some k) items.
Proof.
  induction items as [| [k0 v0] items IH]; intros Hnd Hitems; [done |].
  apply NoDup_cons in Hnd as [Hout Hnd].
  apply Forall_cons in Hitems as [[(fn & Hfn & Hclean) _] Hitems].
  cbn [fst] in Hfn, Hout. subst k0.
  cbn [last_clean dict_get key_eqb]. rewrite (IH Hnd Hitems), Hclean.
  destruct (String.eqb_spec k fn) as [-> | Hne]; [| by destruct (dict_get _ _ _)].
  by rewrite (dict_get_absent key_eqb key_eqb_eq (Some fn) items Hout).
Qed.

(** ** [read_pages] *)

(** A JSON text that decodes to [null], a boolean or a number. *)
Definition json_scalar (decoded : option pyval) : bool :=
  match decoded with
  | Some PNone | Some (PBool _) | Some (PInt _) => true
  | _ => false
  end.

Section Reading.

Variable json_loads : string -> option pyval.

(** A record [read_pages] can read under the field names: it has no more
    fields than there are names, and its categories are no JSON text of a
    scalar. *)
Definition readable (fieldnames row : list string) : bool :=
  (length row <=? length fieldnames)%nat
  && negb (json_scalar (json_loads (cell_of "categories" fieldnames row))).

(** The page [read_pages] makes of a record. *)
Definition page_of (fieldnames row : list string) (page : PageInput) : Prop :=
  page_id page = cell_of "page_id" fieldnames row /\
  in_title page = cell_of "title" fieldnames row /\
  in_fullurl page = cell_of "fullurl" fieldnames row /\
  normalize_categories json_loads (PStr (cell_of "categories" fieldnames row))
    = Return (in_categories page).

Lemma normalize_categories_json_scalar raw :
  if json_scalar (json_loads raw)
  then normalize_categories json_loads (PStr raw) = Raise TypeError
  else exists names, normalize_categories json_loads (PStr raw) = Return names.
Proof.
  unfold normalize_categories, decode_raw.
  destruct (json_loads raw) as [[] |]; cbn; try reflexivity; by eexists.
Qed.

Lemma clean_row_cells fieldnames row :
  Forall (fun fn => clean_key (Some fn) = fn) fieldnames ->
  if (length fieldnames <? length row)%nat
  then clean_row (dict_row fieldnames row) = Raise AttributeError
  else exists d,
    clean_row (dict_row fieldnames row) = Return d /\
    forall k, cell k d = cell_of k fieldnames row.
Proof.
  intros Hnames. unfold dict_row. cbv zeta.
  set (pairs := combine fieldnames _).
  destruct (fold_step_spec pairs [] (fields_plain fieldnames row Hnames))
    as (Hnd & Hplain & Hlookup); [constructor | constructor |].
  change (fold_left _ pairs []) with (fold_left step pairs []).
  destruct (length fieldnames <? length row)%nat eqn:Hlen.
  - rewrite (dict_set_absent key_eqb key_eqb_eq).
    + apply Nat.ltb_lt in Hlen.
      destruct (List.skipn (length fieldnames) row) as [| x l] eqn:Hskip.
      { apply (f_equal length) in Hskip. rewrite length_skipn in Hskip. cbn in Hskip. lia. }
      by apply clean_row_go_surplus.
    + intros Hin. apply list_elem_of_fmap in Hin as ([k0 v0] & Hk0 & Hin).
      rewrite Forall_forall in Hplain.
      destruct (Hplain _ Hin) as [(fn & Hfn & _) _]. cbn in Hk0, Hfn. congruence.
  - destruct (clean_row_go_plain (fold_left step pairs []) [] Hplain) as (d & Hd & Hcells).
    exists d. split; [exact Hd |]. intros k. unfold cell, cell_of.
    rewrite Hcells, (last_clean_dict_get k _ Hnd Hplain), Hlookup. cbn [dict_get].
    rewrite <- (column_last_binding k fieldnames row). fold pairs.
    by destruct (last_binding k pairs).
Qed.

Lemma read_page_spec fieldnames row :
  Forall (fun fn => clean_key (Some fn) = fn) fieldnames ->
  if readable fieldnames row
  then exists page,
    read_page json_loads (dict_row fieldnames row) = Return page /\
    page_of fieldnames row page
  else exists e,
    read_page json_loads (dict_row fieldnames row) = Raise e /\
    (e = AttributeError \/ e = TypeError).
Proof.
  intros Hnames. unfold readable, read_page.
  pose proof (clean_row_cells fieldnames row Hnames) as Hrow.
  rewrite Nat.leb_antisym. destruct (length fieldnames <? length row)%nat; cbn [negb andb].
  { rewrite Hrow. exists AttributeError. split; [reflexivity | by left]. }
  destruct Hrow as (d & -> & Hcells). unfold Return, Raise, bind. cbv beta iota.
  rewrite !Hcells.
  pose proof (normalize_categories_json_scalar (cell_of "categories" fieldnames row)) as Hn.
  destruct (json_scalar _); cbn [negb].
  - destruct (normalize_categories _ _) as [e | names]; [| discriminate Hn].
    injection Hn as ->. exists TypeError. split; [reflexivity | by right].
  - destruct Hn as (names & Hn).
    destruct (normalize_categories _ _) as [e | names'] eqn:E; [discriminate Hn |].
    eexists. split; [reflexivity |]. by repeat split.
Qed.

Lemma read_rows_spec fieldnames rows :
  Forall (fun fn => clean_key (Some fn) = fn) fieldnames ->
  if forallb (readable fieldnames) rows
  then exists pages,
    read_rows json_loads fieldnames rows = Return pages /\
    Forall2 (page_of fieldnames) rows pages
  else exists e,
    read_rows json_loads fieldnames rows = Raise e /\
    (e = AttributeError \/ e = TypeError).
Proof.
  intros Hnames. induction rows as [| row rows IH]; [by exists [] |].
  cbn [forallb read_rows].
  pose proof (read_page_spec fieldnames row Hnames) as Hrow.
  destruct (readable fieldnames row); cbn [andb].
  - destruct Hrow as (page & -> & Hpage). unfold Return at 1, bind at 1.
    destruct (forallb _ rows).
    + destruct IH as (pages & -> & Hpages). cbn. eexists. split; [reflexivity |].
      by constructor.
    + destruct IH as (e & -> & He). cbn. eauto.
  - destruct Hrow as (e & -> & He). cbn. eauto.
Qed.

(** X10: [read_pages] reads a table as a whole or not at all. On an empty
    file it raises [TypeError]. Otherwise the first record gives the field
    names, each stripped and in lower case, and the blank records after
    it are passed over. When every other record has no more fields than
    there are names and has no JSON scalar for its categories,
    [read_pages] returns one page per record, in order, with the fields
    of the record under the last column of each name, stripped, and with
    its categories normalised; when one record has more fields, or such
    categories, [read_pages] raises [AttributeError] or [TypeError] and
    the pages read before are lost. *)
Theorem read_pages_all_or_nothing records :
  match records with
  | [] => read_pages json_loads records = Raise TypeError
  | header :: rest =>
      let fieldnames := List.map (fun fn => Str.lower (Str.strip fn)) header in
      let rows := List.filter (fun r => negb (is_blank_record r)) rest in
      if forallb (readable fieldnames) rows
      then exists pages,
        read_pages json_loads records = Return pages /\
        Forall2 (page_of fieldnames) rows pages
      else exists e,
        read_pages json_loads records = Raise e /\
        (e = AttributeError \/ e = TypeError)
  end.
Proof.
  destruct records as [| header rest]; [reflexivity |].
  cbv zeta. unfold read_pages. apply read_rows_spec.
  apply Forall_forall. intros fn Hfn. apply list_elem_of_In, in_map_iff in Hfn as (h & <- & _).
  apply clean_key_fieldname.
Qed.

End Reading.

(** An empty file; a table whose second page has a field too many; a
    table whose page has the number 5 for its categories; and a table
    that is read, with a blank line, a short record and a header in
    capitals. *)
Lemma read_pages_examples :
  read_pages (fun _ => None) [] = Raise TypeError /\
  read_pages (fun _ => None) [["title"]; ["Ork"]; ["Eldar"; "x"]] = Raise AttributeError /\
  read_pages (fun s => if String.eqb s "5" then Some (PInt 5) else None)
    [["title"; "categories"]; ["Ork"; "5"]] = Raise TypeError /\
  read_pages (fun _ => None)
    [[" Title"; "CATEGORIES "; "title"]; []; ["x"; "Xenos, Category:Orks"; " Ork "]; ["y"]]
  = Return [{| page_id := ""; in_title := "Ork"; in_fullurl := "";
               in_categories := ["Xenos"; "Orks"] |};
            {| page_id := ""; in_title := ""; in_fullurl := ""; in_categories := [] |}].
Proof. repeat split; reflexivity. Qed.

End ReadPagesFacts.
(* ===================================================================== *)
(** * More facts about the pagination crawler *)
(* ===================================================================== *)

Module GetUrlsMoreFacts.

Import GetUrls.

(** The responses of the requests that did not fail. *)
Definition successes (responses : list (result pyval)) : list (result pyval) :=
  List.filter (fun r => match r with inr _ => true | inl _ => false end) responses.

Section Responses.

Variable params : gmap string pyval.

(** X15: requests that fail neither lose nor repeat a page and do not
    change how the crawl ends: the pages yielded and the ending are those
    of the run that meets the successful responses alone. *)
Theorem failed_requests_lose_nothing : forall responses cont,
  yields (fst (page_generator_go params cont responses))
    = yields (fst (page_generator_go params cont (successes responses))) /\
  snd (page_generator_go params cont responses)
    = snd (page_generator_go params cont (successes responses)).
Proof.
  induction responses as [| r responses IH]; intros cont; [done |].
  destruct r as [e | data]; cbn [successes List.filter]; fold (successes responses).
  - specialize (IH cont). cbn [page_generator_go].
    destruct (merge params cont) as [e' | request] eqn:Hm.
    { destruct (successes responses) as [| r' rest'] eqn:Hs;
        cbn [page_generator_go]; by rewrite Hm. }
    destruct (page_generator_go params cont responses) as [evs en].
    cbn [fst snd yields omap list_omap] in *. exact IH.
  - cbn [page_generator_go].
    destruct (merge params cont) as [e' | request]; [done |].
    destruct (pages_of data) as [e' | pages]; [done |].
    destruct (contains "continue" data) as [e' | [|]]; [done | | done].
    destruct (getitem data "continue") as [e' | cont']; [done |].
    specialize (IH cont').
    destruct (page_generator_go params cont' responses) as [evs en].
    destruct (page_generator_go params cont' (successes responses)) as [evs' en'].
    cbn [fst snd] in *. destruct IH as [IH ->]. split; [| done].
    unfold yields in *. cbn [omap list_omap]. rewrite !omap_app.
    cbn [omap list_omap]. by rewrite IH.
Qed.

(** X16: the generator never gives up on a request that fails: after any
    number of failures in a row it has sent the same request that often,
    slept after each, yielded nothing, and is about to send it again. *)
Theorem page_generator_retries_without_bound kvs (failures : list exn) :
  page_generator_go params (PDict kvs) (List.map inl failures)
    = (List.concat
         (List.map (fun _ => [Request (list_to_map kvs ∪ params); SleepAfterFailure])
            failures),
       Pending (PDict kvs)).
Proof.
  induction failures as [| e failures IH]; [reflexivity |].
  cbn [List.map page_generator_go merge Return]. cbn [List.map] in IH.
  cbn [merge Return] in IH.
  destruct failures as [| e' failures'].
  - reflexivity.
  - rewrite IH. reflexivity.
Qed.

(** X17: a response whose ["continue"] is no object stalls the crawl: its
    pages are yielded, and then every round fails on [{**params, **cont}]
    before a request is sent, whatever responses would follow; the
    generator neither ends nor raises. *)
Theorem page_generator_stalls cont request kvs pages cont' rest :
  merge params cont = Return request ->
  pages_of (PDict kvs) = Return pages ->
  assoc "continue" kvs = Some cont' ->
  is_dict cont' = false ->
  page_generator_go params cont (inr (PDict kvs) :: rest)
    = (Request request :: List.map Yield pages ++ [SleepGentle], Stalled).
Proof.
  intros Hm Hpages Hcont Hdict.
  cbn [page_generator_go]. rewrite Hm, Hpages.
  cbn [contains getitem Return]. rewrite Hcont.
  rewrite bool_decide_eq_true_2 by done.
  destruct cont' as [| b | z | s | l | kvs']; try discriminate Hdict;
    by destruct rest.
Qed.

End Responses.

Lemma page_generator_stalls_witness :
  page_generator 200 0
    [inr (PDict [("query", PDict [("pages", PList [PInt 1])]); ("continue", PStr "x")]);
     inr (PDict [])]
  = ([Request (base_params 200 0); Yield (PInt 1); SleepGentle], Stalled).
Proof.
  apply (page_generator_stalls (base_params 200 0) (PDict []) (base_params 200 0)
           [("query", PDict [("pages", PList [PInt 1])]); ("continue", PStr "x")]
           [PInt 1] (PStr "x")); reflexivity.
Defined.

End GetUrlsMoreFacts.
(* ===================================================================== *)
(** * The two fetch functions side by side *)
(* ===================================================================== *)

Module FetchVersionsFacts.

Import Fetch.

(** X18: the fetch function of the v3 script sends one request and never
    sleeps, whatever the answer; it returns the body of any response that
    decodes, a throttled one included, and wraps every exception. When the
    function of the other script is done after one request, the two
    return the same. *)
Theorem fetch_with_backoff_v3_single_attempt w :
  fst (FetchV3.fetch_with_backoff w) = [Get 1%nat] /\
  (forall status_code data,
      outcome w 1%nat = Response status_code (inr data) ->
      snd (FetchV3.fetch_with_backoff w) = Return data) /\
  (forall e, snd (FetchV3.fetch_with_backoff w) = Raise e ->
             exists cause, e = HttpJsonFailure 1 cause) /\
  (fst (fetch_with_backoff w) = [Get 1%nat] ->
   FetchV3.fetch_with_backoff w = fetch_with_backoff w).
Proof.
  unfold FetchV3.fetch_with_backoff, fetch_with_backoff, FetchV3.MAX_RETRIES, MAX_RETRIES.
  cbn [seq FetchV3.attempts fst snd].
  split; [reflexivity |]. split; [by intros s d -> |]. split.
  { destruct (outcome w 1%nat) as [e' | s [e' | d]]; intros e [= <-]; by eexists. }
  set (rest := [2; 3; 4; 5; 6]%nat).
  cbn [attempts]. cbn [Nat.eqb].
  destruct (outcome w 1%nat) as [e | status_code [e | data]].
  - destruct (is_request_exception e);
      destruct (attempts w rest _) as [tr r]; discriminate.
  - destruct (status_retry status_code).
    + destruct (attempts w rest _) as [tr r]; discriminate.
    + destruct (is_request_exception e);
        destruct (attempts w rest _) as [tr r]; discriminate.
  - destruct (status_retry status_code).
    + destruct (attempts w rest _) as [tr r]; discriminate.
    + destruct (is_maxlag data) as [e | [|]].
      * destruct (is_request_exception e);
          destruct (attempts w rest _) as [tr r]; discriminate.
      * destruct (attempts w rest _) as [tr r]; discriminate.
      * reflexivity.
Qed.

Lemma fetch_with_backoff_v3_single_attempt_witness :
  FetchV3.fetch_with_backoff
    {| outcome := fun _ => Response 200 (Return (PDict [])); uniform := fun _ => 0%Q |}
  = fetch_with_backoff
    {| outcome := fun _ => Response 200 (Return (PDict [])); uniform := fun _ => 0%Q |}.
Proof.
  apply (fetch_with_backoff_v3_single_attempt
           {| outcome := fun _ => Response 200 (Return (PDict [])); uniform := fun _ => 0%Q |}).
  reflexivity.
Defined.

End FetchVersionsFacts.
(* ===================================================================== *)
(** * The final tidying of [html_to_markdown] *)
(* ===================================================================== *)

Module TidyFacts.

Import Fetch FetchIO StrFacts.

Definition is_newline (c : ascii) : bool := (Str.code c =? 10)%N.

(** No line of [s] ends in white space: a white space character other
    than the newline is followed by a character that is no newline. *)
Fixpoint no_trailing_space (s : string) : bool :=
  match s with
  | EmptyString => true
  | String c s' =>
      (if Str.isspace c && negb (is_newline c)
       then match s' with
            | String d _ => negb (is_newline d)
            | EmptyString => false
            end
       else true)
      && no_trailing_space s'
  end.

Lemma no_trailing_space_cons c s :
  no_trailing_space (String c s)
  = (if Str.isspace c && negb (is_newline c)
     then match s with
          | String d _ => negb (is_newline d)
          | EmptyString => false
          end
     else true)
    && no_trailing_space s.
Proof. reflexivity. Qed.

(** What a line is after [rstrip]: free of line boundaries, and without
    white space at its end. *)
Definition line_ok (s : string) : bool :=
  all_chars (fun c => negb (Str.is_linebreak c)) s && no_trailing_space s.

Lemma nl_linebreak c : is_newline c = true -> Str.is_linebreak c = true.
Proof. destruct c as [[] [] [] [] [] [] [] []]; try discriminate; by intros _. Qed.

Lemma all_chars_snoc p s c :
  all_chars p (s +:+ String c "") = all_chars p s && p c.
Proof. rewrite all_chars_app. cbn [all_chars]. by rewrite andb_true_r. Qed.

(** The lines of [splitlines] hold no line boundary. *)
Lemma splitlines_go_lines : forall s cur open after_cr,
  all_chars (fun c => negb (Str.is_linebreak c)) cur = true ->
  Forall (fun l => all_chars (fun c => negb (Str.is_linebreak c)) l = true)
    (Str.splitlines_go cur open after_cr s).
Proof.
  induction s as [| c s IH]; intros cur open after_cr Hcur; cbn [Str.splitlines_go].
  - destruct open; by repeat constructor.
  - destruct (after_cr && _); [by apply IH |].
    destruct (Str.is_linebreak c) eqn:Hc.
    + constructor; [done | by apply IH].
    + apply IH. by rewrite all_chars_snoc, Hcur, Hc.
Qed.

Lemma rstrip_by_nonempty_head p c s :
  Str.rstrip_by p (String c s) <> "" ->
  exists r, Str.rstrip_by p (String c s) = String c r.
Proof.
  cbn [Str.rstrip_by]. cbv zeta. destruct (_ && _); [done | by eexists].
Qed.

Lemma rstrip_no_trailing s :
  all_chars (fun c => negb (is_newline c)) s = true ->
  no_trailing_space (Str.rstrip s) = true.
Proof.
  unfold Str.rstrip. induction s as [| c s IH]; [done |].
  cbn [all_chars Str.rstrip_by]. cbv zeta. intros [Hc Hs]%andb_true_iff.
  specialize (IH Hs).
  destruct (Str.rstrip_by Str.isspace s) as [| d r] eqn:Hr; cbn [Str.is_empty andb].
  - destruct (Str.isspace c) eqn:Hsp; [done |]. cbn [no_trailing_space]. by rewrite Hsp.
  - rewrite no_trailing_space_cons, IH, andb_true_r.
    destruct (Str.isspace c && negb (is_newline c)); [| done].
    destruct s as [| d' s']; [discriminate |].
    destruct (rstrip_by_nonempty_head Str.isspace d' s') as (r' & Hr'); [by rewrite Hr |].
    rewrite Hr in Hr'. injection Hr' as -> _.
    cbn [all_chars] in Hs. by apply andb_true_iff in Hs as [-> _].
Qed.

Lemma rstrip_line_ok l :
  all_chars (fun c => negb (Str.is_linebreak c)) l = true -> line_ok (Str.rstrip l) = true.
Proof.
  intros H. unfold line_ok. apply andb_true_iff. split.
  - by apply all_chars_rstrip_by.
  - apply rstrip_no_trailing. revert H. apply all_chars_impl.
    intros c Hc. destruct (is_newline c) eqn:E; [| done].
    apply nl_linebreak in E. by rewrite E in Hc.
Qed.

Lemma no_trailing_space_line x rest :
  line_ok x = true -> no_trailing_space rest = true ->
  no_trailing_space (x +:+ Str.nl +:+ rest) = true.
Proof.
  unfold line_ok. intros [Hx Ht]%andb_true_iff Hrest. revert Hx Ht.
  induction x as [| c x IH]; [intros _ _; exact Hrest |].
  change (String c x +:+ Str.nl +:+ rest) with (String c (x +:+ Str.nl +:+ rest)).
  cbn [all_chars no_trailing_space].
  intros [Hc Hx]%andb_true_iff [Hhead Ht]%andb_true_iff.
  rewrite (IH Hx Ht), andb_true_r.
  destruct (Str.isspace c && negb (is_newline c)); [| done].
  destruct x as [| d x']; [discriminate |]. exact Hhead.
Qed.

Lemma no_trailing_space_join lines :
  Forall (fun l => line_ok l = true) lines ->
  no_trailing_space (Str.join Str.nl lines) = true.
Proof.
  induction 1 as [| x rest Hx Hrest IH]; [done |].
  cbn [Str.join]. destruct rest as [| y rest'].
  - unfold line_ok in Hx. by apply andb_true_iff in Hx as [_ Hx].
  - by apply no_trailing_space_line.
Qed.

Lemma no_trailing_space_lstrip p s :
  no_trailing_space s = true -> no_trailing_space (Str.lstrip_by p s) = true.
Proof.
  induction s as [| c s IH]; [done |].
  cbn [Str.lstrip_by]. destruct (p c); [| done].
  cbn [no_trailing_space]. intros [_ H]%andb_true_iff. by apply IH.
Qed.

Lemma no_trailing_space_rstrip s :
  no_trailing_space s = true -> no_trailing_space (Str.rstrip_by Str.isspace s) = true.
Proof.
  induction s as [| c s IH]; [done |].
  cbn [no_trailing_space Str.rstrip_by]. cbv zeta. intros [Hc Hs]%andb_true_iff.
  specialize (IH Hs).
  destruct (Str.rstrip_by Str.isspace s) as [| d r] eqn:Hr; cbn [Str.is_empty andb].
  - destruct (Str.isspace c) eqn:Hsp; [done |]. cbn [no_trailing_space]. by rewrite Hsp.
  - rewrite no_trailing_space_cons, IH, andb_true_r.
    destruct (Str.isspace c && negb (is_newline c)); [| done].
    destruct s as [| d' s']; [discriminate |].
    destruct (rstrip_by_nonempty_head Str.isspace d' s') as (r' & Hr'); [by rewrite Hr |].
    rewrite Hr in Hr'. by injection Hr' as -> _.
Qed.

Lemma tidy_shape md :
  exists body,
    tidy md = body +:+ Str.nl /\
    Str.strip body = body /\
    no_trailing_space body = true.
Proof.
  unfold tidy. eexists. split; [reflexivity |]. split; [apply strip_idem |].
  unfold Str.strip, Str.strip_by.
  apply no_trailing_space_rstrip, no_trailing_space_lstrip, no_trailing_space_join.
  apply Forall_forall. intros l Hl.
  change (List.map Str.rstrip ?x) with (Str.rstrip <$> x) in Hl.
  apply list_elem_of_fmap in Hl as (l' & -> & Hl').
  apply rstrip_line_ok.
  pose proof (splitlines_go_lines md "" false false eq_refl) as H.
  rewrite Forall_forall in H. by apply H.
Qed.

(** X19: what [html_to_markdown] returns is a text and one newline after
    it; the text has no white space at its start or end, and no line of
    it ends in white space, whatever the markup and its conversion. *)
Theorem html_to_markdown_shape body_children get_text html :
  exists body,
    html_to_markdown body_children get_text html = body +:+ Str.nl /\
    Str.strip body = body /\
    no_trailing_space body = true.
Proof. apply tidy_shape. Qed.

End TidyFacts.
(* ===================================================================== *)
(** * The categories line of [write_markdown] *)
(* ===================================================================== *)

Module CatsTextFacts.

Import Fetch.

(** ** The order of strings *)

Definition str_lt (x y : string) : Prop := String.ltb x y = true.

Lemma str_lt_compare x y : str_lt x y <-> String.compare x y = Lt.
Proof. unfold str_lt, String.ltb. by destruct (String.compare x y). Qed.

Lemma ascii_compare_refl a : Ascii.compare a a = Eq.
Proof. apply N.compare_refl. Qed.

Lemma compare_trans : forall x y z,
  String.compare x y = Lt -> String.compare y z = Lt -> String.compare x z = Lt.
Proof.
  induction x as [| a x IH]; intros [| b y] [| c z]; cbn [String.compare]; try done.
  unfold Ascii.compare.
  destruct (N.compare_spec (N_of_ascii a) (N_of_ascii b)) as [Hab | Hab | Hab];
    destruct (N.compare_spec (N_of_ascii b) (N_of_ascii c)) as [Hbc | Hbc | Hbc];
    try done; intros H1 H2.
  - rewrite Hab, Hbc, N.compare_refl. by apply IH with y.
  - rewrite Hab. by rewrite (proj2 (N.compare_lt_iff _ _) Hbc).
  - rewrite <- Hbc. by rewrite (proj2 (N.compare_lt_iff _ _) Hab).
  - assert (Hac : (N_of_ascii a < N_of_ascii c)%N) by lia.
    by rewrite (proj2 (N.compare_lt_iff _ _) Hac).
Qed.

Lemma str_lt_trans x y z : str_lt x y -> str_lt y z -> str_lt x z.
Proof. rewrite !str_lt_compare. apply compare_trans. Qed.

Lemma str_lt_irrefl x : ~ str_lt x x.
Proof.
  rewrite str_lt_compare. intros H. pose proof (String.compare_antisym x x) as E.
  rewrite H in E. discriminate.
Qed.

Lemma str_lt_total x y : String.eqb x y = false -> String.ltb x y = false -> str_lt y x.
Proof.
  intros Hne Hlt. apply str_lt_compare. rewrite String.compare_antisym.
  unfold String.ltb in Hlt. destruct (String.compare x y) eqn:E; [| done | done].
  apply String.compare_eq_iff in E. apply String.eqb_neq in Hne. done.
Qed.

(** Strictly increasing: every string is below all that follow it. *)
Fixpoint increasing (l : list string) : Prop :=
  match l with
  | [] => True
  | x :: rest => Forall (str_lt x) rest /\ increasing rest
  end.

Lemma insert_sorted_elem_of x l y : y ∈ insert_sorted x l <-> y = x \/ y ∈ l.
Proof.
  induction l as [| z l IH]; cbn [insert_sorted].
  - rewrite list_elem_of_singleton, elem_of_nil. tauto.
  - destruct (String.eqb_spec x z) as [-> | Hne].
    + rewrite elem_of_cons. tauto.
    + destruct (String.ltb x z); rewrite !elem_of_cons; [tauto |].
      rewrite IH. tauto.
Qed.

Lemma insert_sorted_increasing x l : increasing l -> increasing (insert_sorted x l).
Proof.
  induction l as [| z l IH]; cbn [insert_sorted increasing]; [by split |].
  intros [Hz Hl]. destruct (String.eqb x z) eqn:Hne; [by split |].
  destruct (String.ltb x z) eqn:Hlt.
  - cbn [increasing]. split; [| by split]. constructor; [exact Hlt |].
    eapply Forall_impl; [exact Hz |]. intros y Hy. by apply str_lt_trans with z.
  - cbn [increasing]. split; [| by apply IH].
    apply Forall_forall. intros y [-> | Hy]%insert_sorted_elem_of.
    + by apply str_lt_total.
    + rewrite Forall_forall in Hz. by apply Hz.
Qed.

Lemma sorted_set_elem_of l y : y ∈ sorted_set l <-> y ∈ l.
Proof.
  induction l as [| x l IH]; [done |].
  cbn [sorted_set fold_right]. fold (sorted_set l).
  rewrite insert_sorted_elem_of, elem_of_cons, IH. tauto.
Qed.

Lemma sorted_set_increasing l : increasing (sorted_set l).
Proof.
  induction l as [| x l IH]; [done |].
  cbn [sorted_set fold_right]. by apply insert_sorted_increasing.
Qed.

(** Two increasing lists of the same strings are the same list. *)
Lemma increasing_unique : forall l l',
  increasing l -> increasing l' -> (forall y, y ∈ l <-> y ∈ l') -> l = l'.
Proof.
  induction l as [| x l IH]; intros [| x' l'] Hl Hl' Hsame.
  - done.
  - exfalso. apply (elem_of_nil x'), Hsame. by left.
  - exfalso. apply (elem_of_nil x), Hsame. by left.
  - destruct Hl as [Hx Hl], Hl' as [Hx' Hl'].
    rewrite Forall_forall in Hx. rewrite Forall_forall in Hx'.
    assert (x = x') as <-.
    { assert (Hin : x ∈ x' :: l') by (apply Hsame; by left).
      assert (Hin' : x' ∈ x :: l) by (apply Hsame; by left).
      apply elem_of_cons in Hin as [-> | Hin]; [done |].
      apply elem_of_cons in Hin' as [-> | Hin']; [done |].
      exfalso. apply (str_lt_irrefl x). apply str_lt_trans with x'; [by apply Hx | by apply Hx']. }
    f_equal. apply IH; [done | done |].
    intros y. split; intros Hy.
    + assert (Hin : y ∈ x :: l') by (apply Hsame; by right).
      apply elem_of_cons in Hin as [-> | Hin]; [| done].
      exfalso. by apply (str_lt_irrefl x), Hx.
    + assert (Hin : y ∈ x :: l) by (apply Hsame; by right).
      apply elem_of_cons in Hin as [-> | Hin]; [| done].
      exfalso. by apply (str_lt_irrefl x), Hx'.
Qed.

(** ** [cats_text] *)

Lemma category_text_raises c e : category_text c = Raise e -> e = AttributeError.
Proof.
  unfold category_text. destruct c as [| | | | | kvs]; try discriminate.
  destruct (assoc "*" kvs) as [[] |]; try discriminate; by intros [= <-].
Qed.

(** What [category_texts] gives depends on the members of the list only. *)
Lemma category_texts_spec cs :
  match category_texts cs with
  | inl e =>
      e = AttributeError /\
      exists c, c ∈ cs /\ truthy c = true /\ category_text c = Raise AttributeError
  | inr texts =>
      (forall c, c ∈ cs -> truthy c = true -> exists s, category_text c = Return s) /\
      (forall s, s ∈ texts <->
                 exists c, c ∈ cs /\ truthy c = true /\ category_text c = Return s)
  end.
Proof.
  induction cs as [| c cs IH]; cbn [category_texts].
  { split; [intros c Hc; by apply elem_of_nil in Hc |].
    intros s. split; [intros Hs; by apply elem_of_nil in Hs |].
    intros (c & Hc & _). by apply elem_of_nil in Hc. }
  destruct (truthy c) eqn:Ht.
  - destruct (category_text c) as [e | s] eqn:Hc; cbn [bind].
    { pose proof (category_text_raises c e Hc) as ->. split; [done |].
      exists c. by rewrite elem_of_cons; auto. }
    destruct (category_texts cs) as [e | texts]; cbn [bind Return].
    + destruct IH as (-> & c' & Hin & Ht' & Hc'). split; [done |].
      exists c'. rewrite elem_of_cons. auto.
    + destruct IH as [Hall Htexts]. split.
      * intros c' [-> | Hin]%elem_of_cons Ht'; [by exists s | by apply Hall].
      * intros s'. rewrite elem_of_cons, Htexts. split.
        -- intros [-> | (c' & Hin & Ht' & Hc')].
           ++ exists c. rewrite elem_of_cons. auto.
           ++ exists c'. rewrite elem_of_cons. auto.
        -- intros (c' & [-> | Hin]%elem_of_cons & Ht' & Hc').
           ++ left. unfold Return in Hc'. congruence.
           ++ right. by exists c'.
  - destruct (category_texts cs) as [e | texts].
    + destruct IH as (-> & c' & Hin & Ht' & Hc'). split; [done |].
      exists c'. rewrite elem_of_cons. auto.
    + destruct IH as [Hall Htexts]. split.
      * intros c' [-> | Hin]%elem_of_cons Ht'; [congruence | by apply Hall].
      * intros s'. rewrite Htexts. split.
        -- intros (c' & Hin & Ht' & Hc'). exists c'. rewrite elem_of_cons. auto.
        -- intros (c' & [-> | Hin]%elem_of_cons & Ht' & Hc'); [congruence |].
           by exists c'.
Qed.

(** X20: the categories line [write_markdown] writes depends on which
    categories the answer lists, not on their order or on how often one
    is listed; it names the distinct texts in increasing order. *)
Theorem cats_text_order_independent cs cs' :
  (forall c, c ∈ cs <-> c ∈ cs') ->
  cats_text (PList cs) = cats_text (PList cs') /\
  (forall texts, category_texts cs = Return texts ->
     cats_text (PList cs) = Return (Str.join ", " (sorted_set texts)) /\
     increasing (sorted_set texts) /\
     (forall s, s ∈ sorted_set texts <-> s ∈ texts)).
Proof.
  intros Hsame. split.
  - assert (E : forall l, cats_text (PList l)
                = bind (category_texts l)
                    (fun texts => Return (Str.join ", " (sorted_set texts)))).
    { intros l. unfold cats_text, cats_of, py_or. by destruct l. }
    rewrite !E.
    pose proof (category_texts_spec cs) as H. pose proof (category_texts_spec cs') as H'.
    destruct (category_texts cs) as [e | texts], (category_texts cs') as [e' | texts'];
      cbn [bind].
    + destruct H as [-> _], H' as [-> _]. done.
    + exfalso. destruct H as (_ & c & Hin & Ht & Hc), H' as [Hall _].
      destruct (Hall c (proj1 (Hsame c) Hin) Ht) as (s & Hs).
      unfold Return, Raise in *. congruence.
    + exfalso. destruct H' as (_ & c & Hin & Ht & Hc), H as [Hall _].
      destruct (Hall c (proj2 (Hsame c) Hin) Ht) as (s & Hs).
      unfold Return, Raise in *. congruence.
    + destruct H as [_ H], H' as [_ H']. unfold Return. do 2 f_equal.
      apply increasing_unique; try apply sorted_set_increasing.
      intros s. rewrite !sorted_set_elem_of, H, H'.
      split; intros (c & Hin & Hrest); exists c; (split; [by apply Hsame | done]).
  - intros texts Htexts. split; [| split].
    + unfold cats_text, cats_of, py_or. destruct cs; cbn [truthy]; by rewrite Htexts.
    + apply sorted_set_increasing.
    + apply sorted_set_elem_of.
Qed.

Lemma cats_text_order_independent_witness :
  cats_text (PList [PStr "Orks"; PDict [("*", PStr " Eldar ")]; PStr "Orks"])
  = cats_text (PList [PDict [("*", PStr " Eldar ")]; PStr "Orks"]).
Proof.
  apply cats_text_order_independent. intros c. rewrite !elem_of_cons. tauto.
Defined.

End CatsTextFacts.
